(** * Twitter-X-Media-Batch-Downloader: the resumable fetch orchestrator

    A shallow embedding of
    - [backend/twitter.go]: [parseExtractorError], [extractJSON],
      [ensureURLScheme], the conversions [convertToTimelineEntry] and
      [convertMetadataToTimelineEntry], and [ExtractTimeline] and
      [ExtractDateRange] from the output of the extractor on;
    - [frontend/src/App.tsx]: the batch loops of [handleFetch],
      [handleFetchAll] and [handleRetryAccount], with the checkpoint store
      they drive; the handlers around them ([handleResume],
      [handleClearResume], [handleStopAll], [handleStopAccount], the tick
      of the timer); the fetch history and the account list
      ([addToHistory], [removeFromHistory], [parseUsername],
      [handleUpdateSelected], [handleImportFile]); the version test of
      [checkForUpdates].

    Go strings are byte strings and are modelled by [string]; the helpers of
    package [strings] are given for ASCII text, on which Go's Unicode-aware
    [ToLower] and [TrimSpace] act bytewise. The same helpers stand for
    [toLowerCase], [trim] and [includes] on the JavaScript side. Beyond
    ASCII the libraries lower and trim more than the helpers do, so every
    property that rests on letter case or on white space is stated for
    ASCII text ([Str.isASCII]).

    The handlers of [App.tsx] are asynchronous and work on refs, on the
    browser's storage and on the extractor. They are modelled by state
    passing over a [World] (the store, the refs, the clock and a trace of
    what was done), against an adapter given as a script of calls. The
    modules [@/lib/fetch-state] (store and merge) are not among the sources
    and are modelled from the specification. The batches of the adapter
    carry their timeline as an array; the [null] the backend sends for a
    page without items is modelled apart, in [handleFetchWire].
    [handleFetch] is modelled in its timeline mode, and in its date-range
    mode by [handleFetchDateRange]. The backend is modelled from the output
    of the extractor on: the address and the arguments it is started with go
    through [net/url] and the operating system and are left out, and so is
    the JSON decoder, which the functions take as a parameter. Identifiers
    drawn at random and the clock are inputs of the handlers that use
    them. *)

From Stdlib Require Import ZArith Ascii String.
From stdpp Require Import base gmap strings list.

(* ===================================================================== *)
(** * Part I: definitions                                                  *)
(* ===================================================================== *)

(** ** Package [strings] (Go) and the string methods of JavaScript *)

Module Str.

Definition isUpper (c : ascii) : bool :=
  ((65 <=? N_of_ascii c) && (N_of_ascii c <=? 90))%N.

Definition lowerByte (c : ascii) : ascii :=
  if isUpper c then ascii_of_N (N_of_ascii c + 32) else c.

(** [strings.ToLower] / [String.prototype.toLowerCase], on ASCII text (see
    [isASCII] below): the letters A to Z are lowered, every other byte is
    kept. *)
Fixpoint ToLower (s : string) : string :=
  match s with
  | EmptyString => EmptyString
  | String c s' => String (lowerByte c) (ToLower s')
  end.

(** The white space of [strings.TrimSpace] below U+0080:
    tab, line feed, vertical tab, form feed, carriage return, space. *)
Definition isSpace (c : ascii) : bool :=
  match N_of_ascii c with
  | 9%N | 10%N | 11%N | 12%N | 13%N | 32%N => true
  | _ => false
  end.

Fixpoint TrimLeft (s : string) : string :=
  match s with
  | EmptyString => EmptyString
  | String c s' => if isSpace c then TrimLeft s' else s
  end.

Fixpoint TrimRight (s : string) : string :=
  match s with
  | EmptyString => EmptyString
  | String c s' =>
      match TrimRight s' with
      | EmptyString => if isSpace c then EmptyString else String c EmptyString
      | t => String c t
      end
  end.

(** [strings.TrimSpace] / [String.prototype.trim], on ASCII text (see
    [isASCII] below): the white space removed is that of [isSpace]. *)
Definition TrimSpace (s : string) : string := TrimRight (TrimLeft s).

(** [strings.HasPrefix s p] *)
Definition HasPrefix (s p : string) : bool := String.prefix p s.

(** [strings.Contains] / [String.prototype.includes] *)
Fixpoint Contains (s sub : string) : bool :=
  HasPrefix s sub ||
  match s with
  | EmptyString => false
  | String _ s' => Contains s' sub
  end.

(** [strings.Index]: the byte offset of the first occurrence, [-1] if none. *)
Fixpoint Index (s sub : string) : Z :=
  if HasPrefix s sub then 0%Z
  else match s with
       | EmptyString => (-1)%Z
       | String _ s' =>
           let i := Index s' sub in
           if (i <? 0)%Z then (-1)%Z else (1 + i)%Z
       end.

(** The slice expression [s[lo:hi]]. *)
Definition slice (s : string) (lo hi : nat) : string :=
  String.substring lo (hi - lo) s.

(** [s[n:]] *)
Fixpoint from (n : nat) (s : string) : string :=
  match n, s with
  | O, _ => s
  | S n', String _ s' => from n' s'
  | S _, EmptyString => EmptyString
  end.

(** [strings.Split s sep] for a separator of one byte. *)
Fixpoint Split (s : string) (sep : ascii) : list string :=
  match s with
  | EmptyString => [EmptyString]
  | String c s' =>
      if Ascii.eqb c sep then EmptyString :: Split s' sep
      else match Split s' sep with
           | line :: rest => String c line :: rest
           | [] => [String c EmptyString]
           end
  end.

Definition newline : ascii := ascii_of_N 10.

(** [strings.TrimPrefix s p] *)
Definition TrimPrefix (s p : string) : string :=
  if HasPrefix s p then from (String.length p) s else s.

(** ASCII text: every byte is below U+0080. On such text [ToLower] and
    [TrimSpace] above are the functions of the libraries: [strings.ToLower]
    and [toLowerCase] change the letters A to Z only, [strings.TrimSpace] and
    [trim] remove the six characters of [isSpace] only. Beyond ASCII the
    libraries also lower other letters (U+0130 to [i], U+212A to [k]) and
    trim other white space (U+00A0 in both, U+0085 in Go, U+FEFF in
    JavaScript), which the helpers do not follow. A property that rests on
    letter case or on white space is therefore stated for ASCII text. *)
Definition isASCIIByte (c : ascii) : bool := (N_of_ascii c <? 128)%N.

Fixpoint isASCII (s : string) : bool :=
  match s with
  | EmptyString => true
  | String c s' => isASCIIByte c && isASCII s'
  end.

End Str.

(** ** [backend/twitter.go] *)

Module Backend.
Import Str.

(** The loop of [parseExtractorError] over the lines of the output: the
    first line that mentions an error, trimmed; the empty string when there is none. *)
Definition mentionsError (line : string) : bool :=
  let lineLower := ToLower line in
  Contains lineLower "error:" || Contains lineLower "exception".

Fixpoint firstErrorLine (lines : list string) : string :=
  match lines with
  | [] => EmptyString
  | line :: rest =>
      if mentionsError line then TrimSpace line else firstErrorLine rest
  end.

Definition errorLineOf (output : string) : string :=
  let errorLine := firstErrorLine (Split output newline) in
  if String.eqb errorLine EmptyString then TrimSpace output else errorLine.

(** [if len(errorLine) > 300 { errorLine = errorLine[:300] + "..." }] *)
Definition truncateLine (errorLine : string) : string :=
  if (300 <? String.length errorLine)%nat
  then slice errorLine 0 300 +:+ "..."
  else errorLine.

Definition hintOf (output username : string) : string :=
  let outputLower := ToLower output in
  if Contains outputLower "unable to retrieve tweets from this timeline" then
    " [Hint: End of timeline reached or rate limited - data already fetched has been saved]"
  else if Contains outputLower "rate limit" || Contains output "429" then
    " [Hint: Wait 5-15 minutes before retrying]"
  else if Contains output "401" || Contains outputLower "unauthorized" then
    " [Hint: Auth token may be invalid or expired]"
  else if Contains output "404" then
    " [Hint: @" +:+ username +:+ " may not exist or is suspended]"
  else if Contains outputLower "protected" || Contains output "403" then
    " [Hint: Protected account - need to follow and use auth token]"
  else EmptyString.

Definition parseExtractorError (output username : string) : string :=
  truncateLine (errorLineOf output) +:+ hintOf output username.

(** The [for i := start; i < len(output); i++] loop of [extractJSON]:
    [rest] is [output[i:]]; the result is the index of the brace that
    brings [depth] back to zero. *)
Fixpoint closingBrace (rest : string) (i : nat) (depth : Z) : option nat :=
  match rest with
  | EmptyString => None
  | String c rest' =>
      if Ascii.eqb c "{" then closingBrace rest' (S i) (depth + 1)
      else if Ascii.eqb c "}" then
        if (depth - 1 =? 0)%Z then Some i
        else closingBrace rest' (S i) (depth - 1)
      else closingBrace rest' (S i) depth
  end.

Definition extractJSON (output : string) : string :=
  let start := Index output "{" in
  if (start =? -1)%Z then EmptyString
  else
    match closingBrace (from (Z.to_nat start) output) (Z.to_nat start) 0 with
    | Some i => slice output (Z.to_nat start) (i + 1)
    | None => EmptyString
    end.

(** *** Records exchanged with the frontend *)

Record TimelineEntry := {
  url : string;
  date : string;
  tweet_id : Z;                 (* TweetIDString, an int64 *)
  type : string;
  is_retweet : bool;
  extension : string;
  width : Z;
  height : Z;
  content : string;
  view_count : Z;
  bookmark_count : Z;
  favorite_count : Z;
  retweet_count : Z;
  reply_count : Z;
  source : string;
  verified : bool;
  original_filename : string;
  author_username : string
}.

Record AccountInfo := {
  name : string;
  nick : string;
  account_date : string;
  followers_count : Z;
  friends_count : Z;
  profile_image : string;
  statuses_count : Z
}.

Record ExtractMetadata := {
  NewEntries : nat;
  Page : Z;
  BatchSize : Z;
  HasMore : bool;
  MetaCursor : string;
  MetaCompleted : bool
}.

Record TwitterResponse := {
  AccountInfo_ : AccountInfo;
  TotalURLs : nat;
  Timeline : list TimelineEntry;
  Metadata : ExtractMetadata;
  Cursor : string;
  Completed : bool
}.

Record TimelineRequest := {
  Username : string;
  AuthToken : string;
  TimelineType : string;
  ReqBatchSize : Z;
  ReqPage : Z;
  MediaType : string;
  Retweets : bool;
  ReqCursor : string
}.

(** What [json.Unmarshal] leaves in a [CLIResponse], as far as the
    pagination is concerned; [Items] stands for its media and metadata. *)
Record CLIResponse (Items : Type) := {
  Payload : Items;
  CliCursor : string;
  CliCompleted : bool
}.
Arguments Payload {Items}.
Arguments CliCursor {Items}.
Arguments CliCompleted {Items}.

(** What running the extractor produced: [cmd.CombinedOutput()]. *)
Record Execution := {
  failed : bool;          (* err != nil *)
  output : string
}.

Definition emptyResponse : string :=
  "empty_response: Extractor returned no data. The timeline may be empty or inaccessible".

Definition parseError (outputStr : string) : string :=
  "parse_error: Could not parse extractor output. Raw output: " +:+ outputStr.

Section ExtractTimeline.
(** The collaborators [ExtractTimeline] calls: the JSON decoder and the
    conversion of the decoded items to timeline entries and account
    information (lines 631-740). *)
Context {Items : Type}.
Variable unmarshal : string -> string + CLIResponse Items.
Variable convert : TimelineRequest -> Items -> AccountInfo * list TimelineEntry.

Definition ExtractTimeline (ensureExtractor : string + string)
    (req : TimelineRequest) (run : Execution) : string + TwitterResponse :=
  match ensureExtractor with
  | inl err => inl err
  | inr _exePath =>
      if failed run then
        inl (parseExtractorError (output run) (Username req))
      else
        let jsonStr := extractJSON (output run) in
        if String.eqb jsonStr EmptyString then
          if String.eqb (TrimSpace (output run)) EmptyString then
            inl emptyResponse
          else
            inl (parseError (output run))
        else
          match unmarshal jsonStr with
          | inl err => inl ("json_error: Failed to parse JSON response: " +:+ err)
          | inr cliResponse =>
              let '(accountInfo, timeline) := convert req (Payload cliResponse) in
              let hasMore :=
                negb (String.eqb (CliCursor cliResponse) EmptyString)
                && negb (CliCompleted cliResponse) in
              inr {| AccountInfo_ := accountInfo;
                     TotalURLs := length timeline;
                     Timeline := timeline;
                     Metadata := {| NewEntries := length timeline;
                                    Page := ReqPage req;
                                    BatchSize := ReqBatchSize req;
                                    HasMore := hasMore;
                                    MetaCursor := CliCursor cliResponse;
                                    MetaCompleted := CliCompleted cliResponse |};
                     Cursor := CliCursor cliResponse;
                     Completed := CliCompleted cliResponse |}
          end
  end.
End ExtractTimeline.

(** *** What [json.Unmarshal] finds in the output of the extractor *)

Record Author := {
  author_ID : Z;
  author_Name : string;
  author_Nick : string
}.

Record UserInfo := {
  user_ID : Z;
  user_Name : string;
  user_Nick : string;
  user_Location : string;
  user_Date : string;
  user_Verified : bool;
  user_Protected : bool;
  user_ProfileBanner : string;
  user_ProfileImage : string;
  user_FavouritesCount : Z;
  user_FollowersCount : Z;
  user_FriendsCount : Z;
  user_ListedCount : Z;
  user_MediaCount : Z;
  user_StatusesCount : Z;
  user_Description : string;
  user_URL : string
}.

(** [Duration], a [float64] that no conversion reads, is left out. *)
Record CLIMediaItem := {
  media_URL : string;
  media_TweetID : Z;
  media_RetweetID : Z;
  media_QuoteID : Z;
  media_ReplyID : Z;
  media_ConversationID : Z;
  media_Date : string;
  media_Extension : string;
  media_Width : Z;
  media_Height : Z;
  media_Type : string;
  media_Bitrate : Z;
  media_Author : UserInfo;
  media_User : UserInfo;
  media_Content : string;
  media_FavoriteCount : Z;
  media_RetweetCount : Z;
  media_ReplyCount : Z;
  media_QuoteCount : Z;
  media_BookmarkCount : Z;
  media_ViewCount : Z;
  media_Source : string;
  media_Sensitive : bool
}.

Record TweetMetadata := {
  meta_TweetID : Z;
  meta_RetweetID : Z;
  meta_QuoteID : Z;
  meta_ReplyID : Z;
  meta_ConversationID : Z;
  meta_Date : string;
  meta_Author : Author;
  meta_Content : string;
  meta_Lang : string;
  meta_Hashtags : list string;
  meta_FavoriteCount : Z;
  meta_RetweetCount : Z;
  meta_QuoteCount : Z;
  meta_ReplyCount : Z;
  meta_BookmarkCount : Z;
  meta_ViewCount : Z;
  meta_Sensitive : bool
}.

(** The [Media] and [Metadata] of a [CLIResponse]. *)
Record CLIItems := {
  cli_Media : list CLIMediaItem;
  cli_Metadata : list TweetMetadata
}.

Definition convertMetadataToTimelineEntry (meta : TweetMetadata) : TimelineEntry :=
  {| url := EmptyString;
     date := meta_Date meta;
     tweet_id := meta_TweetID meta;
     type := "text";
     is_retweet := negb (meta_RetweetID meta =? 0)%Z;
     extension := "txt";
     width := 0;
     height := 0;
     content := meta_Content meta;
     view_count := meta_ViewCount meta;
     bookmark_count := meta_BookmarkCount meta;
     favorite_count := meta_FavoriteCount meta;
     retweet_count := meta_RetweetCount meta;
     reply_count := meta_ReplyCount meta;
     source := EmptyString;
     verified := false;
     original_filename := EmptyString;
     author_username := author_Name (meta_Author meta) |}.

(** "Determine type" of [convertToTimelineEntry]: the type the CLI gave,
    or else a type by the extension. *)
Definition typeOf (media : CLIMediaItem) : string :=
  if negb (String.eqb (media_Type media) EmptyString) then media_Type media
  else
    let ext := ToLower (media_Extension media) in
    if String.eqb ext "mp4" || String.eqb ext "webm" then "video"
    else if String.eqb ext "gif" then "gif"
    else "photo".

Definition convertToTimelineEntry (media : CLIMediaItem) : TimelineEntry :=
  let authorUsername :=
    if negb (String.eqb (user_Name (media_Author media)) EmptyString)
    then user_Name (media_Author media)
    else if negb (String.eqb (user_Name (media_User media)) EmptyString)
    then user_Name (media_User media)
    else EmptyString in
  {| url := media_URL media;
     date := media_Date media;
     tweet_id := media_TweetID media;
     type := typeOf media;
     is_retweet := negb (media_RetweetID media =? 0)%Z;
     extension := media_Extension media;
     width := media_Width media;
     height := media_Height media;
     content := media_Content media;
     view_count := media_ViewCount media;
     bookmark_count := media_BookmarkCount media;
     favorite_count := media_FavoriteCount media;
     retweet_count := media_RetweetCount media;
     reply_count := media_ReplyCount media;
     source := media_Source media;
     verified := user_Verified (media_Author media);
     original_filename := EmptyString;
     author_username := authorUsername |}.

(** [mediaTweetIDs]: the tweet ids that have media. *)
Definition mediaTweetIDs (media : list CLIMediaItem) : gset Z :=
  list_to_set (media_TweetID <$> media).

(** The metadata of the tweets without media, converted (the loop of the
    text-only mode). *)
Definition textEntries (cli : CLIItems) : list TimelineEntry :=
  convertMetadataToTimelineEntry
    <$> filter (λ meta, meta_TweetID meta ∉ mediaTweetIDs (cli_Media cli))
               (cli_Metadata cli).

(** [accountInfo.Name = ..; accountInfo.Nick = ..] *)
Definition named (newName newNick : string) (info : AccountInfo) : AccountInfo :=
  {| name := newName;
     nick := newNick;
     account_date := account_date info;
     followers_count := followers_count info;
     friends_count := friends_count info;
     profile_image := profile_image info;
     statuses_count := statuses_count info |}.

(** [accountInfo.Date = user.Date; ..; accountInfo.StatusesCount = user.StatusesCount] *)
Definition detailed (user : UserInfo) (info : AccountInfo) : AccountInfo :=
  {| name := name info;
     nick := nick info;
     account_date := user_Date user;
     followers_count := user_FollowersCount user;
     friends_count := user_FriendsCount user;
     profile_image := user_ProfileImage user;
     statuses_count := user_StatusesCount user |}.

(** [AccountInfo{Name: req.Username, Nick: req.Username}] *)
Definition accountOf (username : string) : AccountInfo :=
  {| name := username;
     nick := username;
     account_date := EmptyString;
     followers_count := 0;
     friends_count := 0;
     profile_image := EmptyString;
     statuses_count := 0 |}.

(** The entry the fall-back of [ExtractTimeline] builds in place from the
    metadata of a tweet (lines 715-731). *)
Definition fallbackEntry (meta : TweetMetadata) : TimelineEntry :=
  {| url := EmptyString;
     date := meta_Date meta;
     tweet_id := meta_TweetID meta;
     type := "text";
     is_retweet := negb (meta_RetweetID meta =? 0)%Z;
     extension := "txt";
     width := 0;
     height := 0;
     content := meta_Content meta;
     view_count := meta_ViewCount meta;
     bookmark_count := meta_BookmarkCount meta;
     favorite_count := meta_FavoriteCount meta;
     retweet_count := meta_RetweetCount meta;
     reply_count := meta_ReplyCount meta;
     source := EmptyString;
     verified := false;
     original_filename := EmptyString;
     author_username := author_Name (meta_Author meta) |}.

(** "Convert to frontend format" in [ExtractTimeline] (lines 631-740): the
    account information and the timeline of a decoded response. *)
Definition toFrontend (req : TimelineRequest) (cli : CLIItems)
    : AccountInfo * list TimelineEntry :=
  let isTextOnly := String.eqb (MediaType req) "text" in
  let isBookmarks := String.eqb (TimelineType req) "bookmarks" in
  let isLikes := String.eqb (TimelineType req) "likes" in
  let accountInfo := accountOf (Username req) in
  let accountInfo :=
    if isBookmarks then named "bookmarks" "My Bookmarks" accountInfo
    else if isLikes then named "likes" "My Likes" accountInfo
    else accountInfo in
  if isTextOnly then
    let timeline := textEntries cli in
    let accountInfo :=
      if negb isBookmarks && negb isLikes then
        match cli_Media cli, cli_Metadata cli with
        | first :: _, _ =>
            let user := media_User first in
            detailed user (named (user_Name user) (user_Nick user) accountInfo)
        | [], firstMeta :: _ =>
            named (author_Name (meta_Author firstMeta))
                  (author_Nick (meta_Author firstMeta)) accountInfo
        | [], [] => accountInfo
        end
      else
        match cli_Media cli with
        | first :: _ => detailed (media_User first) accountInfo
        | [] => accountInfo
        end in
    (accountInfo, timeline)
  else
    match cli_Media cli, cli_Metadata cli with
    | first :: _, _ =>
        let timeline := convertToTimelineEntry <$> cli_Media cli in
        let user := media_User first in
        let accountInfo :=
          if negb isBookmarks && negb isLikes
          then named (user_Name user) (user_Nick user) accountInfo
          else accountInfo in
        (detailed user accountInfo, timeline)
    | [], firstMeta :: _ =>
        let timeline := fallbackEntry <$> cli_Metadata cli in
        let accountInfo :=
          if negb isBookmarks && negb isLikes
          then named (author_Name (meta_Author firstMeta))
                     (author_Nick (meta_Author firstMeta)) accountInfo
          else accountInfo in
        (accountInfo, timeline)
    | [], [] => (accountInfo, [])
    end.

(** [var timeline []TimelineEntry] (line 632) stays nil when the conversion
    never makes the slice: outside the text mode, with neither media nor
    metadata. A nil slice is marshalled as [null], an empty one as [[]]; the
    list [Timeline] of a response is empty for both. *)
Definition nilTimeline (req : TimelineRequest) (cli : CLIItems) : bool :=
  negb (String.eqb (MediaType req) "text")
  && match cli_Media cli, cli_Metadata cli with
     | [], [] => true
     | _, _ => false
     end.

(** *** [ensureURLScheme] *)

Definition ensureURLScheme (raw : string) : string :=
  let raw := TrimSpace raw in
  if String.eqb raw EmptyString then raw
  else if HasPrefix raw "http://" || HasPrefix raw "https://" then raw
  else if HasPrefix raw "//" then "https:" +:+ raw
  else "https://" +:+ TrimPrefix raw "//".

(** *** [ExtractDateRange] *)

Record DateRangeRequest := {
  dr_Username : string;
  dr_AuthToken : string;
  StartDate : string;
  EndDate : string;
  MediaFilter : string;
  dr_Retweets : bool
}.

(** "Convert to frontend format" in [ExtractDateRange] (lines 835-872). *)
Definition dateRangeToFrontend (req : DateRangeRequest) (cli : CLIItems)
    : AccountInfo * list TimelineEntry :=
  let mediaFilter := ToLower (TrimSpace (MediaFilter req)) in
  let isTextOnly := String.eqb mediaFilter "text" in
  let timeline := convertToTimelineEntry <$> cli_Media cli in
  let timeline := if isTextOnly then timeline ++ textEntries cli else timeline in
  let accountInfo := accountOf (dr_Username req) in
  let accountInfo :=
    match cli_Media cli, cli_Metadata cli with
    | first :: _, _ =>
        let user := media_User first in
        detailed user (named (user_Name user) (user_Nick user) accountInfo)
    | [], firstMeta :: _ =>
        named (author_Name (meta_Author firstMeta))
              (author_Nick (meta_Author firstMeta)) accountInfo
    | [], [] => accountInfo
    end in
  (accountInfo, timeline).

Section ExtractDateRange.
Variable unmarshal : string -> string + CLIResponse CLIItems.

Definition ExtractDateRange (ensureExtractor : string + string)
    (req : DateRangeRequest) (run : Execution) : string + TwitterResponse :=
  match ensureExtractor with
  | inl err => inl err
  | inr _exePath =>
      if failed run then
        inl (parseExtractorError (output run) (dr_Username req))
      else
        let jsonStr := extractJSON (output run) in
        if String.eqb jsonStr EmptyString then
          if String.eqb (TrimSpace (output run)) EmptyString then
            inl emptyResponse
          else
            inl (parseError (output run))
        else
          match unmarshal jsonStr with
          | inl err => inl ("json_error: Failed to parse JSON response: " +:+ err)
          | inr cliResponse =>
              let '(accountInfo, timeline) :=
                dateRangeToFrontend req (Payload cliResponse) in
              let hasMore :=
                negb (String.eqb (CliCursor cliResponse) EmptyString)
                && negb (CliCompleted cliResponse) in
              inr {| AccountInfo_ := accountInfo;
                     TotalURLs := length timeline;
                     Timeline := timeline;
                     Metadata := {| NewEntries := length timeline;
                                    Page := 0;
                                    BatchSize := 0;
                                    HasMore := hasMore;
                                    MetaCursor := CliCursor cliResponse;
                                    MetaCompleted := CliCompleted cliResponse |};
                     Cursor := CliCursor cliResponse;
                     Completed := CliCompleted cliResponse |}
          end
  end.
End ExtractDateRange.

End Backend.

(** ** [frontend/src/App.tsx] *)

Module Frontend.
Import Str.

Abbreviation TimelineEntry := Backend.TimelineEntry.
Abbreviation AccountInfo := Backend.AccountInfo.

(** *** Values as JavaScript sees them *)

(** [!!s] for an optional string: [undefined] and the empty string are falsy. *)
Definition truthy (s : option string) : bool :=
  match s with
  | Some s => negb (String.eqb s EmptyString)
  | None => false
  end.

(** [!!b] for an optional boolean. *)
Definition isTrue (b : option bool) : bool := default false b.

(** [s || d] *)
Definition orElse (s : option string) (d : string) : string :=
  if truthy s then default d s else d.

(** The response of [ExtractTimeline] after [JSON.parse]: [cursor] and
    [completed] are optional ([omitempty] on the Go side). *)
Record TwitterResponse := {
  account_info : option AccountInfo;
  timeline : list TimelineEntry;
  cursor : option string;
  completed : option bool
}.

(** What [JSON.parse(response)] returns: the fields of a [TwitterResponse],
    whose [timeline] the handlers take for an array, and whether it is
    [null] instead ([timeline body] is then left empty). *)
Record Parsed := {
  body : TwitterResponse;
  timelineIsNull : bool
}.

(** The JSON a [Backend.TwitterResponse] travels in, read back by
    [JSON.parse]: fields tagged [omitempty] are absent when empty or false,
    and [timeline], which has no such tag, is [null] when the slice of the
    backend is nil; [isNil] tells it (see [Backend.nilTimeline]). *)
Definition ofBackend (isNil : bool) (r : Backend.TwitterResponse) : Parsed :=
  {| body :=
       {| account_info := Some (Backend.AccountInfo_ r);
          timeline := Backend.Timeline r;
          cursor := if String.eqb (Backend.Cursor r) EmptyString then None
                    else Some (Backend.Cursor r);
          completed := if Backend.Completed r then Some true else None |};
     timelineIsNull := isNil |}.

(** [hasMore = !!data.cursor && !data.completed] *)
Definition hasMoreOf (data : TwitterResponse) : bool :=
  truthy (cursor data) && negb (isTrue (completed data)).

Record TimelineRequest := {
  req_username : string;
  auth_token : string;
  timeline_type : string;
  batch_size : Z;
  req_page : Z;
  media_type : string;
  retweets : bool;
  req_cursor : option string
}.

(** The argument of [saveFetchState]. *)
Record FetchState := {
  username : string;
  fs_cursor : string;
  fs_timeline : list TimelineEntry;
  fs_accountInfo : option AccountInfo;
  totalFetched : nat;
  fs_completed : bool;
  authToken : string;
  mediaType : string;
  fs_retweets : bool;
  timelineType : string
}.

(** *** The Timeline Merge Engine *)

(** Modelled from the spec: [mergeTimelines] of [@/lib/fetch-state] is not
    among the sources. Section 4.1: the identity of an entry is its tweet
    id with its URL, and for a text-only entry its tweet id with the type
    ["text"]; [merge] builds the identity set of [existing] and appends
    each [incoming] entry not already present, in [incoming]'s order. *)
Definition identity (e : TimelineEntry) : Z * string :=
  if String.eqb (Backend.type e) "text" then (Backend.tweet_id e, "text")
  else (Backend.tweet_id e, Backend.url e).

Definition identitySet (existing : list TimelineEntry) : gset (Z * string) :=
  list_to_set (identity <$> existing).

Definition mergeTimelines (existing incoming : list TimelineEntry)
  : list TimelineEntry :=
  let seen := identitySet existing in
  existing ++ filter (λ e, identity e ∉ seen) incoming.

(** *** What the handlers do to the world *)

Inductive Event :=
| EvCall (req : TimelineRequest)           (* await ExtractTimeline(req) *)
| EvMerge (merged : list TimelineEntry)    (* allTimeline = mergeTimelines(..) *)
| EvSaveState (st : FetchState)            (* saveFetchState(st) *)
| EvClearState (key : string)              (* clearFetchState(key) *)
| EvSaveCursor (key c : string)            (* saveCursor(key, c) *)
| EvClearCursor (key : string)             (* clearCursor(key) *)
| EvPersist (name : string) (total : nat) (c : string) (done : bool).
                                           (* SaveAccountToDBWithStatus(..) *)

(** The checkpoint store, the refs of the component and the clock.

    Modelled from the spec: the store of [@/lib/fetch-state] is not among
    the sources. Section 4.2: a key-value store keyed by account identity
    holding the full Session ([fetchStates]), and a separate slot with the
    last cursor per account ([cursors]). *)
Record World := mkWorld {
  fetchStates : gmap string FetchState;
  cursors : gmap string string;
  trace : list Event;
  now : Z;                                   (* Date.now(), milliseconds *)
  stopFetchRef : bool;
  fetchStartTimeRef : option Z;
  stopAllRef : bool;
  accountStopFlagsRef : gmap string bool;
  accountMediaCountRef : gmap string nat
}.

Definition emit (e : Event) (w : World) : World :=
  mkWorld (fetchStates w) (cursors w) (trace w ++ [e]) (now w)
          (stopFetchRef w) (fetchStartTimeRef w) (stopAllRef w)
          (accountStopFlagsRef w) (accountMediaCountRef w).

Definition withFetchStates (f : gmap string FetchState) (w : World) : World :=
  mkWorld f (cursors w) (trace w) (now w)
          (stopFetchRef w) (fetchStartTimeRef w) (stopAllRef w)
          (accountStopFlagsRef w) (accountMediaCountRef w).

Definition withCursors (c : gmap string string) (w : World) : World :=
  mkWorld (fetchStates w) c (trace w) (now w)
          (stopFetchRef w) (fetchStartTimeRef w) (stopAllRef w)
          (accountStopFlagsRef w) (accountMediaCountRef w).

Definition withNow (t : Z) (w : World) : World :=
  mkWorld (fetchStates w) (cursors w) (trace w) t
          (stopFetchRef w) (fetchStartTimeRef w) (stopAllRef w)
          (accountStopFlagsRef w) (accountMediaCountRef w).

Definition withStopFetch (b : bool) (w : World) : World :=
  mkWorld (fetchStates w) (cursors w) (trace w) (now w)
          b (fetchStartTimeRef w) (stopAllRef w)
          (accountStopFlagsRef w) (accountMediaCountRef w).

Definition withFetchStartTime (t : option Z) (w : World) : World :=
  mkWorld (fetchStates w) (cursors w) (trace w) (now w)
          (stopFetchRef w) t (stopAllRef w)
          (accountStopFlagsRef w) (accountMediaCountRef w).

Definition withStopAll (b : bool) (w : World) : World :=
  mkWorld (fetchStates w) (cursors w) (trace w) (now w)
          (stopFetchRef w) (fetchStartTimeRef w) b
          (accountStopFlagsRef w) (accountMediaCountRef w).

Definition withAccountStopFlags (m : gmap string bool) (w : World) : World :=
  mkWorld (fetchStates w) (cursors w) (trace w) (now w)
          (stopFetchRef w) (fetchStartTimeRef w) (stopAllRef w)
          m (accountMediaCountRef w).

Definition withAccountMediaCount (m : gmap string nat) (w : World) : World :=
  mkWorld (fetchStates w) (cursors w) (trace w) (now w)
          (stopFetchRef w) (fetchStartTimeRef w) (stopAllRef w)
          (accountStopFlagsRef w) m.

(** The store operations of [@/lib/fetch-state] (section 4.2 of the spec). *)
Definition saveFetchState (st : FetchState) (w : World) : World :=
  emit (EvSaveState st) (withFetchStates (<[username st := st]> (fetchStates w)) w).

Definition getFetchState (key : string) (w : World) : option FetchState :=
  fetchStates w !! key.

Definition clearFetchState (key : string) (w : World) : World :=
  emit (EvClearState key) (withFetchStates (delete key (fetchStates w)) w).

Definition saveCursor (key c : string) (w : World) : World :=
  emit (EvSaveCursor key c) (withCursors (<[key := c]> (cursors w)) w).

Definition getCursor (key : string) (w : World) : option string :=
  cursors w !! key.

Definition clearCursor (key : string) (w : World) : World :=
  emit (EvClearCursor key) (withCursors (delete key (cursors w)) w).

(** [await SaveAccountToDBWithStatus(..)]: best effort, failures are logged. *)
Definition SaveAccountToDBWithStatus (info : AccountInfo) (total : nat)
    (c : string) (done : bool) (w : World) : World :=
  emit (EvPersist (Backend.name info) total c done) w.

(** *** Settings, the clock and the Extraction Process Adapter *)

Record Settings := {
  fetchTimeout : Z;
  fetchMode : string
}.

(** [settings.fetchTimeout || 60] *)
Definition timeoutSeconds (settings : Settings) : Z :=
  if (fetchTimeout settings =? 0)%Z then 60%Z else fetchTimeout settings.

Definition BATCH_SIZE : Z := 200.

(** [isSingleMode ? 0 : BATCH_SIZE] *)
Definition batchSizeOf (settings : Settings) : Z :=
  if String.eqb (fetchMode settings) "single" then 0%Z else BATCH_SIZE.

(** [Math.floor((Date.now() - start) / 1000)] *)
Definition elapsedSince (start : Z) (w : World) : Z := ((now w - start) / 1000)%Z.

(** One [await ExtractTimeline(..)] as the handler observes it: how long it
    was away (up to the next test of the loop), whether the stop flag of the
    running fetch ([stopFetchRef], or [accountStopFlagsRef] of the account)
    or [stopAllRef] was raised meanwhile by the user or by the timer tick,
    and what the call threw or returned. The adapter is a script of such
    steps; a call past the end of the script throws, as any call may. *)
Record AdapterStep := {
  took : Z;
  raisedStop : bool;
  raisedStopAll : bool;
  reply : string + TwitterResponse
}.

Definition scriptExhausted : string := "ExtractTimeline: no response".

(** The local variables of the three batch loops. *)
Record Locals := {
  cur : option string;                 (* cursor *)
  allTimeline : list TimelineEntry;
  accountInfo : option AccountInfo;
  hasMore : bool;
  page : Z
}.

(** *** [handleFetch], timeline mode *)

Inductive FetchMode := public | private.
Inductive PrivateType := bookmarks | likes.

Record FetchArgs := {
  arg_username : string;               (* the [username] state *)
  arg_mediaType : option string;
  arg_retweets : option bool;
  arg_mode : FetchMode;
  arg_privateType : option PrivateType;
  arg_authToken : option string;
  arg_isResume : bool
}.

(** What the loop of [handleFetch] reads from its closure. *)
Record FetchCtx := {
  cleanUsername : string;
  requestUsername : string;            (* isBookmarks ? "" : username.trim() *)
  ctx_authToken : string;              (* authToken.trim() *)
  ctx_mediaType : string;              (* mediaType || "all" *)
  ctx_retweets : bool;                 (* retweets || false *)
  ctx_timelineType : string;
  isBookmarks : bool;
  isLikes : bool;
  batchSize : Z;
  ctx_timeout : Z                      (* settings.fetchTimeout || 60 *)
}.

Definition isBookmarksOf (a : FetchArgs) : bool :=
  match arg_mode a, arg_privateType a with
  | private, Some bookmarks => true
  | _, _ => false
  end.

Definition isLikesOf (a : FetchArgs) : bool :=
  match arg_mode a, arg_privateType a with
  | private, Some likes => true
  | _, _ => false
  end.

Definition contextOf (settings : Settings) (a : FetchArgs) : FetchCtx :=
  {| cleanUsername := if isBookmarksOf a then "bookmarks"
                      else if isLikesOf a then "likes"
                      else TrimSpace (arg_username a);
     requestUsername := if isBookmarksOf a then EmptyString
                        else TrimSpace (arg_username a);
     ctx_authToken := TrimSpace (default EmptyString (arg_authToken a));
     ctx_mediaType := orElse (arg_mediaType a) "all";
     ctx_retweets := isTrue (arg_retweets a);
     ctx_timelineType := if isBookmarksOf a then "bookmarks"
                         else if isLikesOf a then "likes"
                         else "timeline";
     isBookmarks := isBookmarksOf a;
     isLikes := isLikesOf a;
     batchSize := batchSizeOf settings;
     ctx_timeout := timeoutSeconds settings |}.

Definition requestOf (c : FetchCtx) (l : Locals) : TimelineRequest :=
  {| req_username := requestUsername c;
     auth_token := ctx_authToken c;
     timeline_type := ctx_timelineType c;
     batch_size := batchSize c;
     req_page := page l;
     media_type := ctx_mediaType c;
     retweets := ctx_retweets c;
     req_cursor := cur l |}.

(** The object literal passed to [saveFetchState]. *)
Definition snapshot (c : FetchCtx) (l : Locals) (done : bool) : FetchState :=
  {| username := cleanUsername c;
     fs_cursor := orElse (cur l) EmptyString;
     fs_timeline := allTimeline l;
     fs_accountInfo := accountInfo l;
     totalFetched := length (allTimeline l);
     fs_completed := done;
     authToken := ctx_authToken c;
     mediaType := ctx_mediaType c;
     fs_retweets := ctx_retweets c;
     timelineType := ctx_timelineType c |}.

Definition rename (newName newNick : string) (info : AccountInfo) : AccountInfo :=
  {| Backend.name := newName;
     Backend.nick := newNick;
     Backend.account_date := Backend.account_date info;
     Backend.followers_count := Backend.followers_count info;
     Backend.friends_count := Backend.friends_count info;
     Backend.profile_image := Backend.profile_image info;
     Backend.statuses_count := Backend.statuses_count info |}.

(** [if (!accountInfo && data.account_info) { accountInfo = data.account_info; .. }] *)
Definition adoptAccountInfo (c : FetchCtx) (known : option AccountInfo)
    (data : TwitterResponse) : option AccountInfo :=
  match known, account_info data with
  | None, Some info =>
      Some (if isBookmarks c then rename "bookmarks" "My Bookmarks" info
            else if isLikes c then rename "likes" "My Likes" info
            else info)
  | _, _ => known
  end.

(** [elapsed >= timeoutSeconds], under [fetchStartTimeRef.current !== null] *)
Definition timeoutReached (c : FetchCtx) (w : World) : bool :=
  match fetchStartTimeRef w with
  | Some start => (ctx_timeout c <=? elapsedSince start w)%Z
  | None => false
  end.

Definition awaitFetch (step : AdapterStep) (w : World) : World :=
  withStopFetch (stopFetchRef w || raisedStop step)
                (withNow (now w + took step)%Z w).

(** The state saved when the timeout is found reached (lines 460-507). *)
Definition saveOnStop (c : FetchCtx) (l : Locals) (w : World) : World :=
  match accountInfo l with
  | Some info =>
      if (0 <? length (allTimeline l))%nat then
        SaveAccountToDBWithStatus info (length (allTimeline l))
          (orElse (cur l) EmptyString) false
          (saveFetchState (snapshot c l false) w)
      else w
  | None => w
  end.

(** The body of the loop after a batch arrived (lines 526-632). *)
Definition absorb (c : FetchCtx) (l : Locals) (data : TwitterResponse)
    (w : World) : Locals * World :=
  let info := adoptAccountInfo c (accountInfo l) data in
  let merged := mergeTimelines (allTimeline l) (timeline data) in
  let w := emit (EvMerge merged) w in
  let l' := {| cur := cursor data;
               allTimeline := merged;
               accountInfo := info;
               hasMore := hasMoreOf data;
               page := (page l + 1)%Z |} in
  let w := if truthy (cursor data)
           then saveCursor (cleanUsername c) (default EmptyString (cursor data)) w
           else w in
  let w := saveFetchState (snapshot c l' (negb (hasMore l'))) w in
  let w := match info with
           | Some i => SaveAccountToDBWithStatus i (length merged)
                         (orElse (cursor data) EmptyString) (negb (hasMore l')) w
           | None => w
           end in
  (l', w).

(** [while (hasMore && !stopFetchRef.current) { .. }]; the first component
    is the exception that left the loop, if any. *)
Fixpoint fetchLoop (c : FetchCtx) (script : list AdapterStep) (l : Locals)
    (w : World) : option string * Locals * World :=
  if hasMore l && negb (stopFetchRef w) then
    if timeoutReached c w then
      (None, l, saveOnStop c l (withStopFetch true w))
    else
      let w := emit (EvCall (requestOf c l)) w in
      match script with
      | [] => (Some scriptExhausted, l, w)
      | step :: script' =>
          let w := awaitFetch step w in
          match reply step with
          | inl err => (Some err, l, w)
          | inr data =>
              let '(l', w') := absorb c l data w in
              fetchLoop c script' l' w'
          end
      end
  else (None, l, w).

Record FinalData := {
  fd_account_info : AccountInfo;
  fd_timeline : list TimelineEntry;
  fd_cursor : option string;
  fd_completed : bool
}.

Inductive FetchResult :=
| Refused (toast : string)                (* returned before the loop *)
| Fetched (finalData : option FinalData)
| Threw (errorMsg : string).

(** Where the loop starts: the resumed checkpoint, or nothing after the
    stale checkpoint was cleared (lines 336-363). *)
Definition startOf (c : FetchCtx) (isResume : bool) (w : World)
    : option (Locals * World) :=
  if isResume then
    match getFetchState (cleanUsername c) w with
    | Some existingState =>
        if truthy (Some (fs_cursor existingState))
           && negb (fs_completed existingState)
        then Some ({| cur := Some (fs_cursor existingState);
                      allTimeline := fs_timeline existingState;
                      accountInfo := fs_accountInfo existingState;
                      hasMore := true;
                      page := 0 |}, w)
        else None
    | None => None
    end
  else
    Some ({| cur := None; allTimeline := []; accountInfo := None;
             hasMore := true; page := 0 |},
          clearFetchState (cleanUsername c) w).

(** Lines 635-696: what follows the loop when it ended without exception. *)
Definition afterLoop (c : FetchCtx) (l : Locals) (w : World)
    : option FinalData * World :=
  let w := if stopFetchRef w then w
           else clearCursor (cleanUsername c) (clearFetchState (cleanUsername c) w) in
  match accountInfo l with
  | Some info =>
      let finalData := {| fd_account_info := info;
                          fd_timeline := allTimeline l;
                          fd_cursor := cur l;
                          fd_completed := negb (stopFetchRef w) |} in
      (Some finalData,
       SaveAccountToDBWithStatus info (length (allTimeline l))
         (orElse (cur l) EmptyString) (negb (stopFetchRef w)) w)
  | None => (None, w)
  end.

(** [handleFetch] without a date range. [cleanupTook] is the time spent in
    [await CleanupExtractorProcesses()] after the start time was taken. The
    [catch] handler reads the checkpoint store and forwards what it finds to
    the database; it leaves the store as it is. *)
Definition handleFetch (settings : Settings) (loading : bool) (a : FetchArgs)
    (cleanupTook : Z) (script : list AdapterStep) (w : World)
    : FetchResult * World :=
  let c := contextOf settings a in
  if loading then (Refused "Fetch already in progress", w)
  else if negb (isBookmarksOf a) && String.eqb (TrimSpace (arg_username a)) EmptyString
  then (Refused "Please enter a username", w)
  else if String.eqb (ctx_authToken c) EmptyString
  then (Refused "Please enter your auth token", w)
  else
    let w := withStopFetch false w in
    let w := withFetchStartTime (Some (now w)) w in
    let w := withNow (now w + cleanupTook)%Z w in
    match startOf c (arg_isResume a) w with
    | None => (Refused "No resumable fetch found", w)
    | Some (l, w) =>
        match fetchLoop c script l w with
        | (Some errorMsg, _, w) => (Threw errorMsg, withFetchStartTime None w)
        | (None, l, w) =>
            let '(finalData, w) := afterLoop c l w in
            (Fetched finalData, withFetchStartTime None w)
        end
    end.

(** *** [handleFetch] on a response whose timeline is [null]

    The loops above take the batches of the adapter with their timeline an
    array. The backend also sends [null] (see [Backend.nilTimeline]); this
    is [handleFetch] over the responses as they are parsed. *)

Record WireStep := {
  wire_step : AdapterStep;       (* [timeline] of its batch empty when null *)
  wire_null : bool
}.

(** A script whose batches all carry an array. *)
Definition arrays (script : list AdapterStep) : list WireStep :=
  map (λ s, {| wire_step := s; wire_null := false |}) script.

Section NullTimeline.
(** The message of the [TypeError] that [data.timeline.length] raises on
    [null]; its wording is the engine's. *)
Variable nullLength : string.
(** Modelled from the spec: [mergeTimelines] of [@/lib/fetch-state] is not
    among the sources, and section 4.1 does not say what it makes of an
    [incoming] that is [null]: it throws (the message) or returns a
    timeline. *)
Variable mergeNull : list TimelineEntry -> string + list TimelineEntry.

(** The body of the loop after a response with a [null] timeline arrived
    (lines 526-598): what it throws, or the locals it goes on with. Once the
    account is known, [new_entries: data.timeline.length] (line 571) throws,
    after the lightweight cursor was saved and before the full state is. *)
Definition absorbNull (c : FetchCtx) (l : Locals) (data : TwitterResponse)
    (w : World) : string * World + Locals * World :=
  let info := adoptAccountInfo c (accountInfo l) data in
  match mergeNull (allTimeline l) with
  | inl err => inl (err, w)
  | inr merged =>
      let w := emit (EvMerge merged) w in
      let l' := {| cur := cursor data;
                   allTimeline := merged;
                   accountInfo := info;
                   hasMore := hasMoreOf data;
                   page := (page l + 1)%Z |} in
      let w := if truthy (cursor data)
               then saveCursor (cleanUsername c) (default EmptyString (cursor data)) w
               else w in
      match info with
      | Some _ => inl (nullLength, w)
      | None => inr (l', saveFetchState (snapshot c l' (negb (hasMore l'))) w)
      end
  end.

Fixpoint fetchLoopWire (c : FetchCtx) (script : list WireStep) (l : Locals)
    (w : World) : option string * Locals * World :=
  if hasMore l && negb (stopFetchRef w) then
    if timeoutReached c w then
      (None, l, saveOnStop c l (withStopFetch true w))
    else
      let w := emit (EvCall (requestOf c l)) w in
      match script with
      | [] => (Some scriptExhausted, l, w)
      | wired :: script' =>
          let w := awaitFetch (wire_step wired) w in
          match reply (wire_step wired) with
          | inl err => (Some err, l, w)
          | inr data =>
              if wire_null wired then
                match absorbNull c l data w with
                | inl (err, w') => (Some err, l, w')
                | inr (l', w') => fetchLoopWire c script' l' w'
                end
              else
                let '(l', w') := absorb c l data w in
                fetchLoopWire c script' l' w'
          end
      end
  else (None, l, w).

(** [handleFetch], as above, over the parsed responses. *)
Definition handleFetchWire (settings : Settings) (loading : bool) (a : FetchArgs)
    (cleanupTook : Z) (script : list WireStep) (w : World)
    : FetchResult * World :=
  let c := contextOf settings a in
  if loading then (Refused "Fetch already in progress", w)
  else if negb (isBookmarksOf a) && String.eqb (TrimSpace (arg_username a)) EmptyString
  then (Refused "Please enter a username", w)
  else if String.eqb (ctx_authToken c) EmptyString
  then (Refused "Please enter your auth token", w)
  else
    let w := withStopFetch false w in
    let w := withFetchStartTime (Some (now w)) w in
    let w := withNow (now w + cleanupTook)%Z w in
    match startOf c (arg_isResume a) w with
    | None => (Refused "No resumable fetch found", w)
    | Some (l, w) =>
        match fetchLoopWire c script l w with
        | (Some errorMsg, _, w) => (Threw errorMsg, withFetchStartTime None w)
        | (None, l, w) =>
            let '(finalData, w) := afterLoop c l w in
            (Fetched finalData, withFetchStartTime None w)
        end
    end.

End NullTimeline.

(** *** [handleFetchAll]: the multi-account scheduler *)

Inductive Status := Pending | Fetching | Completed | Incomplete | Failed.

Record MultipleAccount := {
  id : string;
  acc_username : string;
  status : Status;
  mediaCount : nat;
  previousMediaCount : nat;
  acc_cursor : option string;
  error : option string;
  acc_accountInfo : option AccountInfo
}.

(** [setMultipleAccounts(prev => prev.map(acc => acc.id === accountId ? f(acc) : acc))] *)
Definition setAccount (accountId : string) (f : MultipleAccount -> MultipleAccount)
    (prev : list MultipleAccount) : list MultipleAccount :=
  map (λ acc, if String.eqb (id acc) accountId then f acc else acc) prev.

Definition withStatus (s : Status) (acc : MultipleAccount) : MultipleAccount :=
  {| id := id acc; acc_username := acc_username acc; status := s;
     mediaCount := mediaCount acc; previousMediaCount := previousMediaCount acc;
     acc_cursor := acc_cursor acc; error := error acc;
     acc_accountInfo := acc_accountInfo acc |}.

(** The progress written after each batch (lines 1114-1128, 1559-1573). *)
Definition withProgress (info : option AccountInfo) (previous current : nat)
    (c : option string) (acc : MultipleAccount) : MultipleAccount :=
  {| id := id acc; acc_username := acc_username acc; status := status acc;
     mediaCount := current; previousMediaCount := previous;
     acc_cursor := c; error := error acc;
     acc_accountInfo := info |}.

(** The account as the [catch] handler leaves it. *)
Definition withFailure (s : Status) (errorMsg : string) (count : nat)
    (acc : MultipleAccount) : MultipleAccount :=
  {| id := id acc; acc_username := acc_username acc; status := s;
     mediaCount := count; previousMediaCount := previousMediaCount acc;
     acc_cursor := acc_cursor acc; error := Some errorMsg;
     acc_accountInfo := acc_accountInfo acc |}.

(** "Reset all accounts to pending" (lines 906-917). *)
Definition resetAccount (acc : MultipleAccount) : MultipleAccount :=
  {| id := id acc; acc_username := acc_username acc; status := Pending;
     mediaCount := 0; previousMediaCount := 0;
     acc_cursor := acc_cursor acc; error := None;
     acc_accountInfo := acc_accountInfo acc |}.

(** What the loops of [handleFetchAll] and [handleRetryAccount] read from
    their closure. *)
Record AccountCtx := {
  accountId : string;
  acc_cleanUsername : string;          (* account.username.trim() *)
  acc_authToken : string;              (* authToken.trim() *)
  acc_mediaType : string;              (* fetchedMediaType || "all" *)
  acc_batchSize : Z
}.

Definition accountRequest (c : AccountCtx) (l : Locals) : TimelineRequest :=
  {| req_username := acc_cleanUsername c;
     auth_token := acc_authToken c;
     timeline_type := "timeline";
     batch_size := acc_batchSize c;
     req_page := page l;
     media_type := acc_mediaType c;
     retweets := false;
     req_cursor := cur l |}.

Definition accountSnapshot (c : AccountCtx) (l : Locals) (done : bool) : FetchState :=
  {| username := acc_cleanUsername c;
     fs_cursor := orElse (cur l) EmptyString;
     fs_timeline := allTimeline l;
     fs_accountInfo := accountInfo l;
     totalFetched := length (allTimeline l);
     fs_completed := done;
     authToken := acc_authToken c;
     mediaType := acc_mediaType c;
     fs_retweets := false;
     timelineType := "timeline" |}.

(** [accountStopFlagsRef.current.get(accountId)] as a condition *)
Definition accountStopped (accountId : string) (w : World) : bool :=
  default false (accountStopFlagsRef w !! accountId).

Definition awaitAccount (accountId : string) (step : AdapterStep) (w : World) : World :=
  let w := withNow (now w + took step)%Z w in
  let w := if raisedStop step
           then withAccountStopFlags (<[accountId := true]> (accountStopFlagsRef w)) w
           else w in
  withStopAll (stopAllRef w || raisedStopAll step) w.

(** Lines 1033-1077: the state saved when the account's stop flag is found. *)
Definition saveOnAccountStop (c : AccountCtx) (l : Locals) (w : World) : World :=
  match accountInfo l with
  | Some info =>
      if (0 <? length (allTimeline l))%nat then
        SaveAccountToDBWithStatus info (length (allTimeline l))
          (orElse (cur l) EmptyString) false
          (saveFetchState (accountSnapshot c l false) w)
      else w
  | None => w
  end.

(** [if (!accountInfo && data.account_info) accountInfo = data.account_info] *)
Definition firstAccountInfo (known : option AccountInfo) (data : TwitterResponse)
    : option AccountInfo :=
  match known with
  | None => account_info data
  | Some _ => known
  end.

(** The locals after a batch, and the steps both account loops share:
    merge, lightweight cursor, media count, progress (lines 1092-1128). The
    updater of [setMultipleAccounts] reads the variable [previousMediaCount]
    when React runs it: at the call, as here, when no update is pending (the
    state is then computed eagerly), and otherwise at the next render, after
    line 1142 has set the variable to the current count. No property below
    rests on the [previousMediaCount] recorded here. *)
Definition mergeBatch (c : AccountCtx) (l : Locals) (previous : nat)
    (data : TwitterResponse) (accs : list MultipleAccount) (w : World)
    : Locals * list MultipleAccount * World :=
  let info := firstAccountInfo (accountInfo l) data in
  let merged := mergeTimelines (allTimeline l) (timeline data) in
  let w := emit (EvMerge merged) w in
  let l' := {| cur := cursor data;
               allTimeline := merged;
               accountInfo := info;
               hasMore := hasMoreOf data;
               page := (page l + 1)%Z |} in
  let w := if truthy (cursor data)
           then saveCursor (acc_cleanUsername c) (default EmptyString (cursor data)) w
           else w in
  let w := withAccountMediaCount
             (<[accountId c := length merged]> (accountMediaCountRef w)) w in
  let accs := setAccount (accountId c)
                (withProgress info previous (length merged) (cursor data)) accs in
  (l', accs, w).

Definition persistBatch (l : Locals) (w : World) : World :=
  match accountInfo l with
  | Some i => SaveAccountToDBWithStatus i (length (allTimeline l))
                (orElse (cur l) EmptyString) (negb (hasMore l)) w
  | None => w
  end.

(** What a run of one account leaves behind. *)
Record AccountRun := {
  thrown : option string;
  locals : Locals;
  accounts : list MultipleAccount;
  world : World;
  rest : list AdapterStep
}.

(** The body of the scheduler's loop after a batch arrived (lines
    1092-1190): the full state is saved when the account is known. *)
Definition accountBatch (c : AccountCtx) (l : Locals) (previous : nat)
    (data : TwitterResponse) (accs : list MultipleAccount) (w : World)
    : Locals * list MultipleAccount * World :=
  let '(l', accs, w) := mergeBatch c l previous data accs w in
  let w := match accountInfo l' with
           | Some _ => saveFetchState (accountSnapshot c l' (negb (hasMore l'))) w
           | None => w
           end in
  (l', accs, persistBatch l' w).

(** [while (hasMore && !stopAllRef.current) { .. }] of [handleFetchAll] *)
Fixpoint accountLoop (c : AccountCtx) (script : list AdapterStep) (l : Locals)
    (previous : nat) (accs : list MultipleAccount) (w : World) : AccountRun :=
  if hasMore l && negb (stopAllRef w) then
    if accountStopped (accountId c) w then
      {| thrown := None; locals := l; accounts := accs;
         world := saveOnAccountStop c l w; rest := script |}
    else
      let w := emit (EvCall (accountRequest c l)) w in
      match script with
      | [] => {| thrown := Some scriptExhausted; locals := l; accounts := accs;
                 world := w; rest := [] |}
      | step :: script' =>
          let w := awaitAccount (accountId c) step w in
          match reply step with
          | inl err => {| thrown := Some err; locals := l; accounts := accs;
                          world := w; rest := script' |}
          | inr data =>
              let '(l', accs, w) := accountBatch c l previous data accs w in
              accountLoop c script' l' (length (allTimeline l')) accs w
          end
      end
  else {| thrown := None; locals := l; accounts := accs; world := w; rest := script |}.

Definition statusByCount (count : nat) : Status :=
  if (count =? 0)%nat then Failed else Incomplete.

(** Lines 1204-1250: the status after the loop ended without exception. *)
Definition finalStatus (wasTimeout stoppedAll more : bool) (finalMediaCount : nat)
    : Status :=
  if wasTimeout then statusByCount finalMediaCount
  else if stoppedAll then statusByCount finalMediaCount
  else if more then statusByCount finalMediaCount
  else Completed.

(** Lines 1270-1275 *)
Definition isAuthError (errorMsg : string) : bool :=
  Contains (ToLower errorMsg) "401"
  || Contains (ToLower errorMsg) "unauthorized"
  || Contains (ToLower errorMsg) "auth token may be invalid"
  || Contains (ToLower errorMsg) "auth token may be expired"
  || Contains (ToLower errorMsg) "invalid or expired".

(** Line 1281 *)
Definition errorStatus (errorMsg : string) (count : nat) : Status :=
  if isAuthError errorMsg || (count =? 0)%nat then Failed else Incomplete.

(** The [catch] handler of both account loops. *)
Definition onAccountError (c : AccountCtx) (errorMsg : string)
    (accs : list MultipleAccount) (w : World) : list MultipleAccount * World :=
  let count := default 0%nat (accountMediaCountRef w !! accountId c) in
  let s := errorStatus errorMsg count in
  let w := withAccountMediaCount (delete (accountId c) (accountMediaCountRef w)) w in
  (setAccount (accountId c) (withFailure s errorMsg count) accs, w).

Definition accountCtxOf (settings : Settings) (authToken fetchedMediaType : string)
    (account : MultipleAccount) : AccountCtx :=
  {| accountId := id account;
     acc_cleanUsername := TrimSpace (acc_username account);
     acc_authToken := TrimSpace authToken;
     acc_mediaType := orElse (Some fetchedMediaType) "all";
     acc_batchSize := batchSizeOf settings |}.

(** How one account of the queue ended. *)
Inductive Ending :=
| Skipped                               (* stop-all seen before the loop *)
| Left (l : Locals)                     (* the loop ended without exception *)
| Raised (errorMsg : string).

(** One turn of [for (let i = 0; ..)] in [handleFetchAll] (lines 928-1298). *)
Definition fetchAccount (settings : Settings) (authToken fetchedMediaType : string)
    (account : MultipleAccount) (script : list AdapterStep)
    (accs : list MultipleAccount) (w : World)
    : Ending * list MultipleAccount * World * list AdapterStep :=
  let c := accountCtxOf settings authToken fetchedMediaType account in
  let w := withAccountStopFlags (<[accountId c := false]> (accountStopFlagsRef w)) w in
  let accs := setAccount (accountId c) (withStatus Fetching) accs in
  if stopAllRef w then
    (Skipped,
     setAccount (accountId c)
       (λ acc, withStatus (statusByCount (mediaCount acc)) acc) accs,
     w, script)
  else
    let start := {| cur := None; allTimeline := []; accountInfo := None;
                    hasMore := true; page := 0 |} in
    let r := accountLoop c script start (mediaCount account) accs w in
    match thrown r with
    | None =>
        let l := locals r in
        let finalMediaCount := length (allTimeline l) in
        let w := withAccountMediaCount
                   (<[accountId c := finalMediaCount]> (accountMediaCountRef (world r)))
                   (world r) in
        let s := finalStatus (accountStopped (accountId c) w) (stopAllRef w)
                             (hasMore l) finalMediaCount in
        (Left l, setAccount (accountId c) (withStatus s) (accounts r), w, rest r)
    | Some errorMsg =>
        let '(accs, w) := onAccountError c errorMsg (accounts r) (world r) in
        (Raised errorMsg, accs, w, rest r)
    end.

(** The queue: accounts in order, none started once stop-all is seen. *)
Fixpoint fetchQueue (settings : Settings) (authToken fetchedMediaType : string)
    (currentAccounts : list MultipleAccount) (script : list AdapterStep)
    (accs : list MultipleAccount) (w : World) : list MultipleAccount * World :=
  match currentAccounts with
  | [] => (accs, w)
  | account :: later =>
      if stopAllRef w then (accs, w)
      else
        let '(_, accs, w, script) :=
          fetchAccount settings authToken fetchedMediaType account script accs w in
        fetchQueue settings authToken fetchedMediaType later script accs w
  end.

(** [handleFetchAll]; [authToken] is the item of [localStorage]. *)
Definition handleFetchAll (settings : Settings) (authToken : option string)
    (fetchedMediaType : string) (multipleAccounts : list MultipleAccount)
    (script : list AdapterStep) (w : World) : list MultipleAccount * World :=
  match multipleAccounts with
  | [] => (multipleAccounts, w)
  | _ =>
      let w := withStopAll false w in
      if String.eqb (TrimSpace (orElse authToken EmptyString)) EmptyString
      then (multipleAccounts, w)
      else fetchQueue settings (orElse authToken EmptyString) fetchedMediaType
             multipleAccounts script (map resetAccount multipleAccounts) w
  end.

(** *** [handleRetryAccount] *)

(** An [AccountListItem] of [GetAllAccountsFromDB()]. *)
Record DbAccount := {
  db_username : string;
  db_cursor : string;
  db_completed : bool
}.

(** [accounts.find(acc => acc.username.toLowerCase() === cleanUsername.toLowerCase())] *)
Definition findDbAccount (cleanUsername : string) (accounts : list DbAccount)
    : option DbAccount :=
  List.find (λ acc, String.eqb (ToLower (db_username acc)) (ToLower cleanUsername))
            accounts.

(** Where a retry picked up from. *)
Inductive ResumeSource :=
| FromFetchState          (* the full checkpoint *)
| FromAccountCursor       (* the cursor kept on the account task *)
| FromSavedCursor         (* the lightweight cursor slot *)
| FromDatabase            (* the cursor of the last database record *)
| FromBeginning.          (* nothing found: stale state cleared *)

Record RetryStart := {
  source : ResumeSource;
  start_cursor : option string;
  start_timeline : list TimelineEntry;
  start_accountInfo : option AccountInfo;
  start_previousMediaCount : nat;
  start_world : World
}.

Definition freshRetry (cleanUsername : string) (account : MultipleAccount)
    (w : World) : RetryStart :=
  {| source := FromBeginning;
     start_cursor := acc_cursor account;
     start_timeline := [];
     start_accountInfo := None;
     start_previousMediaCount := mediaCount account;
     start_world := clearCursor cleanUsername (clearFetchState cleanUsername w) |}.

Definition retryFromCursor (src : ResumeSource) (c : string)
    (account : MultipleAccount) (w : World) : RetryStart :=
  {| source := src;
     start_cursor := Some c;
     start_timeline := [];
     start_accountInfo := None;
     start_previousMediaCount := mediaCount account;
     start_world := w |}.

(** Lines 1387-1441. [db] is what [await GetAllAccountsFromDB()] returned,
    [None] when it threw. *)
Definition resumePoint (account : MultipleAccount) (db : option (list DbAccount))
    (w : World) : RetryStart :=
  let cleanUsername := TrimSpace (acc_username account) in
  let fallback :=
    if negb (truthy (acc_cursor account)) then
      let savedCursor := getCursor cleanUsername w in
      if truthy savedCursor then
        retryFromCursor FromSavedCursor (default EmptyString savedCursor) account w
      else
        match db with
        | Some accounts =>
            match findDbAccount cleanUsername accounts with
            | Some dbAccount =>
                if truthy (Some (db_cursor dbAccount)) then
                  retryFromCursor FromDatabase (db_cursor dbAccount) account w
                else freshRetry cleanUsername account w
            | None => freshRetry cleanUsername account w
            end
        | None => freshRetry cleanUsername account w
        end
    else
      retryFromCursor FromAccountCursor (default EmptyString (acc_cursor account))
        account w in
  match getFetchState cleanUsername w with
  | Some existingState =>
      if truthy (Some (fs_cursor existingState)) && negb (fs_completed existingState)
      then {| source := FromFetchState;
              start_cursor := Some (fs_cursor existingState);
              start_timeline := fs_timeline existingState;
              start_accountInfo := fs_accountInfo existingState;
              start_previousMediaCount := length (fs_timeline existingState);
              start_world := w |}
      else fallback
  | None => fallback
  end.

(** [if (page % 3 === 0 || !hasMore || accountStopFlagsRef.current.get(accountId))] *)
Definition retrySavesState (c : AccountCtx) (l : Locals) (w : World) : bool :=
  (page l mod 3 =? 0)%Z || negb (hasMore l) || accountStopped (accountId c) w.

(** The body of the retry loop after a batch arrived (lines 1537-1635):
    the full state is saved "periodically". *)
Definition retryBatch (c : AccountCtx) (l : Locals) (previous : nat)
    (data : TwitterResponse) (accs : list MultipleAccount) (w : World)
    : Locals * list MultipleAccount * World :=
  let '(l', accs, w) := mergeBatch c l previous data accs w in
  let w := if retrySavesState c l' w
           then saveFetchState (accountSnapshot c l' (negb (hasMore l'))) w
           else w in
  (l', accs, persistBatch l' w).

(** [while (hasMore && !stopAllRef.current) { .. }] of [handleRetryAccount] *)
Fixpoint retryLoop (c : AccountCtx) (script : list AdapterStep) (l : Locals)
    (previous : nat) (accs : list MultipleAccount) (w : World) : AccountRun :=
  if hasMore l && negb (stopAllRef w) then
    if accountStopped (accountId c) w then
      {| thrown := None; locals := l; accounts := accs; world := w; rest := script |}
    else
      let w := emit (EvCall (accountRequest c l)) w in
      match script with
      | [] => {| thrown := Some scriptExhausted; locals := l; accounts := accs;
                 world := w; rest := [] |}
      | step :: script' =>
          let w := awaitAccount (accountId c) step w in
          match reply step with
          | inl err => {| thrown := Some err; locals := l; accounts := accs;
                          world := w; rest := script' |}
          | inr data =>
              let '(l', accs, w) := retryBatch c l previous data accs w in
              retryLoop c script' l' (length (allTimeline l')) accs w
          end
      end
  else {| thrown := None; locals := l; accounts := accs; world := w; rest := script |}.

(** The account as a retry shows it while fetching (lines 1444-1459). *)
Definition withRetryStart (previous : nat) (acc : MultipleAccount) : MultipleAccount :=
  {| id := id acc; acc_username := acc_username acc; status := Fetching;
     mediaCount := previous; previousMediaCount := previous;
     acc_cursor := acc_cursor acc; error := None;
     acc_accountInfo := acc_accountInfo acc |}.

(** The completed account of a retry: [cursor: undefined]. *)
Definition withCompletion (acc : MultipleAccount) : MultipleAccount :=
  {| id := id acc; acc_username := acc_username acc; status := Completed;
     mediaCount := mediaCount acc; previousMediaCount := previousMediaCount acc;
     acc_cursor := None; error := error acc;
     acc_accountInfo := acc_accountInfo acc |}.

(** [handleRetryAccount(accountId)]; [None] when it returned at once (no such
    account, or no auth token). *)
Definition handleRetryAccount (settings : Settings) (authToken : option string)
    (fetchedMediaType : string) (retryId : string)
    (db : option (list DbAccount)) (script : list AdapterStep)
    (multipleAccounts : list MultipleAccount) (w : World)
    : option (Ending * list MultipleAccount * World) :=
  match List.find (λ acc, String.eqb (id acc) retryId) multipleAccounts with
  | None => None
  | Some account =>
      if String.eqb (TrimSpace (orElse authToken EmptyString)) EmptyString then None
      else
        let c := accountCtxOf settings (orElse authToken EmptyString)
                   fetchedMediaType account in
        let s := resumePoint account db w in
        let accs := setAccount retryId
                      (withRetryStart (start_previousMediaCount s)) multipleAccounts in
        let w := withAccountStopFlags
                   (<[retryId := false]> (accountStopFlagsRef (start_world s)))
                   (start_world s) in
        let start := {| cur := start_cursor s; allTimeline := start_timeline s;
                        accountInfo := start_accountInfo s;
                        hasMore := true; page := 0 |} in
        let r := retryLoop c script start (start_previousMediaCount s) accs w in
        match thrown r with
        | None =>
            let l := locals r in
            let finalMediaCount := length (allTimeline l) in
            let w := withAccountMediaCount
                       (<[retryId := finalMediaCount]> (accountMediaCountRef (world r)))
                       (world r) in
            let st := finalStatus (accountStopped retryId w) (stopAllRef w)
                                  (hasMore l) finalMediaCount in
            match st with
            | Completed =>
                Some (Left l,
                      setAccount retryId withCompletion (accounts r),
                      clearCursor (acc_cleanUsername c)
                        (clearFetchState (acc_cleanUsername c) w))
            | _ => Some (Left l, setAccount retryId (withStatus st) (accounts r), w)
            end
        | Some errorMsg =>
            let '(accs, w) := onAccountError c errorMsg (accounts r) (world r) in
            Some (Raised errorMsg, accs, w)
        end
  end.

(** *** [handleResume], [handleClearResume] and the timer *)

(** [handleFetch(false, undefined, undefined, mediaType, retweets, "public",
    undefined, authToken, true)] *)
Definition handleResume (settings : Settings) (loading : bool) (username : string)
    (authToken : string) (mediaType : option string) (retweets : option bool)
    (cleanupTook : Z) (script : list AdapterStep) (w : World)
    : FetchResult * World :=
  handleFetch settings loading
    {| arg_username := username; arg_mediaType := mediaType;
       arg_retweets := retweets; arg_mode := public; arg_privateType := None;
       arg_authToken := Some authToken; arg_isResume := true |}
    cleanupTook script w.

Definition handleClearResume (username : string) (w : World) : World :=
  if negb (String.eqb (TrimSpace username) EmptyString)
  then clearFetchState (TrimSpace username) w
  else w.

(** The callback of the interval the timer effect installs while a fetch is
    loading: the seconds elapsed and remaining it displays, and the stop it
    raises when none remain. *)
Definition tick (settings : Settings) (w : World) : option (Z * Z) * World :=
  match fetchStartTimeRef w with
  | Some start =>
      let elapsed := elapsedSince start w in
      let remaining := Z.max 0 (timeoutSeconds settings - elapsed) in
      (Some (elapsed, remaining),
       if (remaining <=? 0)%Z then withStopFetch true w else w)
  | None => (None, w)
  end.

(** *** The fetch history *)

Record HistoryItem := {
  h_id : string;
  h_username : string;
  h_name : string;
  h_image : string;
  h_mediaCount : nat;
  h_timestamp : Z
}.

Definition MAX_HISTORY : nat := 10.

(** [addToHistory(finalData, username)] as [handleFetch] calls it in the
    timeline mode, where [total_urls] is [allTimeline.length]; [uuid] is
    [crypto.randomUUID()] and [timestamp] is [Date.now()]. The clean-up of
    [inputUsername] at its head is not used by what follows. *)
Definition addToHistory (data : FinalData) (uuid : string) (timestamp : Z)
    (prev : list HistoryItem) : list HistoryItem :=
  let apiUsername := Backend.name (fd_account_info data) in
  let filtered :=
    filter (λ h, ToLower (h_username h) ≠ ToLower apiUsername) prev in
  let newItem := {| h_id := uuid;
                    h_username := apiUsername;
                    h_name := Backend.nick (fd_account_info data);
                    h_image := Backend.profile_image (fd_account_info data);
                    h_mediaCount := length (fd_timeline data);
                    h_timestamp := timestamp |} in
  take MAX_HISTORY (newItem :: filtered).

Definition removeFromHistory (removed : string) (prev : list HistoryItem)
    : list HistoryItem :=
  filter (λ h, h_id h ≠ removed) prev.

(** *** [parseUsername] and the account list *)

(** [[^/?]] *)
Definition isHandleChar (c : ascii) : bool :=
  negb (Ascii.eqb c "/" || Ascii.eqb c "?").

(** The longest run of [[^/?]] at the head of [s]. *)
Fixpoint handleRun (s : string) : string :=
  match s with
  | EmptyString => EmptyString
  | String c s' => if isHandleChar c then String c (handleRun s') else EmptyString
  end.

(** One alternative of [/(?:x\.com|twitter\.com)\/([^/?]+)/] tried at the
    head of [s]: [host] with its slash, then a run that is not empty. *)
Definition matchAfter (host s : string) : option string :=
  if HasPrefix s host then
    match handleRun (from (String.length host) s) with
    | EmptyString => None
    | run => Some run
    end
  else None.

Definition matchHere (s : string) : option string :=
  match matchAfter "x.com/" s with
  | Some run => Some run
  | None => matchAfter "twitter.com/" s
  end.

(** [clean.match(/(?:x\.com|twitter\.com)\/([^/?]+)/)]: the group of the
    leftmost match. *)
Fixpoint matchHandle (s : string) : option string :=
  match matchHere s with
  | Some run => Some run
  | None =>
      match s with
      | EmptyString => None
      | String _ s' => matchHandle s'
      end
  end.

Definition parseUsername (input : string) : string :=
  let clean := TrimSpace input in
  let clean := if HasPrefix clean "@" then from 1 clean else clean in
  if Contains clean "x.com/" || Contains clean "twitter.com/" then
    match matchHandle clean with
    | Some run => run
    | None => clean
    end
  else clean.

(** The account [handleUpdateSelected] and [handleImportFile] create. *)
Definition newAccount (uuid cleanUsername : string) : MultipleAccount :=
  {| id := uuid; acc_username := cleanUsername; status := Pending;
     mediaCount := 0; previousMediaCount := 0; acc_cursor := None;
     error := None; acc_accountInfo := None |}.

(** [inputs.map(..)]; [uuid i] is what the i-th [crypto.randomUUID()] returns. *)
Definition newAccounts (uuid : nat -> string) (inputs : list string)
    : list MultipleAccount :=
  imap (λ i input, newAccount (uuid i) (parseUsername input)) inputs.

Definition handleUpdateSelected (uuid : nat -> string) (usernames : list string)
    (prev : list MultipleAccount) : list MultipleAccount :=
  match usernames with
  | [] => prev
  | _ =>
      let accounts := newAccounts uuid usernames in
      let existingUsernames : gset string :=
        list_to_set ((λ acc, ToLower (acc_username acc)) <$> prev) in
      prev ++ filter (λ acc, ToLower (acc_username acc) ∉ existingUsernames) accounts
  end.

(** The [onchange] handler of [handleImportFile], given the text of the file. *)
Definition handleImportFile (uuid : nat -> string) (text : string)
    (prev : list MultipleAccount) : list MultipleAccount :=
  let lines :=
    filter (λ line, line ≠ EmptyString) (TrimSpace <$> Split text newline) in
  match lines with
  | [] => prev
  | _ => newAccounts uuid lines
  end.

(** *** [handleStopAll] and [handleStopAccount] *)

(** [accountMediaCountRef.current.get(acc.id) || acc.mediaCount || 0] *)
Definition shownCount (acc : MultipleAccount) (w : World) : nat :=
  let counted := default 0%nat (accountMediaCountRef w !! id acc) in
  if (counted =? 0)%nat then mediaCount acc else counted.

(** What both handlers make of an account that is fetching. *)
Definition stopFetching (w : World) (acc : MultipleAccount) : MultipleAccount :=
  match status acc with
  | Fetching =>
      let mediaCount := shownCount acc w in
      {| id := id acc; acc_username := acc_username acc;
         status := statusByCount mediaCount;
         mediaCount := mediaCount; previousMediaCount := previousMediaCount acc;
         acc_cursor := acc_cursor acc; error := error acc;
         acc_accountInfo := acc_accountInfo acc |}
  | _ => acc
  end.

Definition handleStopAll (multipleAccounts : list MultipleAccount) (w : World)
    : list MultipleAccount * World :=
  (map (stopFetching w) multipleAccounts, withStopAll true w).

Definition handleStopAccount (accountId : string)
    (multipleAccounts : list MultipleAccount) (w : World)
    : list MultipleAccount * World :=
  (map (λ acc, if String.eqb (id acc) accountId then stopFetching w acc else acc)
       multipleAccounts,
   withAccountStopFlags (<[accountId := true]> (accountStopFlagsRef w)) w).

(** *** [handleFetch], date-range mode *)

Record DateRangeRequest := {
  range_username : string;
  range_auth_token : string;
  start_date : string;
  end_date : string;
  media_filter : string;
  range_retweets : bool
}.

Inductive RangeResult :=
| RangeRefused (toast : string)               (* returned before the call *)
| RangeFetched (finalData : TwitterResponse)
| RangeThrew (errorMsg : string).

(** [useDateRange && startDate && endDate && mode === "public"] *)
Definition takesDateRange (useDateRange : bool) (startDate endDate : option string)
    (a : FetchArgs) : bool :=
  useDateRange && truthy startDate && truthy endDate
  && match arg_mode a with public => true | private => false end.

(** "Save to database immediately for date range mode" (lines 401-414, and
    once more in lines 416-430); [total_urls] is the length of the timeline,
    as the backend sets it. *)
Definition saveRange (data : TwitterResponse) (w : World) : World :=
  match account_info data with
  | Some info =>
      SaveAccountToDBWithStatus info (length (timeline data))
        (orElse (cursor data) EmptyString) (default true (completed data)) w
  | None => w
  end.

(** [handleFetch] with a date range (lines 268-430 and 668-743); [None]
    when the date-range branch is not the one taken. [call] is the one
    [await ExtractDateRange(..)] with the [JSON.parse] of its answer; the
    requests made are returned beside the world. The final save of line 679
    is skipped under [useDateRange]. As in [handleFetch], the [catch] handler
    reads the checkpoint store and forwards what it finds to the database;
    it leaves the store as it is. *)
Definition handleFetchDateRange (settings : Settings) (loading : bool)
    (a : FetchArgs) (useDateRange : bool) (startDate endDate : option string)
    (cleanupTook : Z) (call : AdapterStep) (w : World)
    : option (RangeResult * list DateRangeRequest * World) :=
  let c := contextOf settings a in
  if negb (takesDateRange useDateRange startDate endDate a) then None
  else if loading then Some (RangeRefused "Fetch already in progress", [], w)
  else if negb (isBookmarksOf a) && String.eqb (TrimSpace (arg_username a)) EmptyString
  then Some (RangeRefused "Please enter a username", [], w)
  else if String.eqb (ctx_authToken c) EmptyString
  then Some (RangeRefused "Please enter your auth token", [], w)
  else
    let w := withStopFetch false w in
    let w := withFetchStartTime (Some (now w)) w in
    let w := withNow (now w + cleanupTook)%Z w in
    match startOf c (arg_isResume a) w with
    | None => Some (RangeRefused "No resumable fetch found", [], w)
    | Some (_, w) =>
        if timeoutReached c w then
          Some (RangeRefused "Fetch timeout reached. Stopping...", [],
                withFetchStartTime None (withStopFetch true w))
        else
          let req := {| range_username := TrimSpace (arg_username a);
                        range_auth_token := ctx_authToken c;
                        start_date := default EmptyString startDate;
                        end_date := default EmptyString endDate;
                        media_filter := ctx_mediaType c;
                        range_retweets := ctx_retweets c |} in
          let w := awaitFetch call w in
          match reply call with
          | inl errorMsg => Some (RangeThrew errorMsg, [req], withFetchStartTime None w)
          | inr data =>
              Some (RangeFetched data, [req],
                    withFetchStartTime None (saveRange data (saveRange data w)))
          end
    end.

(** *** [checkForUpdates] *)

Definition CURRENT_VERSION : string := "4.3.1".

(** [data.tag_name?.replace(/^v/, "") || ""] *)
Definition latestVersionOf (tag_name : option string) : string :=
  match tag_name with
  | Some tag => if HasPrefix tag "v" then from 1 tag else tag
  | None => EmptyString
  end.

(** [latestVersion && latestVersion > CURRENT_VERSION] (lines 128-131);
    JavaScript compares strings code unit by code unit, as [String.ltb]
    compares them byte by byte. *)
Definition hasUpdateFor (tag_name : option string) : bool :=
  let latestVersion := latestVersionOf tag_name in
  negb (String.eqb latestVersion EmptyString)
  && String.ltb CURRENT_VERSION latestVersion.

End Frontend.

(** ** Vocabulary of the properties *)

Module Spec.
Import Str Backend.

(** Braces opened and not yet closed along [s]. *)
Fixpoint depth (s : string) : Z :=
  match s with
  | EmptyString => 0%Z
  | String c s' =>
      ((if Ascii.eqb c "{" then 1 else if Ascii.eqb c "}" then -1 else 0)
       + depth s')%Z
  end.

(** [r] runs from an opening brace through the brace that matches it: what
    lies between is balanced and never closes more than it opened. *)
Definition Matched (r : string) : Prop :=
  ∃ inner, r = String "{" (inner +:+ "}")
           ∧ depth inner = 0%Z
           ∧ ∀ p q, inner = p +:+ q → (0 ≤ depth p)%Z.

(** [r] is the object that starts at the first opening brace of [output]. *)
Definition FirstObject (output r : string) : Prop :=
  ∃ pre post, output = pre +:+ r +:+ post
              ∧ Contains pre "{" = false
              ∧ Matched r.

(** [output] holds no balanced object at its first opening brace. *)
Definition NoObject (output : string) : Prop := ∀ r, ¬ FirstObject output r.

(** The hints [parseExtractorError] chooses from. *)
Definition KnownHint (username hint : string) : Prop :=
  hint ∈ [ EmptyString;
           " [Hint: End of timeline reached or rate limited - data already fetched has been saved]";
           " [Hint: Wait 5-15 minutes before retrying]";
           " [Hint: Auth token may be invalid or expired]";
           " [Hint: @" +:+ username +:+ " may not exist or is suspended]";
           " [Hint: Protected account - need to follow and use auth token]" ].









(** [s] is white space only. *)
Fixpoint blank (s : string) : bool :=
  match s with
  | EmptyString => true
  | String c s' => isSpace c && blank s'
  end.

(** [s] does not start with white space. *)
Definition noLeadingSpace (s : string) : Prop :=
  match s with
  | EmptyString => True
  | String ch _ => isSpace ch = false
  end.



End Spec.

Module Runs.
Import Str Frontend.

#[global] Instance TimelineEntry_eq_dec : EqDecision TimelineEntry.
Proof. solve_decision. Defined.

(** The requests of the adapter calls of a trace, in order. *)
Fixpoint callsOf (tr : list Event) : list TimelineRequest :=
  match tr with
  | [] => []
  | EvCall req :: tr' => req :: callsOf tr'
  | _ :: tr' => callsOf tr'
  end.

(** Along the trace, every merge is followed by a save of the full state
    that holds exactly the merged timeline, before the next adapter call is
    issued. [pending] is the merge that still waits for its save. *)
Fixpoint savedBeforeNextCall (pending : option (list TimelineEntry))
    (tr : list Event) : bool :=
  match tr with
  | [] => true
  | EvMerge merged :: tr' => savedBeforeNextCall (Some merged) tr'
  | EvSaveState st :: tr' =>
      savedBeforeNextCall
        (if bool_decide (pending = Some (fs_timeline st)) then None else pending) tr'
  | EvCall _ :: tr' =>
      match pending with
      | Some _ => false
      | None => savedBeforeNextCall None tr'
      end
  | _ :: tr' => savedBeforeNextCall pending tr'
  end.

(** Events that are neither a call, nor a merge, nor a save of the full
    state. *)
Definition quiet (e : Event) : bool :=
  match e with
  | EvCall _ | EvMerge _ | EvSaveState _ => false
  | _ => true
  end.

(** The loop of [handleFetch] goes on to its next call. *)
Definition continues (c : FetchCtx) (l : Locals) (w : World) : bool :=
  hasMore l && negb (stopFetchRef w) && negb (timeoutReached c w).


(** Some full state is saved along the trace. *)
Definition savesState (tr : list Event) : Prop := ∃ st, EvSaveState st ∈ tr.





(** The timeline after the batches of [pre] were merged in order. *)
Definition mergedThrough (init : list TimelineEntry) (pre : list AdapterStep)
    : list TimelineEntry :=
  foldl (λ items step,
           match reply step with
           | inr data => mergeTimelines items (timeline data)
           | inl _ => items
           end) init pre.

(** The clock after the calls of [pre], started at [t]. *)
Definition timeAfter (t : Z) (pre : list AdapterStep) : Z :=
  foldl (λ t step, (t + took step)%Z) t pre.

(** Every call of [pre] is issued with the budget [T] not yet reached,
    returns a batch with more to come, and sees no stop raised. [start] is
    the start time of the fetch and [t] the time of the first test. *)
Fixpoint withinBudget (T start t : Z) (pre : list AdapterStep) : Prop :=
  match pre with
  | [] => True
  | step :: pre' =>
      ((t - start) / 1000 < T)%Z
      ∧ raisedStop step = false
      ∧ (∃ data, reply step = inr data ∧ hasMoreOf data = true)
      ∧ withinBudget T start (t + took step)%Z pre'
  end.

(** The store holds a checkpoint of [key] that is not completed and whose
    items are exactly [items]. *)
Definition Checkpointed (key : string) (items : list TimelineEntry) (w : World)
    : Prop :=
  ∃ st, getFetchState key w = Some st
        ∧ fs_timeline st = items
        ∧ fs_completed st = false.

(** The items a fetch starts from: those of the checkpoint it resumes, none
    when it is fresh. *)
Definition startingItems (isResume : bool) (key : string) (w : World)
    : list TimelineEntry :=
  if isResume then
    match getFetchState key w with
    | Some st => fs_timeline st
    | None => []
    end
  else [].

(** The store offers a checkpoint of [key] to resume from. *)
Definition Resumable (key : string) (w : World) : Prop :=
  ∃ st, getFetchState key w = Some st
        ∧ fs_cursor st ≠ EmptyString
        ∧ fs_completed st = false.

(** [handleFetch] does not turn the request down: a user name (but for
    bookmarks) and an auth token are given. *)
Definition Accepted (settings : Settings) (a : FetchArgs) : Prop :=
  (isBookmarksOf a = true ∨ TrimSpace (arg_username a) ≠ EmptyString)
  ∧ ctx_authToken (contextOf settings a) ≠ EmptyString.

(** The status the scheduler shows for an account. *)
Definition statusOf (accountId : string) (accs : list MultipleAccount)
    : option Status :=
  status <$> List.find (λ acc, String.eqb (id acc) accountId) accs.

(** The sources a retry may resume from, in the order of section 4.4, each
    with the cursor it offers: (1) the full checkpoint when not completed,
    (2) the last known lightweight cursor, the one kept on the task before
    the one in the cursor slot of the store, (3) the cursor of the last
    database record. *)
Definition checkpointCursor (key : string) (w : World) : option string :=
  match getFetchState key w with
  | Some st => if fs_completed st then None else Some (fs_cursor st)
  | None => None
  end.

Definition databaseCursor (key : string) (db : option (list DbAccount))
    : option string :=
  match db with
  | Some accounts => db_cursor <$> findDbAccount key accounts
  | None => None
  end.

Definition resumeCandidates (account : MultipleAccount)
    (db : option (list DbAccount)) (w : World)
    : list (ResumeSource * option string) :=
  let key := TrimSpace (acc_username account) in
  [ (FromFetchState, checkpointCursor key w);
    (FromAccountCursor, acc_cursor account);
    (FromSavedCursor, getCursor key w);
    (FromDatabase, databaseCursor key db) ].

(** The first source that offers a cursor; a fresh start when none does. *)
Definition firstPresent (candidates : list (ResumeSource * option string))
    : ResumeSource * option string :=
  match List.find (λ candidate, truthy (snd candidate)) candidates with
  | Some candidate => candidate
  | None => (FromBeginning, None)
  end.

(** The cursor a request carries, if any. *)
Definition presentCursor (c : option string) : option string :=
  if truthy c then c else None.

(** The store holds a checkpoint of [key] whose items are exactly [items]. *)
Definition Holds (key : string) (items : list TimelineEntry) (w : World) : Prop :=
  ∃ st, getFetchState key w = Some st ∧ fs_timeline st = items.

(** The store holds the checkpoint of the locals [l] under [key]: their
    items and their cursor, marked completed exactly when they have no more
    to fetch; and locals with more to fetch have a cursor. *)
Definition Kept (key : string) (l : Locals) (w : World) : Prop :=
  ∃ st, getFetchState key w = Some st
        ∧ fs_timeline st = allTimeline l
        ∧ fs_cursor st = orElse (cur l) EmptyString
        ∧ fs_completed st = negb (hasMore l)
        ∧ (hasMore l = true → truthy (cur l) = true).

(** [w'] differs from [w] in the store at most under [key]. *)
Definition sameElsewhere (key : string) (w w' : World) : Prop :=
  ∀ k, k ≠ key →
    fetchStates w' !! k = fetchStates w !! k ∧ cursors w' !! k = cursors w !! k.

(** The call made when [later] was left of the script threw [e]. *)
Definition failedAt (e : string) (later : list AdapterStep) : Prop :=
  match later with
  | [] => e = scriptExhausted
  | step :: _ => reply step = inl e
  end.

(** The same fetch, asked to resume. *)
Definition resumed (a : FetchArgs) : FetchArgs :=
  {| arg_username := arg_username a; arg_mediaType := arg_mediaType a;
     arg_retweets := arg_retweets a; arg_mode := arg_mode a;
     arg_privateType := arg_privateType a; arg_authToken := arg_authToken a;
     arg_isResume := true |}.

(** The cursor the call number [i] of a run is due: the cursor the run
    started from, then the cursor of the batch the call before returned. *)
Definition cursorDue (start : option string) (script : list AdapterStep) (i : nat)
    : option (option string) :=
  match i with
  | O => Some start
  | S j =>
      match script !! j with
      | Some step =>
          match reply step with
          | inr data => Some (cursor data)
          | inl _ => None
          end
      | None => None
      end
  end.

(** The cursor a fetch starts from: that of the checkpoint it resumes. *)
Definition startingCursor (isResume : bool) (key : string) (w : World)
    : option string :=
  if isResume then fs_cursor <$> getFetchState key w else None.

(** The call of [step] returned a batch. *)
Definition answered (step : AdapterStep) : Prop := ∃ data, reply step = inr data.

(** The world [handleFetch] leaves when its checks are passed: the stop flag
    lowered, the start time taken, the left-over processes cleaned up. *)
Definition started (cleanupTook : Z) (w : World) : World :=
  withNow (now w + cleanupTook)%Z
    (withFetchStartTime (Some (now w)) (withStopFetch false w)).

(** [accs'] is [accs] with at most the accounts of id [i] changed; every
    account keeps its id and its user name. *)
Definition touchedOnly (i : string) (accs accs' : list MultipleAccount) : Prop :=
  Forall2 (λ acc acc', id acc' = id acc
                       ∧ acc_username acc' = acc_username acc
                       ∧ (id acc ≠ i → acc' = acc)) accs accs'.

(** No fetch of the account is under way. *)
Definition settled (acc : MultipleAccount) : Prop := status acc ≠ Fetching.

(** The user names of a history, as [addToHistory] compares them. *)
Definition historyNames (history : list HistoryItem) : list string :=
  (λ h, ToLower (h_username h)) <$> history.

(** The user names of an account list, as [handleUpdateSelected] compares them. *)
Definition accountNames (accs : list MultipleAccount) : list string :=
  (λ acc, ToLower (acc_username acc)) <$> accs.

(** An account as [handleUpdateSelected] and [handleImportFile] create it. *)
Definition fresh (acc : MultipleAccount) : Prop :=
  status acc = Pending ∧ mediaCount acc = 0 ∧ previousMediaCount acc = 0
  ∧ acc_cursor acc = None ∧ error acc = None.

(** No byte of [s] is a slash or a question mark. *)
Definition plainHandle (s : string) : Prop :=
  Forall (λ ch, isHandleChar ch = true) (list_ascii_of_string s).

(** [rest] cannot prolong a handle: it is empty or starts with a slash or a
    question mark. *)
Definition endsHandle (rest : string) : Prop :=
  match rest with
  | EmptyString => True
  | String ch _ => isHandleChar ch = false
  end.

(** An event that writes no checkpoint: no merge, no save of the full
    state, no save of a cursor, no call of [ExtractTimeline]. *)
Definition keepsNothing (e : Event) : bool :=
  match e with
  | EvCall _ | EvMerge _ | EvSaveState _ | EvSaveCursor _ _ => false
  | _ => true
  end.

(** [e] is a save to the database. *)
Definition persists (e : Event) : bool :=
  match e with
  | EvPersist _ _ _ _ => true
  | _ => false
  end.

End Runs.

(** ** Sample data *)

Module Samples.
Import Frontend.

Definition alice : AccountInfo :=
  {| Backend.name := "alice"; Backend.nick := "Alice";
     Backend.account_date := "2020-05-17";
     Backend.followers_count := 10; Backend.friends_count := 7;
     Backend.profile_image := "https://pbs.twimg.com/profile_images/1/a.jpg";
     Backend.statuses_count := 3 |}.

Definition photo (tweet : Z) (address : string) : TimelineEntry :=
  {| Backend.url := address; Backend.date := "2025-01-01";
     Backend.tweet_id := tweet; Backend.type := "photo";
     Backend.is_retweet := false; Backend.extension := "jpg";
     Backend.width := 1200; Backend.height := 800;
     Backend.content := EmptyString;
     Backend.view_count := 0; Backend.bookmark_count := 0;
     Backend.favorite_count := 0; Backend.retweet_count := 0;
     Backend.reply_count := 0;
     Backend.source := EmptyString; Backend.verified := false;
     Backend.original_filename := EmptyString;
     Backend.author_username := "alice" |}.

(** A tweet without media, as the backend converts its metadata. *)
Definition textTweet (tweet : Z) (text : string) : TimelineEntry :=
  {| Backend.url := EmptyString; Backend.date := "2025-01-02";
     Backend.tweet_id := tweet; Backend.type := "text";
     Backend.is_retweet := false; Backend.extension := "txt";
     Backend.width := 0; Backend.height := 0;
     Backend.content := text;
     Backend.view_count := 0; Backend.bookmark_count := 0;
     Backend.favorite_count := 0; Backend.retweet_count := 0;
     Backend.reply_count := 0;
     Backend.source := EmptyString; Backend.verified := false;
     Backend.original_filename := EmptyString;
     Backend.author_username := "alice" |}.

Definition batch (items : list TimelineEntry) (next : option string)
    (done : option bool) : TwitterResponse :=
  {| account_info := Some alice; timeline := items;
     cursor := next; completed := done |}.

(** A call that returns [data] after [ms] milliseconds, no stop raised. *)
Definition answers (ms : Z) (data : TwitterResponse) : AdapterStep :=
  {| took := ms; raisedStop := false; raisedStopAll := false; reply := inr data |}.

Definition firstBatch : TwitterResponse :=
  batch [photo 1 "https://pbs.twimg.com/media/A"; photo 1 "https://pbs.twimg.com/media/B"]
        (Some "cursor-1") None.

Definition lastBatch : TwitterResponse :=
  batch [photo 2 "https://pbs.twimg.com/media/C"] None (Some true).

(** Nothing stored, no fetch running, the clock at zero. *)
Definition idle : World := mkWorld ∅ ∅ [] 0 false None false ∅ ∅.

Definition batchMode : Settings := {| fetchTimeout := 60; fetchMode := "batch" |}.
Definition singleMode : Settings := {| fetchTimeout := 60; fetchMode := "single" |}.

Definition fetchAlice : FetchArgs :=
  {| arg_username := "alice"; arg_mediaType := None; arg_retweets := None;
     arg_mode := public; arg_privateType := None;
     arg_authToken := Some "token"; arg_isResume := false |}.

Definition secondBatch : TwitterResponse :=
  batch [photo 3 "https://pbs.twimg.com/media/D"] (Some "cursor-2") None.

(** A fresh fetch of alice, budget 60 s, whose second call is issued after
    1.1 s and returns after 71.1 s. *)
Definition slowSecondCall : FetchResult * World :=
  handleFetch batchMode false fetchAlice 100
    [answers 1000 firstBatch; answers 70000 secondBatch; answers 1000 lastBatch]
    idle.

(** A fresh fetch of alice whose clean-up took the whole budget of 60 s. *)
Definition lateStart : FetchResult * World :=
  handleFetch batchMode false fetchAlice 60000
    [answers 1000 firstBatch; answers 1000 lastBatch] idle.

Definition aliceTask : MultipleAccount :=
  {| id := "task-1"; acc_username := "alice"; status := Failed;
     mediaCount := 0; previousMediaCount := 0; acc_cursor := None;
     error := None; acc_accountInfo := None |}.

(** Two batches, the first with a cursor, the second the last one. *)
Definition twoBatches : list AdapterStep :=
  [answers 1000 firstBatch; answers 1000 lastBatch].

(** The same adapter behind the three fetch paths. *)
Definition fetchedSingly : FetchResult * World :=
  handleFetch batchMode false fetchAlice 100 twoBatches idle.

Definition fetchedInQueue : list MultipleAccount * World :=
  handleFetchAll batchMode (Some "token") "all" [aliceTask] twoBatches idle.

Definition retried : option (Ending * list MultipleAccount * World) :=
  handleRetryAccount batchMode (Some "token") "all" "task-1" None twoBatches
    [aliceTask] idle.

(** A fetch in single mode against an adapter that hands out a cursor. *)
Definition fetchedInSingleMode : FetchResult * World :=
  handleFetch singleMode false fetchAlice 100 twoBatches idle.

(** The locals a fresh fetch starts its loop with. *)
Definition freshLocals : Locals :=
  {| cur := None; allTimeline := []; accountInfo := None;
     hasMore := true; page := 0 |}.

(** A fresh fetch whose first call returns after 61 s, past the budget. *)
Definition slowFirstCall : list AdapterStep := [answers 61000 firstBatch].



Definition aliceRequest : Backend.TimelineRequest :=
  {| Backend.Username := "alice"; Backend.AuthToken := "token";
     Backend.TimelineType := "timeline"; Backend.ReqBatchSize := 200;
     Backend.ReqPage := 0; Backend.MediaType := "all";
     Backend.Retweets := false; Backend.ReqCursor := EmptyString |}.

(** A call that returns [data] after [ms] milliseconds, the user having
    pressed stop meanwhile. *)
Definition stoppedDuring (ms : Z) (data : TwitterResponse) : AdapterStep :=
  {| took := ms; raisedStop := true; raisedStopAll := false; reply := inr data |}.

(** A call that throws [errorMsg] after [ms] milliseconds. *)
Definition fails (ms : Z) (errorMsg : string) : AdapterStep :=
  {| took := ms; raisedStop := false; raisedStopAll := false; reply := inl errorMsg |}.

Definition resumeAlice : FetchArgs :=
  {| arg_username := "alice"; arg_mediaType := None; arg_retweets := None;
     arg_mode := public; arg_privateType := None;
     arg_authToken := Some "token"; arg_isResume := true |}.

(** A fresh fetch of alice stopped by the user during its first call. *)
Definition stoppedAfterFirst : FetchResult * World :=
  handleFetch batchMode false fetchAlice 100
    [stoppedDuring 1000 firstBatch; answers 1000 lastBatch] idle.

(** The same fetch resumed later against an adapter that has the rest. *)
Definition resumedAfterStop : FetchResult * World :=
  handleFetch batchMode false resumeAlice 100 [answers 1000 lastBatch]
    stoppedAfterFirst.2.

(** A fresh fetch of alice whose second call fails. *)
Definition failedAfterFirst : FetchResult * World :=
  handleFetch batchMode false fetchAlice 100
    [answers 1000 firstBatch; fails 500 "HTTP 429 Too Many Requests"] idle.

Definition firstItems : list TimelineEntry :=
  [photo 1 "https://pbs.twimg.com/media/A"; photo 1 "https://pbs.twimg.com/media/B"].

Definition allItems : list TimelineEntry :=
  firstItems ++ [photo 2 "https://pbs.twimg.com/media/C"].

Definition aliceStopped : FinalData :=
  {| fd_account_info := alice; fd_timeline := firstItems;
     fd_cursor := Some "cursor-1"; fd_completed := false |}.

Definition aliceDone : FinalData :=
  {| fd_account_info := alice; fd_timeline := allItems;
     fd_cursor := None; fd_completed := true |}.

(** The locals that the loops end with when [twoBatches] were fetched. *)
Definition finishedLocals : Locals :=
  {| cur := None; allTimeline := allItems; accountInfo := Some alice;
     hasMore := false; page := 2 |}.

(** What the retry of [retried] returned. *)
Definition retriedOutcome : Ending * list MultipleAccount * World :=
  default (Skipped, [], idle) retried.

Definition aliceUser : Backend.UserInfo :=
  {| Backend.user_ID := 7; Backend.user_Name := "alice"; Backend.user_Nick := "Alice";
     Backend.user_Location := EmptyString; Backend.user_Date := "2020-05-17";
     Backend.user_Verified := false; Backend.user_Protected := false;
     Backend.user_ProfileBanner := EmptyString;
     Backend.user_ProfileImage := "https://pbs.twimg.com/profile_images/1/a.jpg";
     Backend.user_FavouritesCount := 0; Backend.user_FollowersCount := 10;
     Backend.user_FriendsCount := 7; Backend.user_ListedCount := 0;
     Backend.user_MediaCount := 1; Backend.user_StatusesCount := 3;
     Backend.user_Description := EmptyString; Backend.user_URL := EmptyString |}.

(** A video of tweet 1 for which the CLI gave no type. *)
Definition aliceVideo : Backend.CLIMediaItem :=
  {| Backend.media_URL := "https://video.twimg.com/ext_tw_video/1/v.MP4";
     Backend.media_TweetID := 1; Backend.media_RetweetID := 0;
     Backend.media_QuoteID := 0; Backend.media_ReplyID := 0;
     Backend.media_ConversationID := 1; Backend.media_Date := "2025-01-01";
     Backend.media_Extension := "MP4"; Backend.media_Width := 1280;
     Backend.media_Height := 720; Backend.media_Type := EmptyString;
     Backend.media_Bitrate := 0; Backend.media_Author := aliceUser;
     Backend.media_User := aliceUser; Backend.media_Content := "clip";
     Backend.media_FavoriteCount := 0; Backend.media_RetweetCount := 0;
     Backend.media_ReplyCount := 0; Backend.media_QuoteCount := 0;
     Backend.media_BookmarkCount := 0; Backend.media_ViewCount := 0;
     Backend.media_Source := EmptyString; Backend.media_Sensitive := false |}.

(** The metadata of a tweet of alice. *)
Definition aliceTweet (tweet : Z) (text : string) : Backend.TweetMetadata :=
  {| Backend.meta_TweetID := tweet; Backend.meta_RetweetID := 0;
     Backend.meta_QuoteID := 0; Backend.meta_ReplyID := 0;
     Backend.meta_ConversationID := tweet; Backend.meta_Date := "2025-01-02";
     Backend.meta_Author := {| Backend.author_ID := 7; Backend.author_Name := "alice";
                               Backend.author_Nick := "Alice" |};
     Backend.meta_Content := text; Backend.meta_Lang := "en";
     Backend.meta_Hashtags := []; Backend.meta_FavoriteCount := 0;
     Backend.meta_RetweetCount := 0; Backend.meta_QuoteCount := 0;
     Backend.meta_ReplyCount := 0; Backend.meta_BookmarkCount := 0;
     Backend.meta_ViewCount := 0; Backend.meta_Sensitive := false |}.

(** A decoder that finds one video and the metadata of two tweets, the
    first the tweet of the video, and a cursor. *)
Definition decodesTweets (_ : string) : string + Backend.CLIResponse Backend.CLIItems :=
  inr {| Backend.Payload :=
           {| Backend.cli_Media := [aliceVideo];
              Backend.cli_Metadata := [aliceTweet 1 "clip"; aliceTweet 2 "hello"] |};
         Backend.CliCursor := "cursor-1";
         Backend.CliCompleted := false |}.

Definition textRequest : Backend.TimelineRequest :=
  {| Backend.Username := "alice"; Backend.AuthToken := "token";
     Backend.TimelineType := "timeline"; Backend.ReqBatchSize := 200;
     Backend.ReqPage := 0; Backend.MediaType := "text";
     Backend.Retweets := false; Backend.ReqCursor := EmptyString |}.

Definition textRange : Backend.DateRangeRequest :=
  {| Backend.dr_Username := "alice"; Backend.dr_AuthToken := "token";
     Backend.StartDate := "2025-01-01"; Backend.EndDate := "2025-01-31";
     Backend.MediaFilter := " Text "; Backend.dr_Retweets := false |}.

(** A run of the extractor that printed an object. *)
Definition printedObject : Backend.Execution :=
  {| Backend.failed := false; Backend.output := "[twitter] {}" |}.

(** The text entry of tweet 2, as the conversion builds it. *)
Definition helloEntry : Backend.TimelineEntry :=
  {| Backend.url := EmptyString; Backend.date := "2025-01-02";
     Backend.tweet_id := 2; Backend.type := "text";
     Backend.is_retweet := false; Backend.extension := "txt";
     Backend.width := 0; Backend.height := 0;
     Backend.content := "hello";
     Backend.view_count := 0; Backend.bookmark_count := 0;
     Backend.favorite_count := 0; Backend.retweet_count := 0;
     Backend.reply_count := 0;
     Backend.source := EmptyString; Backend.verified := false;
     Backend.original_filename := EmptyString;
     Backend.author_username := "alice" |}.

(** What [ExtractTimeline] answers to [textRequest] when the extractor
    printed what [decodesTweets] finds. *)
Definition textResponse : Backend.TwitterResponse :=
  {| Backend.AccountInfo_ := alice;
     Backend.TotalURLs := 1;
     Backend.Timeline := [helloEntry];
     Backend.Metadata := {| Backend.NewEntries := 1; Backend.Page := 0;
                            Backend.BatchSize := 200; Backend.HasMore := true;
                            Backend.MetaCursor := "cursor-1";
                            Backend.MetaCompleted := false |};
     Backend.Cursor := "cursor-1";
     Backend.Completed := false |}.

(** A date-range fetch of alice for January 2025 over the checkpoint that
    [stoppedAfterFirst] left. *)
Definition rangeOverCheckpoint
    : option (RangeResult * list DateRangeRequest * World) :=
  handleFetchDateRange batchMode false fetchAlice true
    (Some "2025-01-01") (Some "2025-01-31") 100 (answers 1000 lastBatch)
    stoppedAfterFirst.2.

Definition rangeOutcome : RangeResult * list DateRangeRequest * World :=
  default (RangeRefused EmptyString, [], idle) rangeOverCheckpoint.

(** The double quote of JSON. *)
Definition quoted (s : string) : string :=
  String (ascii_of_N 34) (s +:+ String (ascii_of_N 34) EmptyString).

(** The object the extractor prints for a page without items that is not
    the last one. *)
Definition emptyPageJSON : string :=
  "{" +:+ quoted "media" +:+ ":[]," +:+ quoted "metadata" +:+ ":[],"
      +:+ quoted "cursor" +:+ ":" +:+ quoted "cursor-1" +:+ "}".

Definition emptyPage : Backend.CLIResponse Backend.CLIItems :=
  {| Backend.Payload := {| Backend.cli_Media := []; Backend.cli_Metadata := [] |};
     Backend.CliCursor := "cursor-1";
     Backend.CliCompleted := false |}.

(** [json.Unmarshal] as far as this object goes. *)
Definition decodesEmptyPage (jsonStr : string)
    : string + Backend.CLIResponse Backend.CLIItems :=
  if String.eqb jsonStr emptyPageJSON then inr emptyPage
  else inl "invalid character".

Definition emptyPageRun : Backend.Execution :=
  {| Backend.failed := false;
     Backend.output := "[twitter][info] alice" +:+ String Str.newline emptyPageJSON |}.

(** What [ExtractTimeline] answers to it. *)
Definition emptyPageResponse : Backend.TwitterResponse :=
  {| Backend.AccountInfo_ := Backend.accountOf "alice";
     Backend.TotalURLs := 0;
     Backend.Timeline := [];
     Backend.Metadata := {| Backend.NewEntries := 0; Backend.Page := 0;
                            Backend.BatchSize := 200; Backend.HasMore := true;
                            Backend.MetaCursor := "cursor-1";
                            Backend.MetaCompleted := false |};
     Backend.Cursor := "cursor-1";
     Backend.Completed := false |}.

(** That answer as the frontend parses it. *)
Definition emptyPageParsed : Parsed :=
  ofBackend (Backend.nilTimeline aliceRequest (Backend.Payload emptyPage))
    emptyPageResponse.

(** The ids drawn for new accounts: one more sign for each. *)
Definition numbered (i : nat) : string :=
  string_of_list_ascii (repeat "#"%char (S i)).

(** Names selected in the database view, the first one listed already. *)
Definition selectedNames : list string := ["@Alice"; "https://x.com/bob"].

(** A file of user names with a blank line. *)
Definition importedText : string :=
  "alice" +:+ String Str.newline (String Str.newline " @bob ").

End Samples.

(* ===================================================================== *)
(** * Part II: properties                                                  *)
(* ===================================================================== *)

Import Str Frontend Spec Runs Samples.

(** ** Checks on small inputs *)

Example Split_lines :
  Split ("info" +:+ String newline "error: x") newline = ["info"; "error: x"].
Proof. reflexivity. Qed.

Example TrimSpace_both_ends : TrimSpace "  rate limit  " = "rate limit".
Proof. reflexivity. Qed.

Example Index_absent : Index "no brace" "{" = (-1)%Z.
Proof. reflexivity. Qed.

Example parseExtractorError_rate_limited :
  Backend.parseExtractorError
    ("[twitter][info] start" +:+ String newline "  ERROR: HTTP 429 Too Many Requests ")
    "alice"
  = "ERROR: HTTP 429 Too Many Requests [Hint: Wait 5-15 minutes before retrying]".
Proof. reflexivity. Qed.

Example parseExtractorError_not_found :
  Backend.parseExtractorError "NotFoundError: 404" "alice"
  = "NotFoundError: 404 [Hint: @alice may not exist or is suspended]".
Proof. reflexivity. Qed.

Example extractJSON_nested :
  Backend.extractJSON "note {a{b}c} rest }" = "{a{b}c}".
Proof. reflexivity. Qed.

Example extractJSON_unbalanced : Backend.extractJSON "log {{}" = EmptyString.
Proof. reflexivity. Qed.

(** Two media of one tweet are both kept; a text entry is known by its
    tweet id alone. *)
Example mergeTimelines_two_media :
  mergeTimelines [photo 1 "https://pbs.twimg.com/media/A"]
    [photo 1 "https://pbs.twimg.com/media/A"; photo 1 "https://pbs.twimg.com/media/B";
     textTweet 1 "hello"]
  = [photo 1 "https://pbs.twimg.com/media/A"; photo 1 "https://pbs.twimg.com/media/B";
     textTweet 1 "hello"].
Proof. by vm_compute. Qed.

Example mergeTimelines_same_text :
  mergeTimelines [textTweet 5 "first"] [textTweet 5 "again"] = [textTweet 5 "first"].
Proof. by vm_compute. Qed.

Example isAuthError_hint :
  isAuthError "HTTP 403 [Hint: Auth token may be invalid or expired]" = true
  ∧ isAuthError "HTTP 429 [Hint: Wait 5-15 minutes before retrying]" = false.
Proof. by vm_compute. Qed.

(** ** The Timeline Merge Engine *)

Section Merge.
Implicit Types existing incoming : list TimelineEntry.

Lemma identity_seen existing e :
  identity e ∈ identitySet existing ↔ ∃ e', e' ∈ existing ∧ identity e' = identity e.
Proof.
  unfold identitySet. rewrite elem_of_list_to_set, list_elem_of_fmap.
  split; intros (e' & H1 & H2); exists e'; auto.
Qed.

Lemma mergeTimelines_covers existing incoming e :
  e ∈ incoming → identity e ∈ identitySet (mergeTimelines existing incoming).
Proof.
  intros Hin. unfold mergeTimelines.
  destruct (decide (identity e ∈ identitySet existing)) as [Hseen | Hnew].
  - apply identity_seen in Hseen as (e' & He' & Hid).
    apply identity_seen. exists e'. split; [|done].
    apply elem_of_app. by left.
  - apply identity_seen. exists e. split; [|done].
    apply elem_of_app. right. by apply list_elem_of_filter.
Qed.

Lemma nothing_new existing incoming :
  (∀ e, e ∈ incoming → identity e ∈ identitySet existing) →
  mergeTimelines existing incoming = existing.
Proof.
  intros Hall. unfold mergeTimelines.
  assert (filter (λ e, identity e ∉ identitySet existing) incoming = []) as ->.
  { induction incoming as [|e rest IH]; [done|].
    rewrite filter_cons. destruct (decide _) as [Hnew | _].
    - exfalso. apply Hnew, Hall. by left.
    - apply IH. intros e' He'. apply Hall. by right. }
  by rewrite app_nil_r.
Qed.

End Merge.

(** C7. Merging the same batch a second time changes nothing: for all
    entry sequences [A] and [B], [merge (merge A B) B = merge A B]; the
    entries merged before stay where they were, as a prefix of the result. *)
Theorem mergeTimelines_idempotent (A B : list TimelineEntry) :
  mergeTimelines (mergeTimelines A B) B = mergeTimelines A B
  ∧ A `prefix_of` mergeTimelines A B
  ∧ mergeTimelines A B `prefix_of` mergeTimelines (mergeTimelines A B) B.
Proof.
  assert (mergeTimelines (mergeTimelines A B) B = mergeTimelines A B) as Hidem.
  { apply nothing_new. intros e He. by apply mergeTimelines_covers. }
  split; [exact Hidem|]. split.
  - unfold mergeTimelines. by eexists.
  - by rewrite Hidem.
Qed.

(** ** Strings *)

Section Strings.
Implicit Types s t pre post : string.

Lemma append_cons (c : ascii) s t : String c s +:+ t = String c (s +:+ t).
Proof. reflexivity. Qed.

Lemma append_nil_l s : EmptyString +:+ s = s.
Proof. reflexivity. Qed.

Lemma append_nil_r s : s +:+ EmptyString = s.
Proof. induction s as [|c s IH]; [done|]. by rewrite append_cons, IH. Qed.

Lemma append_assoc s t u : (s +:+ t) +:+ u = s +:+ t +:+ u.
Proof. induction s as [|c s IH]; [done|]. by rewrite !append_cons, IH. Qed.

Lemma length_append s t :
  String.length (s +:+ t) = String.length s + String.length t.
Proof. induction s as [|c s IH]; [done|]. rewrite append_cons. simpl. by rewrite IH. Qed.

Lemma HasPrefix_char (c d : ascii) s :
  HasPrefix (String c s) (String d EmptyString) = Ascii.eqb c d.
Proof.
  unfold HasPrefix. simpl. destruct (ascii_dec d c) as [->|Hne].
  - rewrite Ascii.eqb_refl. by destruct s.
  - symmetry. apply Ascii.eqb_neq. congruence.
Qed.

Lemma prefix_nil s : String.prefix EmptyString s = true.
Proof. by destruct s. Qed.

Lemma HasPrefix_append s t : HasPrefix (s +:+ t) s = true.
Proof.
  unfold HasPrefix. induction s as [|c s IH]; [apply prefix_nil|].
  rewrite append_cons. simpl. by destruct (ascii_dec c c).
Qed.

Lemma from_append pre s : from (String.length pre) (pre +:+ s) = s.
Proof. induction pre as [|c pre IH]; [by destruct s|]. by rewrite append_cons. Qed.

Lemma substring_prefix s t : String.substring 0 (String.length s) (s +:+ t) = s.
Proof.
  induction s as [|c s IH]; [by destruct t|].
  rewrite append_cons. simpl. by rewrite IH.
Qed.

Lemma substring_skip pre s n :
  String.substring (String.length pre) n (pre +:+ s) = String.substring 0 n s.
Proof. induction pre as [|c pre IH]; [done|]. by rewrite append_cons. Qed.

Lemma slice_middle pre s post :
  slice (pre +:+ s +:+ post) (String.length pre) (String.length pre + String.length s) = s.
Proof.
  unfold slice. rewrite substring_skip.
  replace (String.length pre + String.length s - String.length pre)
    with (String.length s) by lia.
  apply substring_prefix.
Qed.

Lemma HasPrefix_split s p :
  HasPrefix s p = true → s = p +:+ from (String.length p) s.
Proof.
  unfold HasPrefix. revert s. induction p as [|a p IH]; intros s; [done|].
  destruct s as [|b s]; [done|]. simpl.
  destruct (ascii_dec a b) as [<- |]; [|done].
  intros Hp. rewrite append_cons. f_equal. by apply IH.
Qed.

Lemma ToLower_append s t : ToLower (s +:+ t) = ToLower s +:+ ToLower t.
Proof. induction s as [|ch s IH]; [done|]. rewrite !append_cons. simpl. by rewrite IH. Qed.

End Strings.

(** ** [extractJSON] and the errors of [ExtractTimeline] *)

Section ExtractJSON.
Import Backend.
Implicit Types s r output pre post inner : string.

Lemma Contains_cons (c : ascii) s sub :
  Contains (String c s) sub = HasPrefix (String c s) sub || Contains s sub.
Proof. reflexivity. Qed.

Lemma append_char (c : ascii) s : String c EmptyString +:+ s = String c s.
Proof. reflexivity. Qed.

Lemma Index_cons (c : ascii) s sub :
  Index (String c s) sub
  = if HasPrefix (String c s) sub then 0%Z
    else if (Index s sub <? 0)%Z then (-1)%Z else (1 + Index s sub)%Z.
Proof. reflexivity. Qed.

(** [strings.Index] of a brace: either there is none, or the output splits
    at its first one. *)
Lemma Index_brace output :
  (Index output "{" = (-1)%Z ∧ Contains output "{" = false)
  ∨ ∃ pre rest, output = pre +:+ String "{" rest
                ∧ Contains pre "{" = false
                ∧ Index output "{" = Z.of_nat (String.length pre).
Proof.
  induction output as [|c s IH]; [by left|].
  rewrite Index_cons, Contains_cons, HasPrefix_char.
  destruct (Ascii.eqb c "{") eqn:Hc.
  - right. apply Ascii.eqb_eq in Hc as ->. exists EmptyString, s. repeat split.
  - destruct IH as [[Hi Hnone] | (pre & rest & -> & Hpre & Hi)].
    + left. by rewrite Hi, Hnone.
    + right. exists (String c pre), rest. rewrite Hi.
      split; [done|]. split.
      * by rewrite Contains_cons, HasPrefix_char, Hc.
      * destruct (Z.ltb_spec (Z.of_nat (String.length pre)) 0); simpl String.length; lia.
Qed.

Lemma Contains_brace_append pre s :
  Contains pre "{" = false →
  Index (pre +:+ String "{" s) "{" = Z.of_nat (String.length pre).
Proof.
  induction pre as [|c pre IH]; intros Hpre;
    [by rewrite append_nil_l, Index_cons, HasPrefix_char|].
  rewrite Contains_cons, HasPrefix_char in Hpre.
  apply orb_false_iff in Hpre as [Hc Hpre].
  rewrite append_cons, Index_cons, HasPrefix_char, Hc, (IH Hpre).
  destruct (Z.ltb_spec (Z.of_nat (String.length pre)) 0); simpl String.length; lia.
Qed.

Lemma depth_cons (c : ascii) s :
  depth (String c s)
  = ((if Ascii.eqb c "{" then 1 else if Ascii.eqb c "}" then -1 else 0) + depth s)%Z.
Proof. reflexivity. Qed.

(** The loop stops at the first closing brace that brings a positive
    [depth] back to zero. *)
Lemma closingBrace_sound rest i d j :
  (1 ≤ d)%Z →
  closingBrace rest i d = Some j →
  ∃ inner post, rest = inner +:+ String "}" post
                ∧ j = i + String.length inner
                ∧ (d + depth inner = 1)%Z
                ∧ ∀ p q, inner = p +:+ q → (1 ≤ d + depth p)%Z.
Proof.
  revert i d. induction rest as [|c rest IH]; intros i d Hd Hrun; [done|].
  simpl in Hrun.
  destruct (Ascii.eqb c "{") eqn:Hopen; [|destruct (Ascii.eqb c "}") eqn:Hclose].
  - apply IH in Hrun as (inner & post & -> & -> & Hsum & Hpre); [|lia].
    exists (String c inner), post. rewrite depth_cons, Hopen. simpl String.length.
    repeat split; [lia..|].
    intros [|c' p] q Heq; [simpl; lia|].
    rewrite append_cons in Heq. injection Heq as -> Heq.
    rewrite depth_cons, Hopen. specialize (Hpre _ _ Heq). lia.
  - destruct (Z.eqb_spec (d - 1) 0) as [Hzero | Hmore].
    + injection Hrun as <-. apply Ascii.eqb_eq in Hclose as ->.
      exists EmptyString, rest. simpl. repeat split; [lia..|].
      intros [|c' p] q Heq; [simpl; lia | done].
    + apply IH in Hrun as (inner & post & -> & -> & Hsum & Hpre); [|lia].
      exists (String c inner), post. rewrite depth_cons, Hopen, Hclose.
      simpl String.length. repeat split; [lia..|].
      intros [|c' p] q Heq; [simpl; lia|].
      rewrite append_cons in Heq. injection Heq as -> Heq.
      rewrite depth_cons, Hopen, Hclose. specialize (Hpre _ _ Heq). lia.
  - apply IH in Hrun as (inner & post & -> & -> & Hsum & Hpre); [|lia].
    exists (String c inner), post. rewrite depth_cons, Hopen, Hclose.
    simpl String.length. repeat split; [lia..|].
    intros [|c' p] q Heq; [simpl; lia|].
    rewrite append_cons in Heq. injection Heq as -> Heq.
    rewrite depth_cons, Hopen, Hclose. specialize (Hpre _ _ Heq). lia.
Qed.

Lemma closingBrace_complete inner post i d :
  (1 ≤ d)%Z →
  (d + depth inner = 1)%Z →
  (∀ p q, inner = p +:+ q → (1 ≤ d + depth p)%Z) →
  closingBrace (inner +:+ String "}" post) i d = Some (i + String.length inner).
Proof.
  revert i d. induction inner as [|c inner IH]; intros i d Hd Hsum Hpre.
  - simpl in *. replace (d - 1 =? 0)%Z with true by (symmetry; apply Z.eqb_eq; lia).
    f_equal. lia.
  - rewrite append_cons. simpl closingBrace. rewrite depth_cons in Hsum.
    assert (∀ p q, inner = p +:+ q →
            (1 ≤ d + (if Ascii.eqb c "{" then 1 else if Ascii.eqb c "}" then -1 else 0)
                 + depth p)%Z) as Hpre'.
    { intros p q Heq. specialize (Hpre (String c p) q).
      rewrite append_cons, depth_cons in Hpre. rewrite Heq in Hpre.
      specialize (Hpre eq_refl). lia. }
    pose proof (Hpre' EmptyString inner eq_refl) as Hfirst. simpl in Hfirst.
    destruct (Ascii.eqb c "{"); [|destruct (Ascii.eqb c "}")].
    + rewrite IH; [simpl; f_equal; lia | lia | lia |].
      intros p q Heq. specialize (Hpre' p q Heq). lia.
    + replace (d - 1 =? 0)%Z with false by (symmetry; apply Z.eqb_neq; lia).
      rewrite IH; [simpl; f_equal; lia | lia | lia |].
      intros p q Heq. specialize (Hpre' p q Heq). lia.
    + rewrite IH; [simpl; f_equal; lia | lia | lia |].
      intros p q Heq. specialize (Hpre' p q Heq). lia.
Qed.

(** [extractJSON] returns the first object of the output when there is one. *)
Lemma extractJSON_complete output r :
  FirstObject output r → extractJSON output = r.
Proof.
  intros (pre & post & -> & Hpre & inner & -> & Hbal & Hnonneg).
  unfold extractJSON. rewrite !append_cons, (Contains_brace_append _ _ Hpre).
  replace (Z.of_nat (String.length pre) =? -1)%Z with false
    by (symmetry; apply Z.eqb_neq; lia).
  rewrite Nat2Z.id, from_append. simpl closingBrace.
  rewrite append_assoc, append_char, closingBrace_complete; [|lia|lia|].
  - rewrite <- (append_char "}" post), <- append_assoc, <- append_cons.
    replace (S (String.length pre) + String.length inner + 1)
      with (String.length pre + String.length (String "{" (inner +:+ "}"))).
    + apply slice_middle.
    + simpl. rewrite length_append. simpl. lia.
  - intros p q Heq. specialize (Hnonneg p q Heq). lia.
Qed.

(** What [extractJSON] returns is that first object, or nothing. *)
Lemma extractJSON_sound output :
  FirstObject output (extractJSON output)
  ∨ (extractJSON output = EmptyString ∧ NoObject output).
Proof.
  assert (extractJSON output = EmptyString ∨ FirstObject output (extractJSON output))
    as [Hempty | Hfound]; [| |by left].
  - unfold extractJSON.
    destruct (Index_brace output) as [[-> _] | (pre & rest & -> & Hpre & ->)];
      [by left|].
    replace (Z.of_nat (String.length pre) =? -1)%Z with false
      by (symmetry; apply Z.eqb_neq; lia).
    rewrite Nat2Z.id, from_append. simpl closingBrace.
    destruct (closingBrace rest _ _) as [j|] eqn:Hrun; [right | by left].
    apply closingBrace_sound in Hrun as (inner & post & -> & -> & Hsum & Hnonneg);
      [|lia].
    assert (slice (pre +:+ String "{" (inner +:+ String "}" post))
              (String.length pre) (S (String.length pre) + String.length inner + 1)
            = String "{" (inner +:+ "}")) as ->.
    { replace (S (String.length pre) + String.length inner + 1)
        with (String.length pre + String.length (String "{" (inner +:+ "}")))
        by (simpl; rewrite length_append; simpl; lia).
      replace (pre +:+ String "{" (inner +:+ String "}" post))
        with (pre +:+ String "{" (inner +:+ "}") +:+ post)
        by (by rewrite append_cons, append_assoc).
      apply slice_middle. }
    exists pre, post. split; [by rewrite append_cons, append_assoc|].
    split; [done|]. exists inner. split; [done|]. split; [lia|].
    intros p q Heq. specialize (Hnonneg p q Heq). lia.
  - right. split; [done|]. intros r Hr.
    pose proof (extractJSON_complete _ _ Hr) as Heq. rewrite Hempty in Heq.
    subst r. by destruct Hr as (? & ? & _ & _ & ? & ? & _).
Qed.

Lemma Contains_append s t sub : Contains t sub = true → Contains (s +:+ t) sub = true.
Proof.
  intros Ht. induction s as [|ch s IH]; [by rewrite append_nil_l|].
  rewrite append_cons, Contains_cons, IH. apply orb_true_r.
Qed.

Lemma Contains_append_r pre s sub :
  HasPrefix s sub = true → Contains (pre +:+ s) sub = true.
Proof.
  intros Hs. induction pre as [|ch pre IH].
  - rewrite append_nil_l. destruct s; cbn [Contains]; by rewrite Hs.
  - rewrite append_cons, Contains_cons, IH. apply orb_true_r.
Qed.

End ExtractJSON.



(** ** [parseExtractorError] *)

Section ParseExtractorError.
Import Backend.
Implicit Types s line output d : string.

Lemma TrimRight_blank s : TrimRight s = EmptyString → blank s = true.
Proof.
  induction s as [|c s IH]; [done|]. simpl.
  destruct (TrimRight s); [|done].
  destruct (isSpace c); [|done]. intros _. by rewrite IH.
Qed.

Lemma TrimLeft_blank s : blank (TrimLeft s) = true → blank s = true.
Proof.
  induction s as [|c s IH]; [done|]. simpl.
  destruct (isSpace c) eqn:Hc; [auto|]. simpl. by rewrite Hc.
Qed.

Lemma TrimSpace_blank s : TrimSpace s = EmptyString → blank s = true.
Proof. intros H. by apply TrimLeft_blank, TrimRight_blank. Qed.

Lemma lowerByte_space (c : ascii) : isSpace c = true → lowerByte c = c.
Proof. destruct c as [[] [] [] [] [] [] [] []]; by vm_compute. Qed.

(** A blank line holds no word that starts with a letter. *)
Lemma blank_no_word s (a : ascii) word :
  isSpace a = false → blank s = true →
  Contains (ToLower s) (String a word) = false.
Proof.
  intros Ha. induction s as [|c s IH]; [done|]. simpl blank.
  intros [Hc Hs]%andb_true_iff. simpl ToLower.
  rewrite Contains_cons, (IH Hs), orb_false_r.
  unfold HasPrefix. simpl. rewrite (lowerByte_space _ Hc).
  destruct (ascii_dec a c) as [->|]; [congruence | done].
Qed.




Lemma hintOf_KnownHint output username : KnownHint username (hintOf output username).
Proof.
  unfold hintOf, KnownHint.
  repeat match goal with
         | |- context [if ?b then _ else _] => destruct b
         end;
    set_solver.
Qed.

End ParseExtractorError.

Section Hints.
Import Backend.
Implicit Types s sub word output : string.





End Hints.




(** ** The account list of the scheduler *)

Section Accounts.
Implicit Types accs : list MultipleAccount.

Lemma find_setAccount i (f : MultipleAccount → MultipleAccount) accs :
  (∀ acc, id (f acc) = id acc) →
  List.find (λ acc, String.eqb (id acc) i) (setAccount i f accs)
  = f <$> List.find (λ acc, String.eqb (id acc) i) accs.
Proof.
  intros Hid. induction accs as [|acc accs IH]; [done|]. simpl.
  destruct (String.eqb (id acc) i) eqn:Hi; simpl.
  - by rewrite Hid, Hi.
  - by rewrite Hi.
Qed.

Lemma statusOf_setAccount i f accs :
  (∀ acc, id (f acc) = id acc) →
  statusOf i (setAccount i f accs)
  = (status ∘ f) <$> List.find (λ acc, String.eqb (id acc) i) accs.
Proof.
  intros Hid. unfold statusOf. rewrite find_setAccount by done.
  by destruct (List.find _ accs).
Qed.

Lemma statusOf_withStatus i s accs :
  is_Some (statusOf i accs) → statusOf i (setAccount i (withStatus s) accs) = Some s.
Proof.
  intros [s0 Hs0]. rewrite statusOf_setAccount by done.
  unfold statusOf in Hs0. by destruct (List.find _ accs).
Qed.

Lemma statusOf_present i f accs :
  (∀ acc, id (f acc) = id acc) →
  is_Some (statusOf i accs) → is_Some (statusOf i (setAccount i f accs)).
Proof.
  intros Hid [s0 Hs0]. rewrite statusOf_setAccount by done.
  unfold statusOf in Hs0. destruct (List.find _ accs); [by eexists | done].
Qed.

End Accounts.

(** ** The loop of the scheduler *)

Section AccountLoop.
Variable c : AccountCtx.

Lemma accountLoop_eq script l previous accs w :
  accountLoop c script l previous accs w
  = if hasMore l && negb (stopAllRef w) then
      if accountStopped (accountId c) w then
        {| thrown := None; locals := l; accounts := accs;
           world := saveOnAccountStop c l w; rest := script |}
      else
        let w := emit (EvCall (accountRequest c l)) w in
        match script with
        | [] => {| thrown := Some scriptExhausted; locals := l; accounts := accs;
                   world := w; rest := [] |}
        | step :: script' =>
            let w := awaitAccount (accountId c) step w in
            match reply step with
            | inl err => {| thrown := Some err; locals := l; accounts := accs;
                            world := w; rest := script' |}
            | inr data =>
                let '(l', accs, w) := accountBatch c l previous data accs w in
                accountLoop c script' l' (length (allTimeline l')) accs w
            end
        end
    else {| thrown := None; locals := l; accounts := accs; world := w;
            rest := script |}.
Proof. by destruct script. Qed.

Lemma accountBatch_spec l previous data accs w l' accs' w' :
  accountBatch c l previous data accs w = (l', accs', w') →
  allTimeline l' = mergeTimelines (allTimeline l) (timeline data)
  ∧ hasMore l' = hasMoreOf data
  ∧ (is_Some (statusOf (accountId c) accs) →
     is_Some (statusOf (accountId c) accs')).
Proof.
  unfold accountBatch, mergeBatch. intros [= <- <- <-].
  repeat split. intros H. by apply statusOf_present.
Qed.

(** The loop keeps the account in the list, consumes a prefix of the script
    and, unless it throws, ends with the merge of the batches it consumed. *)
Lemma accountLoop_run script l previous accs w :
  is_Some (statusOf (accountId c) accs) →
  let r := accountLoop c script l previous accs w in
  is_Some (statusOf (accountId c) (accounts r))
  ∧ ∃ consumed,
      script = consumed ++ rest r
      ∧ (thrown r = None →
         allTimeline (locals r) = mergedThrough (allTimeline l) consumed).
Proof.
  revert l previous accs w.
  induction script as [|step script IH]; intros l previous accs w Hacc;
    rewrite accountLoop_eq;
    (destruct (hasMore l && negb (stopAllRef w));
     [destruct (accountStopped _ w)|]);
    try (simpl; (split; [done|]); by exists []).
  cbv zeta. destruct (reply step) as [err | data] eqn:Hreply.
  - simpl. split; [done|]. by exists [step].
  - destruct (accountBatch _ _ _ _ _ _) as [[l' accs'] w'] eqn:Hbatch.
    apply accountBatch_spec in Hbatch as (Hitems & _ & Hkeeps).
    destruct (IH l' (length (allTimeline l')) accs' w' (Hkeeps Hacc))
      as [Hpresent (consumed & Hscript & Hmerged)].
    split; [exact Hpresent|].
    exists (step :: consumed). split; [simpl; by rewrite <- Hscript|].
    intros Hthrown. rewrite (Hmerged Hthrown), Hitems.
    unfold mergedThrough. simpl. by rewrite Hreply.
Qed.

End AccountLoop.

(** The status of a turn of the queue whose loop ended without exception:
    at its timeout, at a user stop or with more data pending the account is
    shown as failed exactly when no item was fetched for it in this run, and
    as incomplete otherwise; it is shown as completed only when the loop
    ended with nothing more to fetch, no timeout and no stop. An adapter
    failure whose text tells of an authentication problem makes it failed. *)
Theorem fetchAccount_classifies (settings : Settings)
    (authToken fetchedMediaType : string) (account : MultipleAccount)
    (script : list AdapterStep) (accs : list MultipleAccount) (w : World) :
  is_Some (statusOf (id account) accs) →
  ∃ ending accs' w' later consumed,
    fetchAccount settings authToken fetchedMediaType account script accs w
    = (ending, accs', w', later)
    ∧ script = consumed ++ later
    ∧ match ending with
      | Left l =>
          allTimeline l = mergedThrough [] consumed
          ∧ (accountStopped (id account) w' || stopAllRef w' || hasMore l = true →
             (statusOf (id account) accs' = Some Failed
              ∧ length (allTimeline l) = 0)
             ∨ (statusOf (id account) accs' = Some Incomplete
                ∧ 0 < length (allTimeline l)))
          ∧ (accountStopped (id account) w' || stopAllRef w' || hasMore l = false →
             statusOf (id account) accs' = Some Completed)
      | Raised errorMsg =>
          (isAuthError errorMsg = true → statusOf (id account) accs' = Some Failed)
          ∧ statusOf (id account) accs' ≠ Some Completed
      | Skipped =>
          statusOf (id account) accs' ≠ Some Completed
      end.
Proof.
  intros Hacc. unfold fetchAccount.
  remember (accountCtxOf settings authToken fetchedMediaType account) as c eqn:Hc.
  assert (id account = accountId c) as Hid by by subst c.
  rewrite Hid in *. clear Hid Hc. cbv zeta.
  remember (withAccountStopFlags _ w) as w1 eqn:Hw1.
  assert (is_Some (statusOf (accountId c)
            (setAccount (accountId c) (withStatus Fetching) accs))) as Hfetching
    by by apply statusOf_present.
  destruct (stopAllRef w1) eqn:Hall.
  - eexists Skipped, _, _, _, []. split; [done|]. split; [done|].
    rewrite statusOf_setAccount by done.
    destruct Hfetching as [s Hs]. unfold statusOf in Hs.
    destruct (List.find _ _) as [acc|]; [|done]. simpl.
    unfold statusByCount. by destruct (mediaCount acc =? 0).
  - destruct (accountLoop_run c script
                {| cur := None; allTimeline := []; accountInfo := None;
                   hasMore := true; page := 0 |}
                (mediaCount account) _ w1 Hfetching)
      as [Hpresent (consumed & Hscript & Hmerged)].
    destruct (accountLoop c script _ _ _ w1) as [failure l accs1 w2 later].
    simpl in *. destruct failure as [errorMsg|].
    + destruct Hpresent as [s Hs]. unfold statusOf in Hs.
      destruct (List.find _ accs1) as [acc|] eqn:Hfind; [|done].
      eexists (Raised errorMsg), _, _, _, consumed.
      split; [done|]. split; [done|].
      rewrite statusOf_setAccount, Hfind by done. simpl. unfold errorStatus.
      split; [by intros ->|]. by destruct (_ || _).
    + eexists (Left l), _, _, _, consumed.
      split; [done|]. split; [done|]. split; [by apply Hmerged|].
      rewrite statusOf_withStatus by done.
      unfold accountStopped. simpl.
      unfold finalStatus, statusByCount.
      destruct (default false _), (stopAllRef w2), (hasMore l); simpl;
        destruct (length (allTimeline l)) eqn:Hlen; simpl; split; try done;
        intros _; try (left; by split); try (right; split; [done | lia]).
Qed.

(** Alice alone in the queue, against the adapter of two batches. *)
Lemma fetchAccount_classifies_witness :
  ∃ ending accs' w' later consumed,
    fetchAccount batchMode "token" "all" aliceTask twoBatches [aliceTask] idle
    = (ending, accs', w', later)
    ∧ twoBatches = consumed ++ later
    ∧ match ending with
      | Left l =>
          allTimeline l = mergedThrough [] consumed
          ∧ (accountStopped (id aliceTask) w' || stopAllRef w' || hasMore l = true →
             (statusOf (id aliceTask) accs' = Some Failed
              ∧ length (allTimeline l) = 0)
             ∨ (statusOf (id aliceTask) accs' = Some Incomplete
                ∧ 0 < length (allTimeline l)))
          ∧ (accountStopped (id aliceTask) w' || stopAllRef w' || hasMore l = false →
             statusOf (id aliceTask) accs' = Some Completed)
      | Raised errorMsg =>
          (isAuthError errorMsg = true → statusOf (id aliceTask) accs' = Some Failed)
          ∧ statusOf (id aliceTask) accs' ≠ Some Completed
      | Skipped =>
          statusOf (id aliceTask) accs' ≠ Some Completed
      end.
Proof.
  apply (fetchAccount_classifies batchMode "token" "all" aliceTask twoBatches
           [aliceTask] idle).
  vm_compute. by eexists.
Defined.

(** C3 at the failing input: the same account fetched twice by the
    scheduler. The first run ends completed with three items and leaves
    their count in [accountMediaCountRef], which no run clears at its start.
    In the second run the first call fails, on a text that tells of no
    authentication problem: nothing is fetched in this run, one call is made
    and nothing merged, yet the account is shown as incomplete with three
    items. On the clean ref of a first run the same failure shows it as
    failed. *)
Theorem stale_count_marks_incomplete :
  statusOf "task-1" fetchedInQueue.1 = Some Completed
  ∧ accountMediaCountRef fetchedInQueue.2 !! "task-1" = Some 3
  ∧ isAuthError "connection reset" = false
  ∧ (let r := handleFetchAll batchMode (Some "token") "all" fetchedInQueue.1
                [fails 1000 "connection reset"] fetchedInQueue.2 in
     (∃ req, trace r.2 = trace fetchedInQueue.2 ++ [EvCall req])
     ∧ statusOf "task-1" r.1 = Some Incomplete
     ∧ mediaCount <$> r.1 = [3]
     ∧ error <$> r.1 = [Some "connection reset"])
  ∧ (let r := handleFetchAll batchMode (Some "token") "all" [aliceTask]
                [fails 1000 "connection reset"] idle in
     (∃ req, trace r.2 = trace idle ++ [EvCall req])
     ∧ statusOf "task-1" r.1 = Some Failed
     ∧ mediaCount <$> r.1 = [0]).
Proof.
  split; [by vm_compute|]. split; [by vm_compute|]. split; [by vm_compute|].
  split.
  - vm_compute. split; [by eexists|]. by repeat split.
  - vm_compute. split; [by eexists|]. by repeat split.
Qed.

(** ** Where a retry resumes *)

Section Retry.
Implicit Types (account : MultipleAccount) (w : World).

Lemma truthy_Some_default (o : option string) :
  truthy o = true → Some (default EmptyString o) = o.
Proof. by destruct o. Qed.

Lemma presentCursor_truthy (o : option string) :
  truthy o = true → presentCursor o = o.
Proof. unfold presentCursor. by intros ->. Qed.

Lemma presentCursor_falsy (o : option string) :
  truthy o = false → presentCursor o = None.
Proof. unfold presentCursor. by intros ->. Qed.

Lemma getFetchState_clear key w :
  getFetchState key (clearCursor key (clearFetchState key w)) = None.
Proof. unfold getFetchState. simpl. apply lookup_delete_eq. Qed.

Lemma getCursor_clear key w :
  getCursor key (clearCursor key (clearFetchState key w)) = None.
Proof. unfold getCursor. simpl. apply lookup_delete_eq. Qed.

End Retry.

Ltac resume_done :=
  repeat split; try done;
  auto using getFetchState_clear, getCursor_clear;
  try (intros _; by eexists);
  try (intros H0 H1 H2 H3; rewrite ?H1, ?H2, ?H3 in *; simpl in *; done).

(** The branches of [resumePoint] follow the order of the candidates. *)
Lemma resumePoint_order (account : MultipleAccount)
    (db : option (list DbAccount)) (w : World) :
  let key := TrimSpace (acc_username account) in
  let s := resumePoint account db w in
  (source s, presentCursor (start_cursor s))
    = firstPresent (resumeCandidates account db w)
  ∧ (source s = FromFetchState →
     ∃ st, getFetchState key w = Some st
           ∧ fs_completed st = false
           ∧ start_cursor s = Some (fs_cursor st)
           ∧ start_timeline s = fs_timeline st
           ∧ start_accountInfo s = fs_accountInfo st)
  ∧ (source s ≠ FromFetchState →
     start_timeline s = [] ∧ start_accountInfo s = None)
  ∧ (source s = FromBeginning →
     truthy (start_cursor s) = false
     ∧ getFetchState key (start_world s) = None
     ∧ getCursor key (start_world s) = None)
  ∧ (source s ≠ FromBeginning →
     fetchStates (start_world s) = fetchStates w
     ∧ cursors (start_world s) = cursors w)
  ∧ (getFetchState key w = None → acc_cursor account = None →
     getCursor key w = None → databaseCursor key db = None →
     source s = FromBeginning
     ∧ start_cursor s = None
     ∧ start_timeline s = []).
Proof.
  intros key s. subst s. unfold resumePoint, firstPresent, resumeCandidates,
    checkpointCursor, databaseCursor, presentCursor.
  fold key.
  destruct (getFetchState key w) as [st|] eqn:Hstate;
    [destruct (fs_completed st) eqn:Hdone;
     destruct (String.eqb (fs_cursor st) EmptyString) eqn:Hcur|];
    (destruct (acc_cursor account) as [ac|] eqn:Hac;
     [destruct (String.eqb ac EmptyString) eqn:Hac0|]);
    (destruct (getCursor key w) as [sc|] eqn:Hsc;
     [destruct (String.eqb sc EmptyString) eqn:Hsc0|]);
    (destruct db as [accounts|];
     [destruct (findDbAccount key accounts) as [dbAccount|] eqn:Hfind;
      [destruct (String.eqb (db_cursor dbAccount) EmptyString) eqn:Hdb|]|]);
    repeat (simpl; rewrite ?Hac, ?Hcur, ?Hac0, ?Hsc0, ?Hdb);
    resume_done.
Qed.

(** ** Traces *)

Section Traces.
Implicit Types (tr : list Event) (pending : option (list TimelineEntry)).

Lemma callsOf_app tr1 tr2 : callsOf (tr1 ++ tr2) = callsOf tr1 ++ callsOf tr2.
Proof.
  induction tr1 as [|e tr1 IH]; [done|].
  destruct e; simpl; by rewrite ?IH.
Qed.

Lemma callsOf_quiet tr : forallb quiet tr = true → callsOf tr = [].
Proof.
  induction tr as [|e tr IH]; [done|].
  destruct e; simpl; try done; exact IH.
Qed.

Lemma saved_quiet pending tr1 tr2 :
  forallb quiet tr1 = true →
  savedBeforeNextCall pending (tr1 ++ tr2) = savedBeforeNextCall pending tr2.
Proof.
  induction tr1 as [|e tr1 IH]; [done|].
  destruct e; simpl; try done; exact IH.
Qed.

Lemma saved_no_call pending tr : callsOf tr = [] → savedBeforeNextCall pending tr = true.
Proof.
  revert pending. induction tr as [|e tr IH]; [done|].
  destruct e; simpl; intros pending H; try done; by apply IH.
Qed.


(** A merge followed, after quiet events, by the save of what was merged. *)
Lemma saved_merge pending merged st tr1 tr2 :
  forallb quiet tr1 = true → fs_timeline st = merged →
  savedBeforeNextCall pending (EvMerge merged :: tr1 ++ EvSaveState st :: tr2)
  = savedBeforeNextCall None tr2.
Proof.
  intros Hquiet <-. simpl. rewrite saved_quiet by done. simpl.
  by rewrite bool_decide_eq_true_2.
Qed.

End Traces.

(** ** The loop of [handleFetch] *)

Section FetchLoop.
Variable c : FetchCtx.

Lemma fetchLoop_eq script l w :
  fetchLoop c script l w
  = if hasMore l && negb (stopFetchRef w) then
      if timeoutReached c w then
        (None, l, saveOnStop c l (withStopFetch true w))
      else
        let w := emit (EvCall (requestOf c l)) w in
        match script with
        | [] => (Some scriptExhausted, l, w)
        | step :: script' =>
            let w := awaitFetch step w in
            match reply step with
            | inl err => (Some err, l, w)
            | inr data =>
                let '(l', w') := absorb c l data w in
                fetchLoop c script' l' w'
            end
        end
    else (None, l, w).
Proof. by destruct script. Qed.

(** The batch is merged, then the full state is saved, with the response's
    cursor and completion; the clock and the flags are left alone. *)
Lemma absorb_spec l data w l' w' :
  absorb c l data w = (l', w') →
  l' = {| cur := cursor data;
          allTimeline := mergeTimelines (allTimeline l) (timeline data);
          accountInfo := adoptAccountInfo c (accountInfo l) data;
          hasMore := hasMoreOf data;
          page := (page l + 1)%Z |}
  ∧ now w' = now w
  ∧ stopFetchRef w' = stopFetchRef w
  ∧ fetchStartTimeRef w' = fetchStartTimeRef w
  ∧ getFetchState (cleanUsername c) w' = Some (snapshot c l' (negb (hasMoreOf data)))
  ∧ ∃ before after,
      trace w' = trace w ++ EvMerge (allTimeline l') :: before
                   ++ EvSaveState (snapshot c l' (negb (hasMoreOf data))) :: after
      ∧ forallb quiet before = true
      ∧ forallb quiet after = true.
Proof.
  unfold absorb. intros [= <- <-].
  split; [done|].
  destruct (truthy (cursor data)), (adoptAccountInfo c (accountInfo l) data);
    simpl; repeat split; try done;
    try (unfold getFetchState; simpl; by rewrite lookup_insert_eq).
  - exists [EvSaveCursor (cleanUsername c) (default EmptyString (cursor data))],
           [EvPersist (Backend.name a)
              (length (mergeTimelines (allTimeline l) (timeline data)))
              (orElse (cursor data) EmptyString) (negb (hasMoreOf data))].
    by rewrite <- !app_assoc.
  - exists [EvSaveCursor (cleanUsername c) (default EmptyString (cursor data))], [].
    by rewrite <- !app_assoc.
  - exists [], [EvPersist (Backend.name a)
              (length (mergeTimelines (allTimeline l) (timeline data)))
              (orElse (cursor data) EmptyString) (negb (hasMoreOf data))].
    by rewrite <- !app_assoc.
  - exists [], []. by rewrite <- !app_assoc.
Qed.


Lemma saveOnStop_spec l w :
  ∃ more, trace (saveOnStop c l w) = trace w ++ more
          ∧ callsOf more = []
          ∧ stopFetchRef (saveOnStop c l w) = stopFetchRef w
          ∧ (∀ items, Checkpointed (cleanUsername c) items w → items = allTimeline l →
             Checkpointed (cleanUsername c) items (saveOnStop c l w)).
Proof.
  unfold saveOnStop.
  destruct (accountInfo l) as [info|];
    [destruct (0 <? length (allTimeline l))|];
    try (exists []; rewrite app_nil_r; by repeat split).
  eexists [_; _]. simpl. rewrite <- !app_assoc. repeat split.
  intros items _ ->. eexists. unfold getFetchState. simpl.
  rewrite lookup_insert_eq. by repeat split.
Qed.

Lemma fetchLoop_stops script l w :
  continues c l w = false →
  fetchLoop c script l w
  = if hasMore l && negb (stopFetchRef w)
    then (None, l, saveOnStop c l (withStopFetch true w))
    else (None, l, w).
Proof.
  rewrite fetchLoop_eq. unfold continues.
  by destruct (hasMore l && negb (stopFetchRef w)), (timeoutReached c w).
Qed.

Lemma fetchLoop_goes script l w :
  continues c l w = true →
  fetchLoop c script l w
  = match script with
    | [] => (Some scriptExhausted, l, emit (EvCall (requestOf c l)) w)
    | step :: script' =>
        match reply step with
        | inl err =>
            (Some err, l, awaitFetch step (emit (EvCall (requestOf c l)) w))
        | inr data =>
            let '(l', w') :=
              absorb c l data (awaitFetch step (emit (EvCall (requestOf c l)) w)) in
            fetchLoop c script' l' w'
        end
    end.
Proof.
  rewrite fetchLoop_eq. unfold continues.
  by destruct (hasMore l && negb (stopFetchRef w)), (timeoutReached c w).
Qed.

(** What the loop adds to the trace: it starts with the call of the current
    request exactly when the loop goes on, and every merge in it is saved
    before the next call. *)
Lemma fetchLoop_trace script l w :
  ∃ more,
    trace (fetchLoop c script l w).2 = trace w ++ more
    ∧ savedBeforeNextCall None more = true
    ∧ (continues c l w = false → callsOf more = [])
    ∧ (continues c l w = true →
       ∃ later, callsOf more = requestOf c l :: later).
Proof.
  revert l w. induction script as [|step script IH]; intros l w;
    (destruct (continues c l w) eqn:Hgo;
     [rewrite (fetchLoop_goes _ _ _ Hgo) | rewrite (fetchLoop_stops _ _ _ Hgo)]).
  - exists [EvCall (requestOf c l)]. repeat split; [done|]. intros _. by eexists.
  - destruct (hasMore l && negb (stopFetchRef w)).
    + destruct (saveOnStop_spec l (withStopFetch true w)) as (more & Hmore & Hcalls & _).
      exists more. repeat split; [done | by apply saved_no_call | done..].
    + exists []. simpl. rewrite app_nil_r. by repeat split.
  - destruct (reply step) as [err | data].
    + exists [EvCall (requestOf c l)]. repeat split; [done|]. intros _. by eexists.
    + destruct (absorb c l data _) as [l' w'] eqn:Habsorb.
      apply absorb_spec in Habsorb
        as (_ & _ & _ & _ & _ & before & after & Htrace & Hbefore & Hafter).
      destruct (IH l' w') as (more & Hmore & Hsaved & _ & _).
      exists (EvCall (requestOf c l) :: EvMerge (allTimeline l') :: before
                ++ EvSaveState (snapshot c l' (negb (hasMoreOf data))) :: after ++ more).
      repeat split.
      * rewrite Hmore, Htrace. simpl. rewrite <- !app_assoc. simpl.
        by rewrite <- !app_assoc.
      * simpl. rewrite saved_quiet by done. simpl.
        rewrite bool_decide_eq_true_2 by done.
        by rewrite saved_quiet.
      * done.
      * intros _. by eexists.
  - destruct (hasMore l && negb (stopFetchRef w)).
    + destruct (saveOnStop_spec l (withStopFetch true w)) as (more & Hmore & Hcalls & _).
      exists more. repeat split; [done | by apply saved_no_call | done..].
    + exists []. simpl. rewrite app_nil_r. by repeat split.
Qed.

End FetchLoop.

(** ** Continuation *)

Section Continuation.
Variable c : FetchCtx.

Lemma timeoutReached_same w w' :
  now w' = now w → fetchStartTimeRef w' = fetchStartTimeRef w →
  timeoutReached c w' = timeoutReached c w.
Proof. unfold timeoutReached, elapsedSince. by intros -> ->. Qed.

(** After a batch the loop goes on exactly when the batch has more to come
    and the fetch was not stopped meanwhile. *)
Lemma continues_after_batch l data w l' w' :
  absorb c l data w = (l', w') →
  continues c l' w'
  = hasMoreOf data && negb (stopFetchRef w) && negb (timeoutReached c w).
Proof.
  intros (-> & Hnow & Hstop & Hstart & _)%absorb_spec.
  unfold continues. simpl. by rewrite Hstop, (timeoutReached_same _ _ Hnow Hstart).
Qed.

Lemma callsOf_call req (tr : list Event) :
  callsOf (EvCall req :: tr) = req :: callsOf tr.
Proof. reflexivity. Qed.

Lemma callsOf_batch merged before st after :
  forallb quiet before = true → forallb quiet after = true →
  callsOf (EvMerge merged :: before ++ EvSaveState st :: after) = [].
Proof.
  intros Hb Ha. simpl. rewrite callsOf_app. simpl.
  by rewrite !callsOf_quiet.
Qed.

End Continuation.

(** A response of [ExtractTimeline] carries the cursor and the completion
    the decoder found in the object of the output, has [HasMore] set exactly
    when that cursor is not empty and the completion is not set, and the
    frontend computes the same from its JSON. *)
Lemma ExtractTimeline_hasMore {Items : Type}
    (unmarshal : string → string + Backend.CLIResponse Items)
    (convert : Backend.TimelineRequest → Items
               → Backend.AccountInfo * list Backend.TimelineEntry)
    (ensureExtractor : string + string) (req : Backend.TimelineRequest)
    (run : Backend.Execution) (resp : Backend.TwitterResponse) (isNil : bool) :
  Backend.ExtractTimeline unmarshal convert ensureExtractor req run = inr resp →
  (∃ decoded,
     unmarshal (Backend.extractJSON (Backend.output run)) = inr decoded
     ∧ Backend.Cursor resp = Backend.CliCursor decoded
     ∧ Backend.Completed resp = Backend.CliCompleted decoded)
  ∧ (Backend.HasMore (Backend.Metadata resp) = true
     ↔ Backend.Cursor resp ≠ EmptyString ∧ Backend.Completed resp = false)
  ∧ hasMoreOf (body (ofBackend isNil resp)) = Backend.HasMore (Backend.Metadata resp).
Proof.
  unfold Backend.ExtractTimeline.
  destruct ensureExtractor as [err|exePath]; [done|].
  destruct (Backend.failed run); [done|].
  destruct (String.eqb (Backend.extractJSON (Backend.output run)) EmptyString);
    [by destruct (String.eqb _ _)|].
  destruct (unmarshal _) as [err|cliResponse]; [done|].
  destruct (convert req _) as [accountInfo timeline].
  intros [= <-]. simpl. split; [by exists cliResponse|]. split.
  - by rewrite andb_true_iff, !negb_true_iff, String.eqb_neq.
  - unfold hasMoreOf. simpl.
    destruct (String.eqb (Backend.CliCursor cliResponse) EmptyString) eqn:Hc,
      (Backend.CliCompleted cliResponse); simpl; by rewrite ?Hc.
Qed.

(** After a batch whose timeline is an array, the loop of the session
    issues another call exactly when the batch has more to come and the
    session was not stopped (no stop raised, timeout not reached), the next
    call carrying the cursor of the batch. *)
Lemma fetchLoop_continuation (c : FetchCtx) (step : AdapterStep)
    (script : list AdapterStep) (l : Locals) (w : World) (data : TwitterResponse) :
  continues c l w = true →
  reply step = inr data →
  let w1 := awaitFetch step (emit (EvCall (requestOf c l)) w) in
  ∃ more later,
    trace (fetchLoop c (step :: script) l w).2 = trace w ++ more
    ∧ callsOf more = requestOf c l :: later
    ∧ (later ≠ []
       ↔ hasMoreOf data = true
         ∧ stopFetchRef w1 = false
         ∧ timeoutReached c w1 = false)
    ∧ (∀ next others, later = next :: others → req_cursor next = cursor data).
Proof.
  intros Hgo Hreply w1.
  rewrite (fetchLoop_goes _ _ _ _ Hgo), Hreply. fold w1.
  destruct (absorb c l data w1) as [l' w'] eqn:Habsorb.
  pose proof (continues_after_batch _ _ _ _ _ _ Habsorb) as Hnext.
  apply absorb_spec in Habsorb
    as (Hl' & _ & _ & _ & _ & before & after & Htrace & Hbefore & Hafter).
  destruct (fetchLoop_trace c script l' w') as (more & Hmore & _ & Hstop & Hcall).
  exists (EvCall (requestOf c l) :: (EvMerge (allTimeline l') :: before
            ++ EvSaveState (snapshot c l' (negb (hasMoreOf data))) :: after) ++ more),
         (callsOf more).
  split; [|split; [|split]].
  - rewrite Hmore, Htrace. unfold w1. simpl. rewrite <- !app_assoc. simpl.
    by rewrite <- !app_assoc.
  - by rewrite callsOf_call, callsOf_app, callsOf_batch.
  - destruct (continues c l' w') eqn:Hk.
    + destruct (Hcall eq_refl) as [others ->].
      symmetry in Hnext.
      apply andb_true_iff in Hnext as [[H1 H2%negb_true_iff]%andb_true_iff
                                        H3%negb_true_iff].
      by split.
    + rewrite (Hstop eq_refl). split; [done|].
      intros (H1 & H2 & H3). by rewrite H1, H2, H3 in Hnext.
  - intros next others Hlater.
    destruct (continues c l' w') eqn:Hk.
    + destruct (Hcall eq_refl) as [others' Hcalls].
      rewrite Hcalls in Hlater. injection Hlater as <- _. by rewrite Hl'.
    + by rewrite (Hstop eq_refl) in Hlater.
Qed.

(** Over batches that all carry an array, [handleFetch] over the parsed
    responses is [handleFetch]. *)
Lemma fetchLoopWire_arrays nullLength mergeNull (c : FetchCtx)
    (script : list AdapterStep) (l : Locals) (w : World) :
  fetchLoopWire nullLength mergeNull c (arrays script) l w = fetchLoop c script l w.
Proof.
  revert l w. induction script as [|step script IH]; intros l w; [done|].
  cbn [arrays map fetchLoopWire fetchLoop wire_step wire_null].
  destruct (hasMore l && negb (stopFetchRef w)); [|done].
  destruct (timeoutReached c w); [done|].
  destruct (reply step) as [err | data]; [done|].
  destruct (absorb c l data _) as [l' w']. apply IH.
Qed.

Lemma handleFetchWire_arrays nullLength mergeNull settings loading a cleanupTook
    (script : list AdapterStep) (w : World) :
  handleFetchWire nullLength mergeNull settings loading a cleanupTook
    (arrays script) w
  = handleFetch settings loading a cleanupTook script w.
Proof.
  unfold handleFetchWire, handleFetch. cbv zeta.
  destruct loading; [done|].
  destruct (negb _ && _); [done|].
  destruct (String.eqb _ _); [done|].
  destruct (startOf _ _ _) as [[l w1]|]; [|done].
  by rewrite fetchLoopWire_arrays.
Qed.

(** C2 at the failing input: an empty page with a cursor. The extractor
    prints an object with a cursor, no completion, no media and no metadata;
    [ExtractTimeline] answers with [HasMore] set and a nil timeline, which
    travels as [null]; the frontend too finds more to come, and the session
    was not stopped. Yet the loop of [handleFetch] issues no second call: it
    throws, whatever the engine's message and whatever [mergeTimelines]
    makes of [null], and no checkpoint is written. The same response with
    an empty array in place of [null] is followed by the second call, with
    the cursor of the response. *)
Theorem empty_page_ends_session :
  Backend.ExtractTimeline decodesEmptyPage Backend.toFrontend (inr "extractor")
    aliceRequest emptyPageRun = inr emptyPageResponse
  ∧ Backend.nilTimeline aliceRequest (Backend.Payload emptyPage) = true
  ∧ Backend.Timeline emptyPageResponse = []
  ∧ Backend.HasMore (Backend.Metadata emptyPageResponse) = true
  ∧ cursor (body emptyPageParsed) = Some "cursor-1"
  ∧ hasMoreOf (body emptyPageParsed) = true
  ∧ timelineIsNull emptyPageParsed = true
  ∧ (∀ (nullLength : string)
       (mergeNull : list TimelineEntry → string + list TimelineEntry),
       let r := handleFetchWire nullLength mergeNull batchMode false fetchAlice 100
                  [{| wire_step := answers 1000 (body emptyPageParsed);
                      wire_null := timelineIsNull emptyPageParsed |};
                   {| wire_step := answers 1000 lastBatch; wire_null := false |}]
                  idle in
       (∃ e, r.1 = Threw e ∧ (e = nullLength ∨ mergeNull [] = inl e))
       ∧ callsOf (trace r.2) = [requestOf (contextOf batchMode fetchAlice) freshLocals]
       ∧ stopFetchRef r.2 = false
       ∧ getFetchState "alice" r.2 = None)
  ∧ (let r := handleFetch batchMode false fetchAlice 100
                [answers 1000 (body emptyPageParsed); answers 1000 lastBatch] idle in
     ∃ first second fd,
       callsOf (trace r.2) = [first; second]
       ∧ req_cursor second = Some "cursor-1"
       ∧ r.1 = Fetched (Some fd)
       ∧ fd_completed fd = true).
Proof.
  split; [by vm_compute|]. split; [done|]. split; [done|]. split; [done|].
  split; [done|]. split; [done|]. split; [done|]. split.
  - intros nullLength mergeNull r. subst r.
    assert (∀ merge : string + list TimelineEntry,
              mergeNull [] = merge →
              let r := handleFetchWire nullLength (λ _, merge) batchMode false
                         fetchAlice 100
                         [{| wire_step := answers 1000 (body emptyPageParsed);
                             wire_null := timelineIsNull emptyPageParsed |};
                          {| wire_step := answers 1000 lastBatch;
                             wire_null := false |}] idle in
              (∃ e, r.1 = Threw e ∧ (e = nullLength ∨ mergeNull [] = inl e))
              ∧ callsOf (trace r.2)
                = [requestOf (contextOf batchMode fetchAlice) freshLocals]
              ∧ stopFetchRef r.2 = false
              ∧ getFetchState "alice" r.2 = None) as Hrun.
    { intros [err | merged] ->.
      - vm_compute. split; [exists err; split; [done | by right]|]. by repeat split.
      - vm_compute. split; [exists nullLength; split; [done | by left]|].
        by repeat split. }
    exact (Hrun (mergeNull []) eq_refl).
  - vm_compute. eexists _, _, _. by repeat split.
Qed.

(** ** The timeout of [handleFetch] *)

Section Timeout.
Variable c : FetchCtx.

Lemma Checkpointed_same_store key items w w' :
  fetchStates w' = fetchStates w →
  Checkpointed key items w → Checkpointed key items w'.
Proof.
  intros Hsame (st & Hst & Hitems & Hdone). exists st.
  unfold getFetchState in *. by rewrite Hsame.
Qed.

Lemma timeoutReached_iff w start :
  fetchStartTimeRef w = Some start →
  timeoutReached c w = true ↔ (ctx_timeout c ≤ (now w - start) / 1000)%Z.
Proof.
  intros Hstart. unfold timeoutReached, elapsedSince. rewrite Hstart.
  apply Z.leb_le.
Qed.

(** With the calls of [pre] made within the budget and the budget found
    reached at the next test, the loop stops there: no further call, the
    stop flag set, and the checkpoint of what was merged in the store. *)
Lemma fetchLoop_timeout pre later l w start :
  fetchStartTimeRef w = Some start →
  hasMore l = true →
  stopFetchRef w = false →
  withinBudget (ctx_timeout c) start (now w) pre →
  (ctx_timeout c ≤ (timeAfter (now w) pre - start) / 1000)%Z →
  pre ≠ [] ∨ Checkpointed (cleanUsername c) (allTimeline l) w →
  ∃ l' w' more,
    fetchLoop c (pre ++ later) l w = (None, l', w')
    ∧ trace w' = trace w ++ more
    ∧ length (callsOf more) = length pre
    ∧ stopFetchRef w' = true
    ∧ allTimeline l' = mergedThrough (allTimeline l) pre
    ∧ Checkpointed (cleanUsername c) (allTimeline l') w'.
Proof.
  revert l w. induction pre as [|step pre IH];
    intros l w Hstart Hmore Hstop Hbudget Hreached Hsaved.
  - destruct Hsaved as [? | Hsaved]; [done|].
    simpl in Hreached. apply (timeoutReached_iff _ _ Hstart) in Hreached.
    rewrite fetchLoop_stops by (unfold continues; by rewrite Hreached, andb_false_r).
    rewrite Hmore, Hstop. simpl.
    destruct (saveOnStop_spec c l (withStopFetch true w))
      as (more & Htrace & Hcalls & Hflag & Hkeeps).
    exists l, (saveOnStop c l (withStopFetch true w)), more.
    repeat split; [done | by rewrite Hcalls | done |].
    apply Hkeeps; [|done]. by eapply Checkpointed_same_store.
  - destruct Hbudget as (Hin & Hquiet & (data & Hreply & Hdata) & Hbudget).
    assert (timeoutReached c w = false) as Hnot.
    { apply not_true_is_false. rewrite (timeoutReached_iff _ _ Hstart). lia. }
    rewrite <- app_comm_cons, fetchLoop_goes, Hreply
      by (unfold continues; by rewrite Hmore, Hstop, Hnot).
    destruct (absorb c l data _) as [l1 w1] eqn:Habsorb.
    apply absorb_spec in Habsorb
      as (Hl1 & Hnow & Hflag & Hst & Hstate & before & after & Htrace & Hb & Ha).
    simpl in Hnow, Hflag, Hst, Htrace. rewrite Hstop, Hquiet in Hflag.
    destruct (IH l1 w1) as (l' & w' & more & Hrun & Htrace' & Hcalls & Hstopped
                            & Hitems & Hcheck).
    + by rewrite Hst.
    + by rewrite Hl1.
    + done.
    + by rewrite Hnow.
    + by rewrite Hnow.
    + right. eexists. split; [exact Hstate|]. rewrite Hdata. by rewrite Hl1.
    + exists l', w',
        (EvCall (requestOf c l) :: (EvMerge (allTimeline l1) :: before
           ++ EvSaveState (snapshot c l1 (negb (hasMoreOf data))) :: after) ++ more).
      repeat split; try done.
      * rewrite Htrace', Htrace. rewrite <- !app_assoc. simpl.
        by rewrite <- !app_assoc.
      * rewrite callsOf_call, callsOf_app, callsOf_batch by done. simpl.
        by rewrite Hcalls.
      * rewrite Hitems, Hl1. unfold mergedThrough. simpl. by rewrite Hreply.
Qed.

End Timeout.

(** C1, as the code has it. The loop of a session compares the elapsed
    time with the timeout before each adapter call. When the first calls
    [pre] were made within the budget and the budget is found reached
    before the next one, the session issues no further call and ends not
    completed, with the stop flag set; and, provided it resumed a checkpoint
    or made at least one call, the store holds a checkpoint that is not
    completed and contains exactly the items merged through the last call
    made. What the adapter would have answered next ([later]) plays no
    role. *)
Theorem timeout_stops_session (settings : Settings) (a : FetchArgs)
    (cleanupTook : Z) (pre later : list AdapterStep) (w : World) :
  let c := contextOf settings a in
  let items := mergedThrough (startingItems (arg_isResume a) (cleanUsername c) w) pre in
  Accepted settings a →
  (if arg_isResume a then Resumable (cleanUsername c) w else pre ≠ []) →
  withinBudget (timeoutSeconds settings) (now w) (now w + cleanupTook) pre →
  (timeoutSeconds settings
   ≤ (timeAfter (now w + cleanupTook) pre - now w) / 1000)%Z →
  ∃ finalData w' more,
    handleFetch settings false a cleanupTook (pre ++ later) w = (Fetched finalData, w')
    ∧ trace w' = trace w ++ more
    ∧ length (callsOf more) = length pre
    ∧ stopFetchRef w' = true
    ∧ (∀ fd, finalData = Some fd →
             fd_completed fd = false ∧ fd_timeline fd = items)
    ∧ Checkpointed (cleanUsername c) items w'.
Proof.
  intros c items [Huser Htoken] Hstart Hbudget Hreached.
  unfold handleFetch. fold c. fold c in Htoken.
  assert (negb (isBookmarksOf a)
          && String.eqb (TrimSpace (arg_username a)) EmptyString = false) as ->.
  { destruct Huser as [-> | Hname]; [done|].
    apply String.eqb_neq in Hname as ->. apply andb_false_r. }
  apply String.eqb_neq in Htoken as ->. cbv zeta.
  set (w0 := withNow _ (withFetchStartTime _ (withStopFetch false w))).
  assert (∃ l w1 prefix,
            startOf c (arg_isResume a) w0 = Some (l, w1)
            ∧ trace w1 = trace w ++ prefix ∧ callsOf prefix = []
            ∧ fetchStartTimeRef w1 = Some (now w)
            ∧ now w1 = (now w + cleanupTook)%Z
            ∧ stopFetchRef w1 = false
            ∧ hasMore l = true
            ∧ allTimeline l = startingItems (arg_isResume a) (cleanUsername c) w
            ∧ (pre ≠ [] ∨ Checkpointed (cleanUsername c) (allTimeline l) w1))
    as (l & w1 & prefix & -> & Hprefix & Hquiet & Hst & Hnow & Hflag & Hmore
        & Hitems & Hsaved).
  { unfold startOf, startingItems. destruct (arg_isResume a).
    - destruct Hstart as (st & Hst & Hcur & Hdone).
      change (getFetchState (cleanUsername c) w0) with (getFetchState (cleanUsername c) w).
      rewrite Hst, Hdone. simpl. apply String.eqb_neq in Hcur as ->. simpl.
      eexists _, w0, []. rewrite app_nil_r. repeat split. right. by exists st.
    - eexists _, _, [EvClearState (cleanUsername c)]. repeat split. by left. }
  destruct (fetchLoop_timeout c pre later l w1 (now w))
    as (l' & w' & more & -> & Htrace & Hcalls & Hstopped & Hmerged & Hcheck);
    try done; try (by rewrite Hnow).
  unfold afterLoop. rewrite Hstopped.
  rewrite Hmerged, Hitems in Hcheck. fold items in Hcheck.
  destruct (accountInfo l') as [info|].
  - eexists _, _, (prefix ++ more ++ [_]). split; [done|]. simpl.
    rewrite Htrace, Hprefix, <- !app_assoc.
    split; [done|]. split; [|split; [done|split]].
    + rewrite !callsOf_app, Hquiet. simpl. rewrite app_nil_r. exact Hcalls.
    + intros fd [= <-]. simpl. by rewrite Hstopped, Hmerged, Hitems.
    + by eapply Checkpointed_same_store.
  - eexists _, _, (prefix ++ more). split; [done|]. simpl.
    rewrite Htrace, Hprefix, <- !app_assoc.
    split; [done|]. split; [|split; [done|split]].
    + rewrite !callsOf_app, Hquiet. exact Hcalls.
    + done.
    + by eapply Checkpointed_same_store.
Qed.

(** A fresh fetch whose first call returns past the budget of 60 s: the
    session stops before the second call, the first batch checkpointed. *)
Lemma timeout_stops_session_witness :
  ∃ finalData w' more,
    handleFetch batchMode false fetchAlice 100 (slowFirstCall ++ [answers 1000 lastBatch]) idle
    = (Fetched finalData, w')
    ∧ trace w' = trace idle ++ more
    ∧ length (callsOf more) = length slowFirstCall
    ∧ stopFetchRef w' = true
    ∧ (∀ fd, finalData = Some fd →
             fd_completed fd = false
             ∧ fd_timeline fd
               = mergedThrough
                   (startingItems (arg_isResume fetchAlice)
                      (cleanUsername (contextOf batchMode fetchAlice)) idle)
                   slowFirstCall)
    ∧ Checkpointed (cleanUsername (contextOf batchMode fetchAlice))
        (mergedThrough
           (startingItems (arg_isResume fetchAlice)
              (cleanUsername (contextOf batchMode fetchAlice)) idle)
           slowFirstCall) w'.
Proof.
  apply (timeout_stops_session batchMode fetchAlice 100 slowFirstCall
           [answers 1000 lastBatch] idle).
  - split; [right|]; by vm_compute.
  - by vm_compute.
  - simpl. split; [by vm_compute|]. split; [done|].
    split; [by exists firstBatch | done].
  - by vm_compute.
Defined.

(** C1, as stated, fails in two ways. A call that exceeds the budget is
    not foreseen: the second call below is issued within the budget and
    returns past it, and the session ends after that call, with its batch
    merged and checkpointed, not after the first. And when the budget is
    already spent at the first test of a fresh fetch (the clean-up of stray
    processes took that long), the session stops before any call and
    persists nothing. *)
Lemma timeout_checked_only_between_calls :
  (((100 + 1000 - now idle) / 1000 < timeoutSeconds batchMode)%Z
   ∧ (timeoutSeconds batchMode ≤ (100 + 1000 + 70000 - now idle) / 1000)%Z
   ∧ length (callsOf (trace slowSecondCall.2)) = 2
   ∧ stopFetchRef slowSecondCall.2 = true
   ∧ Checkpointed "alice"
       (mergedThrough [] [answers 1000 firstBatch; answers 70000 secondBatch])
       slowSecondCall.2
   ∧ ¬ Checkpointed "alice" (mergedThrough [] [answers 1000 firstBatch])
         slowSecondCall.2)
  ∧ ((timeoutSeconds batchMode ≤ (now idle + 60000 - now idle) / 1000)%Z
     ∧ lateStart.1 = Fetched None
     ∧ callsOf (trace lateStart.2) = []
     ∧ stopFetchRef lateStart.2 = true
     ∧ getFetchState "alice" lateStart.2 = None
     ∧ ¬ Checkpointed "alice" [] lateStart.2).
Proof.
  split.
  - split; [by vm_compute|]. split; [by vm_compute|]. split; [by vm_compute|].
    split; [by vm_compute|]. split.
    + eexists. split; [by vm_compute|]. by vm_compute.
    + intros (st & Hst & Hitems & _). vm_compute in Hst.
      injection Hst as <-. vm_compute in Hitems. discriminate.
  - repeat split; try by vm_compute.
    intros (st & Hst & _). vm_compute in Hst. done.
Qed.

(** ** Checkpoints after each batch *)

Section Checkpoints.

Lemma afterLoop_trace (c : FetchCtx) l w :
  ∃ tail, trace (afterLoop c l w).2 = trace w ++ tail ∧ forallb quiet tail = true.
Proof.
  unfold afterLoop. destruct (stopFetchRef w), (accountInfo l); simpl.
  - by eexists [_].
  - exists []. by rewrite app_nil_r.
  - eexists [_; _; _]. by rewrite <- !app_assoc.
  - eexists [_; _]. by rewrite <- !app_assoc.
Qed.


Variable c : AccountCtx.

Lemma mergeBatch_spec l previous data accs w :
  ∃ cursorEvents,
    trace (mergeBatch c l previous data accs w).2
    = trace w ++ EvMerge (mergeTimelines (allTimeline l) (timeline data)) :: cursorEvents
    ∧ forallb quiet cursorEvents = true
    ∧ (truthy (cursor data) = true →
       EvSaveCursor (acc_cleanUsername c) (default EmptyString (cursor data))
       ∈ cursorEvents)
    ∧ accountStopFlagsRef (mergeBatch c l previous data accs w).2
      = accountStopFlagsRef w
    ∧ stopAllRef (mergeBatch c l previous data accs w).2 = stopAllRef w.
Proof.
  unfold mergeBatch. destruct (truthy (cursor data)); simpl.
  - eexists [_]. rewrite <- !app_assoc. repeat split. intros _. by left.
  - by exists [].
Qed.

Lemma persistBatch_spec l w :
  ∃ persistEvents,
    trace (persistBatch l w) = trace w ++ persistEvents
    ∧ forallb quiet persistEvents = true.
Proof.
  unfold persistBatch. destruct (accountInfo l); simpl.
  - by eexists [_].
  - exists []. by rewrite app_nil_r.
Qed.


Lemma saveOnAccountStop_spec l w :
  ∃ more, trace (saveOnAccountStop c l w) = trace w ++ more ∧ callsOf more = [].
Proof.
  unfold saveOnAccountStop.
  destruct (accountInfo l) as [info|];
    [destruct (0 <? length (allTimeline l))|];
    try (exists []; by rewrite app_nil_r).
  eexists [_; _]. simpl. by rewrite <- !app_assoc.
Qed.

Lemma awaitAccount_trace i step w : trace (awaitAccount i step w) = trace w.
Proof. unfold awaitAccount. by destruct (raisedStop step). Qed.



(** The retry saves the full state after a batch on every third page, on
    the last batch and when the account's stop flag is up, and only then;
    the lightweight cursor is saved whenever the batch has one. *)
Lemma retryBatch_trace l previous data accs w l' accs' w' :
  retryBatch c l previous data accs w = (l', accs', w') →
  ∃ more,
    trace w' = trace w ++ EvMerge (allTimeline l') :: more
    ∧ (savesState more ↔ retrySavesState c l' w = true)
    ∧ (truthy (cursor data) = true →
       EvSaveCursor (acc_cleanUsername c) (default EmptyString (cursor data)) ∈ more).
Proof.
  unfold retryBatch.
  destruct (mergeBatch_spec l previous data accs w)
    as (cursorEvents & Htrace & Hquiet & Hcursor & Hflags & _).
  destruct (mergeBatch c l previous data accs w) as [[l1 accs1] w1] eqn:Hmerge.
  assert (allTimeline l1 = mergeTimelines (allTimeline l) (timeline data)) as Hl1
    by (unfold mergeBatch in Hmerge; by injection Hmerge as <- _ _).
  simpl in Htrace, Hflags. intros [= <- <- <-].
  assert (retrySavesState c l1 w1 = retrySavesState c l1 w) as Hsame
    by (unfold retrySavesState, accountStopped; by rewrite Hflags).
  rewrite Hsame.
  assert (¬ savesState cursorEvents) as Hnone.
  { intros [st Hst]. apply list_elem_of_In in Hst.
    rewrite forallb_forall in Hquiet. by apply Hquiet in Hst. }
  destruct (retrySavesState c l1 w).
  - destruct (persistBatch_spec l1
                (saveFetchState (accountSnapshot c l1 (negb (hasMore l1))) w1))
      as (persistEvents & -> & Hpersist).
    exists (cursorEvents ++ EvSaveState (accountSnapshot c l1 (negb (hasMore l1)))
              :: persistEvents).
    simpl. rewrite Htrace, Hl1, <- !app_assoc. simpl. split; [done|]. split.
    + split; [done|]. intros _. eexists. apply elem_of_app. right. by left.
    + intros H. apply elem_of_app. left. by apply Hcursor.
  - destruct (persistBatch_spec l1 w1) as (persistEvents & -> & Hpersist).
    exists (cursorEvents ++ persistEvents).
    rewrite Htrace, Hl1, <- !app_assoc. simpl. split; [done|]. split.
    + split; [|done]. intros [st [Hst | Hst]%elem_of_app].
      * destruct Hnone. by exists st.
      * apply list_elem_of_In in Hst.
        rewrite forallb_forall in Hpersist. by apply Hpersist in Hst.
    + intros H. apply elem_of_app. left. by apply Hcursor.
Qed.

Lemma retryLoop_eq script l previous accs w :
  retryLoop c script l previous accs w
  = if hasMore l && negb (stopAllRef w) then
      if accountStopped (accountId c) w then
        {| thrown := None; locals := l; accounts := accs; world := w;
           rest := script |}
      else
        let w := emit (EvCall (accountRequest c l)) w in
        match script with
        | [] => {| thrown := Some scriptExhausted; locals := l; accounts := accs;
                   world := w; rest := [] |}
        | step :: script' =>
            let w := awaitAccount (accountId c) step w in
            match reply step with
            | inl err => {| thrown := Some err; locals := l; accounts := accs;
                            world := w; rest := script' |}
            | inr data =>
                let '(l', accs, w) := retryBatch c l previous data accs w in
                retryLoop c script' l' (length (allTimeline l')) accs w
            end
        end
    else {| thrown := None; locals := l; accounts := accs; world := w;
            rest := script |}.
Proof. by destruct script. Qed.






End Checkpoints.

Section SchedulerTrace.


End SchedulerTrace.




(** C4 at the failing input: on the same two batches the single fetch and
    the retry end with the checkpoint and the cursor of alice cleared, while
    the scheduler shows the account completed and leaves both in the store,
    the checkpoint marked completed. *)
Theorem scheduler_keeps_checkpoint_on_completion :
  (fetchedSingly.1 = Fetched (Some
      {| fd_account_info := alice;
         fd_timeline := mergedThrough [] twoBatches;
         fd_cursor := None;
         fd_completed := true |})
   ∧ getFetchState "alice" fetchedSingly.2 = None
   ∧ getCursor "alice" fetchedSingly.2 = None)
  ∧ (∃ l accs w',
       retried = Some (Left l, accs, w')
       ∧ statusOf "task-1" accs = Some Completed
       ∧ getFetchState "alice" w' = None
       ∧ getCursor "alice" w' = None)
  ∧ (statusOf "task-1" fetchedInQueue.1 = Some Completed
     ∧ (∃ st, getFetchState "alice" fetchedInQueue.2 = Some st
              ∧ fs_completed st = true
              ∧ fs_timeline st = mergedThrough [] twoBatches)
     ∧ getCursor "alice" fetchedInQueue.2 = Some "cursor-1"
     ∧ Forall (λ e, e ≠ EvClearState "alice" ∧ e ≠ EvClearCursor "alice")
              (trace fetchedInQueue.2)).
Proof.
  split; [by vm_compute|]. split.
  - vm_compute. eexists _, _, _. by repeat split.
  - split; [by vm_compute|]. split; [|split; [by vm_compute|]].
    + vm_compute. eexists. by repeat split.
    + vm_compute. repeat constructor; discriminate.
Qed.

(** C8 at the failing input: in single mode the requests carry batch size
    0, and a first response with a cursor and no completion makes the loop
    issue a second call. *)
Theorem single_mode_calls_again :
  batchSizeOf singleMode = 0%Z
  ∧ hasMoreOf firstBatch = true
  ∧ ∃ first second,
      callsOf (trace fetchedInSingleMode.2) = [first; second]
      ∧ batch_size first = 0%Z ∧ req_cursor first = None
      ∧ batch_size second = 0%Z ∧ req_cursor second = cursor firstBatch.
Proof. vm_compute. repeat split. eexists _, _. by repeat split. Qed.

(** ** The loop of a retry *)

Section RetryLoop.
Variable c : AccountCtx.


(** The loop only adds to the trace, and starts with the call of the
    current request when it is entered. *)
Lemma retryLoop_first_call script l previous accs w :
  ∃ more,
    trace (world (retryLoop c script l previous accs w)) = trace w ++ more
    ∧ (hasMore l = true → stopAllRef w = false →
       accountStopped (accountId c) w = false →
       ∃ later, more = EvCall (accountRequest c l) :: later).
Proof.
  revert l previous accs w.
  induction script as [|step script IH]; intros l previous accs w;
    rewrite retryLoop_eq;
    (destruct (hasMore l) eqn:Hmore, (stopAllRef w) eqn:Hall; simpl negb;
     simpl andb; [| destruct (accountStopped _ w) eqn:Hstop | |]); cbv zeta;
    try (exists []; rewrite app_nil_r; split; [done | by intros]).
  - exists [EvCall (accountRequest c l)]. split; [done|]. intros _ _ _. by eexists.
  - destruct (reply step) as [err | data].
    + exists [EvCall (accountRequest c l)]. cbn [world].
      rewrite awaitAccount_trace. split; [done|]. intros _ _ _. by eexists.
    + destruct (retryBatch c l previous data accs _) as [[l' accs'] w'] eqn:Hbatch.
      apply retryBatch_trace in Hbatch as (batchEvents & Htrace & _).
      destruct (IH l' (length (allTimeline l')) accs' w') as (more & Hmore' & _).
      rewrite awaitAccount_trace in Htrace. simpl in Htrace.
      exists (EvCall (accountRequest c l) :: EvMerge (allTimeline l') :: batchEvents ++ more).
      split; [|intros _ _ _; by eexists].
      rewrite Hmore', Htrace, <- !app_assoc. simpl. by rewrite <- ?app_assoc.
Qed.

End RetryLoop.

Section RetryOfFailedTask.

Lemma handleRetryAccount_fresh settings authToken fetchedMediaType retryId db
    script accs w account :
  let key := TrimSpace (acc_username account) in
  List.find (λ acc, String.eqb (id acc) retryId) accs = Some account →
  TrimSpace (orElse authToken EmptyString) ≠ EmptyString →
  stopAllRef w = false →
  getFetchState key w = None → acc_cursor account = None →
  getCursor key w = None → databaseCursor key db = None →
  ∃ ending accs' w' first later,
    handleRetryAccount settings authToken fetchedMediaType retryId db script accs w
    = Some (ending, accs', w')
    ∧ trace w' = trace w ++ EvClearState key :: EvClearCursor key
                   :: EvCall first :: later
    ∧ req_cursor first = None
    ∧ req_page first = 0%Z.
Proof.
  intros key Hfind Htoken Hall Hstate Hcur Hslot Hdb.
  assert (id account = retryId) as Hid
    by (by apply find_some in Hfind as [_ ?%String.eqb_eq]).
  unfold handleRetryAccount. rewrite Hfind.
  apply String.eqb_neq in Htoken as ->.
  destruct (resumePoint_order account db w)
    as (_ & _ & _ & _ & _ & Hfresh).
  destruct (Hfresh Hstate Hcur Hslot Hdb) as (Hsource & Hstart & Hitems).
  pose proof Hsource as Hworld. unfold resumePoint in Hworld.
  assert (start_world (resumePoint account db w)
          = clearCursor key (clearFetchState key w)) as Hw.
  { unfold resumePoint, databaseCursor in *. fold key in Hstate, Hslot, Hdb |- *.
    rewrite Hstate, Hcur, Hslot. simpl.
    destruct db as [accounts|]; [|done].
    by destruct (findDbAccount key accounts) as [dbAccount|]. }
  cbv zeta. rewrite Hw, Hstart, Hitems.
  set (c := accountCtxOf _ _ _ account).
  set (w1 := withAccountStopFlags _ _).
  set (start := {| cur := None; allTimeline := []; accountInfo := _;
                   hasMore := true; page := 0 |}).
  destruct (retryLoop_first_call c script start
              (start_previousMediaCount (resumePoint account db w))
              (setAccount retryId
                 (withRetryStart (start_previousMediaCount (resumePoint account db w)))
                 accs) w1)
    as (more & Htrace & Hfirst).
  destruct Hfirst as [later ->]; [done | done | |].
  { unfold accountStopped, w1, c. simpl. by rewrite Hid, lookup_insert_eq. }
  assert (trace w1 = trace w ++ [EvClearState key; EvClearCursor key]) as Hw1.
  { unfold w1. simpl. by rewrite <- app_assoc. }
  rewrite Hw1, <- app_assoc in Htrace. simpl in Htrace.
  destruct (thrown _) as [errorMsg|].
  - destruct (onAccountError c errorMsg _ _) as [accs' w'] eqn:Herr.
    eexists _, _, _, _, later. split; [done|].
    unfold onAccountError in Herr. injection Herr as <- <-. simpl.
    by rewrite Htrace.
  - destruct (finalStatus _ _ _ _);
      try (eexists _, _, _, _, later; split; [done|]; simpl;
           by rewrite Htrace).
    eexists _, _, _, _, (later ++ [_; _]). split; [done|]. simpl.
    rewrite Htrace, <- !app_assoc. simpl. by rewrite <- ?app_assoc.
Qed.

End RetryOfFailedTask.

Section RetryStart.


Variable c : AccountCtx.



End RetryStart.



(* ===================================================================== *)
(** * Part III: further properties of the fetch handlers                   *)
(* ===================================================================== *)

(** ** A run of [handleFetch] *)

Section FetchRun.
Variable c : FetchCtx.

Lemma mergedThrough_cons items step data pre :
  reply step = inr data →
  mergedThrough items (step :: pre)
  = mergedThrough (mergeTimelines items (timeline data)) pre.
Proof. intros Hreply. unfold mergedThrough. simpl. by rewrite Hreply. Qed.

Lemma mergedThrough_app items pre post :
  mergedThrough items (pre ++ post) = mergedThrough (mergedThrough items pre) post.
Proof. unfold mergedThrough. by rewrite foldl_app. Qed.

Lemma sameElsewhere_refl key w : sameElsewhere key w w.
Proof. by intros k _. Qed.

Lemma sameElsewhere_trans key w1 w2 w3 :
  sameElsewhere key w1 w2 → sameElsewhere key w2 w3 → sameElsewhere key w1 w3.
Proof.
  intros H12 H23 k Hk. destruct (H12 k Hk) as [<- <-]. by apply H23.
Qed.

Lemma sameElsewhere_same_store key w w' :
  fetchStates w' = fetchStates w → cursors w' = cursors w → sameElsewhere key w w'.
Proof. intros Hf Hc k _. by rewrite Hf, Hc. Qed.

Lemma absorb_elsewhere l data w :
  sameElsewhere (cleanUsername c) w (absorb c l data w).2.
Proof.
  unfold absorb. intros k Hk.
  destruct (truthy (cursor data)), (adoptAccountInfo c (accountInfo l) data);
    simpl; by rewrite ?lookup_insert_ne.
Qed.

Lemma saveOnStop_store l w :
  (fetchStates (saveOnStop c l w) = fetchStates w
   ∨ getFetchState (cleanUsername c) (saveOnStop c l w) = Some (snapshot c l false))
  ∧ cursors (saveOnStop c l w) = cursors w
  ∧ sameElsewhere (cleanUsername c) w (saveOnStop c l w).
Proof.
  unfold saveOnStop.
  destruct (accountInfo l); [destruct (0 <? _)%nat|];
    try (split; [by left|]; split; [done|]; apply sameElsewhere_refl).
  split; [right; unfold getFetchState; simpl; by rewrite lookup_insert_eq|].
  split; [done|]. intros k Hk. simpl. by rewrite lookup_insert_ne.
Qed.

Ltac split_run :=
  split; [|split; [|split; [|split; [|split; [|split; [|split; [|split]]]]]]].

Lemma fetchLoop_run_timeout script (l : Locals) w :
  script = [] ++ script
  ∧ Forall answered []
  ∧ allTimeline l = mergedThrough (allTimeline l) []
  ∧ (@nil AdapterStep = [] → l = l)
  ∧ (@nil AdapterStep ≠ [] ∨ Holds (cleanUsername c) (allTimeline l) w →
     Holds (cleanUsername c) (allTimeline l) (saveOnStop c l (withStopFetch true w)))
  ∧ (∀ e, @None string = Some e →
       failedAt e script
       ∧ (@nil AdapterStep = [] →
          fetchStates (saveOnStop c l (withStopFetch true w)) = fetchStates w
          ∧ cursors (saveOnStop c l (withStopFetch true w)) = cursors w))
  ∧ (@None string = None →
     stopFetchRef (saveOnStop c l (withStopFetch true w)) = false →
     hasMore l = false)
  ∧ (∀ front last, [] = front ++ [last] →
       ∃ data, reply last = inr data ∧ hasMore l = hasMoreOf data
               ∧ cur l = cursor data)
  ∧ sameElsewhere (cleanUsername c) w (saveOnStop c l (withStopFetch true w)).
Proof.
  destruct (saveOnStop_store l (withStopFetch true w)) as (Hsaved & _ & Helse).
  destruct (saveOnStop_spec c l (withStopFetch true w)) as (_ & _ & _ & Hflag & _).
  split_run; try done.
  - intros [? | (st & Hst & Hitems)]; [done|].
    destruct Hsaved as [Heq | Hsnap]; [|by eexists].
    exists st. split; [|done]. unfold getFetchState. by rewrite Heq.
  - intros _. by rewrite Hflag.
  - by intros [].
Qed.

Lemma fetchLoop_run_idle script (l : Locals) w :
  hasMore l && negb (stopFetchRef w) = false →
  script = [] ++ script
  ∧ Forall answered []
  ∧ allTimeline l = mergedThrough (allTimeline l) []
  ∧ (@nil AdapterStep = [] → l = l)
  ∧ (@nil AdapterStep ≠ [] ∨ Holds (cleanUsername c) (allTimeline l) w →
     Holds (cleanUsername c) (allTimeline l) w)
  ∧ (∀ e, @None string = Some e →
       failedAt e script
       ∧ (@nil AdapterStep = [] →
          fetchStates w = fetchStates w ∧ cursors w = cursors w))
  ∧ (@None string = None → stopFetchRef w = false → hasMore l = false)
  ∧ (∀ front last, [] = front ++ [last] →
       ∃ data, reply last = inr data ∧ hasMore l = hasMoreOf data
               ∧ cur l = cursor data)
  ∧ sameElsewhere (cleanUsername c) w w.
Proof.
  intros Hgo. split_run; try done.
  - by intros [|].
  - intros _ Hflag. apply andb_false_iff in Hgo as [Hmore | Hstop]; [done|].
    by rewrite Hflag in Hstop.
  - by intros [].
Qed.


(** What a run of the loop leaves: the batches it consumed, the items it
    merged, the checkpoint it wrote and the call it failed at. *)
Lemma fetchLoop_run script l w err l' w' :
  fetchLoop c script l w = (err, l', w') →
  ∃ consumed later,
    script = consumed ++ later
    ∧ Forall answered consumed
    ∧ allTimeline l' = mergedThrough (allTimeline l) consumed
    ∧ (consumed = [] → l' = l)
    ∧ (consumed ≠ [] ∨ Holds (cleanUsername c) (allTimeline l) w →
       Holds (cleanUsername c) (allTimeline l') w')
    ∧ (∀ e, err = Some e →
         failedAt e later
         ∧ (consumed = [] → fetchStates w' = fetchStates w ∧ cursors w' = cursors w))
    ∧ (err = None → stopFetchRef w' = false → hasMore l' = false)
    ∧ (∀ front last, consumed = front ++ [last] →
         ∃ data, reply last = inr data ∧ hasMore l' = hasMoreOf data
                 ∧ cur l' = cursor data)
    ∧ sameElsewhere (cleanUsername c) w w'.
Proof.
  revert l w. induction script as [|step script IH]; intros l w;
    rewrite fetchLoop_eq.
  - destruct (hasMore l && negb (stopFetchRef w)) eqn:Hgo;
      [destruct (timeoutReached c w)|]; intros [= <- <- <-]; exists [], [].
    + by apply fetchLoop_run_timeout.
    + split_run; try done; try (by intros [|]); try (by intros ? [= <-]);
        by intros [].
    + by apply fetchLoop_run_idle.
  - destruct (hasMore l && negb (stopFetchRef w)) eqn:Hgo;
      [destruct (timeoutReached c w)|].
    + intros [= <- <- <-]. exists [], (step :: script).
      by apply fetchLoop_run_timeout.
    + cbv zeta. destruct (reply step) as [e | data] eqn:Hreply.
      * intros [= <- <- <-]. exists [], (step :: script).
        split_run; try done; try (by intros [|]); try (by intros ? [= <-]);
          by intros [].
      * destruct (absorb c l data _) as [l1 w1] eqn:Habsorb.
        pose proof (absorb_elsewhere l data
                      (awaitFetch step (emit (EvCall (requestOf c l)) w))) as Helse.
        rewrite Habsorb in Helse. simpl in Helse.
        apply absorb_spec in Habsorb as (Hl1 & _ & _ & _ & Hsaved & _).
        intros Hrun.
        destruct (IH l1 w1 Hrun)
          as (consumed & later & -> & Hanswered & Hitems & Hnone & Hholds & Herr & Hdone
              & Hlast & Helse').
        exists (step :: consumed), later.
        assert (allTimeline l1 = mergeTimelines (allTimeline l) (timeline data))
          as Hmerged.
        { by rewrite Hl1. }
        split_run; try done.
        -- apply List.Forall_cons; [by exists data | done].
        -- by rewrite Hitems, Hmerged, (mergedThrough_cons _ _ data).
        -- intros _. apply Hholds. right. eexists. split; [exact Hsaved|].
           by rewrite Hl1.
        -- intros e He. split; [by apply Herr|done].
        -- intros front last Hsplit.
           destruct consumed as [|step' consumed'].
           ++ destruct front as [|? front]; [|by destruct front].
              injection Hsplit as <-.
              rewrite (Hnone eq_refl). exists data. by rewrite Hl1.
           ++ destruct front as [|step0 front']; [by destruct consumed'|].
              injection Hsplit as <- Hsplit. by apply (Hlast front' last).
        -- eapply sameElsewhere_trans; [|exact Helse'].
           intros k Hk. by apply Helse.
    + intros [= <- <- <-]. exists [], (step :: script).
      by apply fetchLoop_run_idle.
Qed.

End FetchRun.


Section HandleFetch.
Variable settings : Settings.
Variable a : FetchArgs.

Local Abbreviation c := (contextOf settings a).

Lemma handleFetch_accepted cleanupTook script w :
  Accepted settings a →
  handleFetch settings false a cleanupTook script w
  = match startOf c (arg_isResume a) (started cleanupTook w) with
    | None => (Refused "No resumable fetch found", started cleanupTook w)
    | Some (l, w1) =>
        match fetchLoop c script l w1 with
        | (Some errorMsg, _, w2) => (Threw errorMsg, withFetchStartTime None w2)
        | (None, l2, w2) =>
            let '(finalData, w3) := afterLoop c l2 w2 in
            (Fetched finalData, withFetchStartTime None w3)
        end
    end.
Proof.
  intros [Huser Htoken]. unfold handleFetch.
  assert (negb (isBookmarksOf a)
          && String.eqb (TrimSpace (arg_username a)) EmptyString = false) as ->.
  { destruct Huser as [-> | Hname]; [done|].
    apply String.eqb_neq in Hname as ->. apply andb_false_r. }
  by apply String.eqb_neq in Htoken as ->.
Qed.

Lemma handleFetch_unaccepted loading cleanupTook script w :
  loading = true ∨ ¬ Accepted settings a →
  ∃ toast, handleFetch settings loading a cleanupTook script w = (Refused toast, w).
Proof.
  intros Hno. unfold handleFetch. destruct loading; [by eexists|].
  destruct Hno as [? | Hno]; [done|].
  destruct (negb (isBookmarksOf a)
            && String.eqb (TrimSpace (arg_username a)) EmptyString) eqn:Huser;
    [by eexists|].
  destruct (String.eqb (ctx_authToken c) EmptyString) eqn:Htoken; [by eexists|].
  destruct Hno. split.
  - apply andb_false_iff in Huser as [Hb | Hname].
    + left. by destruct (isBookmarksOf a).
    + right. by apply String.eqb_neq.
  - by apply String.eqb_neq.
Qed.

Lemma Accepted_dec : Accepted settings a ∨ ¬ Accepted settings a.
Proof.
  unfold Accepted.
  destruct (decide ((isBookmarksOf a = true
                     ∨ TrimSpace (arg_username a) ≠ EmptyString)
                    ∧ ctx_authToken c ≠ EmptyString)); auto.
Qed.

Lemma startOf_cases isResume w0 :
  match startOf c isResume w0 with
  | None => isResume = true ∧ ¬ Resumable (cleanUsername c) w0
  | Some (l, w1) =>
      hasMore l = true
      ∧ page l = 0%Z
      ∧ allTimeline l = startingItems isResume (cleanUsername c) w0
      ∧ cur l = startingCursor isResume (cleanUsername c) w0
      ∧ stopFetchRef w1 = stopFetchRef w0
      ∧ cursors w1 = cursors w0
      ∧ sameElsewhere (cleanUsername c) w0 w1
      ∧ (if isResume
         then Resumable (cleanUsername c) w0 ∧ w1 = w0
              ∧ Holds (cleanUsername c) (allTimeline l) w1
         else accountInfo l = None
              ∧ getFetchState (cleanUsername c) w1 = None
              ∧ trace w1 = trace w0 ++ [EvClearState (cleanUsername c)])
  end.
Proof.
  unfold startOf, startingItems, startingCursor, Resumable.
  destruct isResume.
  - destruct (getFetchState (cleanUsername c) w0) as [st|] eqn:Hst.
    + destruct (truthy (Some (fs_cursor st)) && negb (fs_completed st)) eqn:Hok.
      * apply andb_true_iff in Hok as [Hcur Hdone]. simpl in *.
        apply negb_true_iff in Hcur, Hdone. apply String.eqb_neq in Hcur.
        repeat split; try done.
        -- exists st. by repeat split.
        -- by exists st.
      * split; [done|]. intros (st' & [= <-] & Hcur & Hdone).
        apply String.eqb_neq in Hcur. simpl in Hok.
        by rewrite Hcur, Hdone in Hok.
    + split; [done|]. by intros (st' & ? & _).
  - simpl. do 6 (split; [done|]).
    split; [intros k Hk; simpl; by rewrite lookup_delete_ne|].
    split; [done|].
    split; [unfold getFetchState; simpl; by rewrite lookup_delete_eq | done].
Qed.

End HandleFetch.

Lemma afterLoop_cases (c : FetchCtx) l w :
  let r := afterLoop c l w in
  stopFetchRef r.2 = stopFetchRef w
  ∧ (∀ fd, r.1 = Some fd →
       fd_timeline fd = allTimeline l
       ∧ fd_completed fd = negb (stopFetchRef w)
       ∧ fd_cursor fd = cur l
       ∧ accountInfo l = Some (fd_account_info fd))
  ∧ (if stopFetchRef w
     then fetchStates r.2 = fetchStates w ∧ cursors r.2 = cursors w
     else getFetchState (cleanUsername c) r.2 = None
          ∧ getCursor (cleanUsername c) r.2 = None)
  ∧ sameElsewhere (cleanUsername c) w r.2.
Proof.
  unfold afterLoop.
  destruct (stopFetchRef w) eqn:Hstop, (accountInfo l) as [info|]; simpl;
    rewrite ?Hstop; simpl;
    (split; [done|]);
    (split; [first [by intros fd [= <-] | by intros fd ?]|]);
    (split; [first [done | unfold getFetchState, getCursor; simpl;
                           split; by rewrite lookup_delete_eq]|]);
    intros k Hk; simpl; by rewrite ?lookup_delete_ne.
Qed.

Section HandleFetchRun.
Variable settings : Settings.
Variable a : FetchArgs.

Local Abbreviation c := (contextOf settings a).

Lemma handleFetch_run cleanupTook script w :
  Accepted settings a →
  let key := cleanUsername c in
  let items0 := startingItems (arg_isResume a) key w in
  match handleFetch settings false a cleanupTook script w with
  | (Refused toast, w') =>
      arg_isResume a = true ∧ ¬ Resumable key w
      ∧ fetchStates w' = fetchStates w ∧ cursors w' = cursors w
      ∧ trace w' = trace w
  | (Threw e, w') =>
      ∃ consumed later,
        script = consumed ++ later
        ∧ Forall answered consumed
        ∧ failedAt e later
        ∧ (consumed ≠ [] ∨ arg_isResume a = true →
           Holds key (mergedThrough items0 consumed) w')
        ∧ (consumed = [] → arg_isResume a = false → getFetchState key w' = None)
        ∧ sameElsewhere key w w'
  | (Fetched finalData, w') =>
      ∃ consumed later,
        script = consumed ++ later
        ∧ Forall answered consumed
        ∧ (∀ fd, finalData = Some fd →
             fd_timeline fd = mergedThrough items0 consumed
             ∧ fd_completed fd = negb (stopFetchRef w')
             ∧ (consumed ≠ [] ∨ arg_isResume a = true))
        ∧ (stopFetchRef w' = true → consumed ≠ [] ∨ arg_isResume a = true →
           Holds key (mergedThrough items0 consumed) w')
        ∧ (stopFetchRef w' = false →
           getFetchState key w' = None ∧ getCursor key w' = None
           ∧ ∃ front last data,
               consumed = front ++ [last] ∧ reply last = inr data
               ∧ hasMoreOf data = false)
        ∧ sameElsewhere key w w'
  end.
Proof.
  intros Hok key items0. rewrite (handleFetch_accepted _ _ _ _ _ Hok).
  pose proof (startOf_cases settings a (arg_isResume a) (started cleanupTook w))
    as Hstart.
  destruct (startOf c (arg_isResume a) (started cleanupTook w)) as [[l w1]|].
  2: { destruct Hstart as [-> Hno]. by repeat split. }
  destruct Hstart
    as (Hmore & _ & Hitems0 & _ & Hflag & Hcursors & Helse0 & Hmode).
  change (startingItems (arg_isResume a) (cleanUsername c) (started cleanupTook w))
    with items0 in Hitems0.
  assert (sameElsewhere key w w1) as Helse1.
  { intros k Hk. by apply Helse0. }
  assert (arg_isResume a = true → Holds key (allTimeline l) w1) as Hheld.
  { intros Hres. rewrite Hres in Hmode. by destruct Hmode as (_ & _ & ?). }
  assert (arg_isResume a = false
          → accountInfo l = None ∧ getFetchState key w1 = None) as Hfresh.
  { intros Hres. rewrite Hres in Hmode. by destruct Hmode as (? & ? & _). }
  destruct (fetchLoop c script l w1) as [[err l2] w2] eqn:Hloop.
  apply fetchLoop_run in Hloop
    as (consumed & later & -> & Hanswered & Hitems & Hnone & Hholds & Herr
        & Hdone & Hlast & Helse2).
  rewrite Hitems0 in Hitems, Hholds.
  assert (consumed ≠ [] ∨ arg_isResume a = true
          → Holds key (mergedThrough items0 consumed) w2) as Hkept.
  { intros [? | Hres]; rewrite <- Hitems; apply Hholds; [by left|].
    right. rewrite <- Hitems0. by apply Hheld. }
  destruct err as [e|].
  - destruct (Herr e eq_refl) as [Hfailed Hsame].
    exists consumed, later. split; [done|]. split; [done|]. split; [done|].
    split; [|split].
    + intros Hyes. destruct (Hkept Hyes) as (st & Hst & Hst').
      by exists st.
    + intros Hnil Hres. destruct (Hsame Hnil) as [Hf _].
      destruct (Hfresh Hres) as [_ Hgone].
      unfold getFetchState in *. simpl. by rewrite Hf.
    + eapply sameElsewhere_trans; [exact Helse1|].
      intros k Hk. by apply Helse2.
  - pose proof (afterLoop_cases c l2 w2) as (Hstop3 & Hfd & Hstore & Helse3).
    destruct (afterLoop c l2 w2) as [finalData w3]. simpl in *.
    exists consumed, later. split; [done|]. split; [done|].
    split; [|split; [|split]].
    + intros fd Hsome. destruct (Hfd fd Hsome) as (Hfdt & Hfdc & _ & Hinfo).
      rewrite Hfdt, Hfdc, Hstop3, Hitems. split; [done|]. split; [done|].
      destruct consumed as [|step consumed]; [|by left]. right.
      rewrite (Hnone eq_refl) in Hinfo.
      destruct (arg_isResume a); [done|].
      destruct (Hfresh eq_refl) as [Hnoinfo _]. by rewrite Hnoinfo in Hinfo.
    + intros Hstopped Hyes. rewrite Hstop3 in Hstopped. rewrite Hstopped in Hstore.
      destruct (Hkept Hyes) as (st & Hst & Hst'). exists st. split; [|done].
      unfold getFetchState in *. simpl. destruct Hstore as [Hf _]. by rewrite Hf.
    + intros Hgo. rewrite Hstop3 in Hgo. rewrite Hgo in Hstore.
      destruct Hstore as [Hnostate Hnocursor].
      split; [done|]. split; [done|].
      specialize (Hdone eq_refl Hgo).
      destruct consumed as [|step consumed] using rev_ind.
      * rewrite (Hnone eq_refl) in Hdone. by rewrite Hdone in Hmore.
      * destruct (Hlast consumed step eq_refl) as (data & Hreply & Hmore2 & _).
        exists consumed, step, data. repeat split; try done.
        by rewrite <- Hmore2.
    + eapply sameElsewhere_trans; [exact Helse1|].
      eapply sameElsewhere_trans; [exact Helse2|].
      intros k Hk. by apply Helse3.
Qed.

End HandleFetchRun.

Section HandleFetchOutcome.
Variable settings : Settings.
Variable a : FetchArgs.

Local Abbreviation c := (contextOf settings a).

(** A fetch that was not turned down was not loading and was accepted. *)
Lemma handleFetch_worked loading cleanupTook script w :
  (∀ toast, (handleFetch settings loading a cleanupTook script w).1 ≠ Refused toast) →
  loading = false ∧ Accepted settings a.
Proof.
  intros Hnot. destruct loading.
  - destruct (handleFetch_unaccepted settings a true cleanupTook script w)
      as [toast Heq]; [by left|]. destruct (Hnot toast). by rewrite Heq.
  - split; [done|]. destruct (Accepted_dec settings a) as [|Hno]; [done|].
    destruct (handleFetch_unaccepted settings a false cleanupTook script w)
      as [toast Heq]; [by right|]. destruct (Hnot toast). by rewrite Heq.
Qed.

End HandleFetchOutcome.

(** X1. With a user name and an auth token of ASCII text, [handleFetch]
    turns a request down exactly when a fetch is already loading, when the
    user name (but for bookmarks) or the auth token is blank, or when it is
    asked to resume and the store offers no checkpoint with a cursor that is
    not completed. A request turned down leaves the checkpoint store, the
    cursor slots and the trace as they were: no call is made. *)
Theorem handleFetch_refuses (settings : Settings) (loading : bool) (a : FetchArgs)
    (cleanupTook : Z) (script : list AdapterStep) (w : World) :
  isASCII (arg_username a) = true →
  isASCII (default EmptyString (arg_authToken a)) = true →
  let key := cleanUsername (contextOf settings a) in
  let r := handleFetch settings loading a cleanupTook script w in
  ((∃ toast, r.1 = Refused toast)
   ↔ loading = true ∨ ¬ Accepted settings a
     ∨ (arg_isResume a = true ∧ ¬ Resumable key w))
  ∧ ((∃ toast, r.1 = Refused toast) →
     fetchStates r.2 = fetchStates w ∧ cursors r.2 = cursors w
     ∧ trace r.2 = trace w).
Proof.
  intros _ _ key r.
  assert (loading = true ∨ ¬ Accepted settings a
          → ∃ toast, r = (Refused toast, w)) as Hearly.
  { apply handleFetch_unaccepted. }
  destruct loading.
  { destruct Hearly as [toast Heq]; [by left|]. rewrite Heq. simpl.
    split; [split; [by left | by exists toast] | done]. }
  destruct (Accepted_dec settings a) as [Hok | Hno].
  2: { destruct Hearly as [toast Heq]; [by right|]. rewrite Heq. simpl.
       split; [split; [by right; left | by exists toast] | done]. }
  clear Hearly. subst r. rewrite (handleFetch_accepted _ _ _ _ _ Hok).
  pose proof (startOf_cases settings a (arg_isResume a) (started cleanupTook w))
    as Hstart.
  destruct (startOf _ (arg_isResume a) (started cleanupTook w)) as [[l w1]|].
  - assert (¬ ∃ toast,
              (match fetchLoop (contextOf settings a) script l w1 with
               | (Some errorMsg, _, w2) => (Threw errorMsg, withFetchStartTime None w2)
               | (None, l2, w2) =>
                   let '(finalData, w3) := afterLoop (contextOf settings a) l2 w2 in
                   (Fetched finalData, withFetchStartTime None w3)
               end).1 = Refused toast) as Hnot.
    { intros [toast Heq].
      destruct (fetchLoop _ script l w1) as [[[e|] l2] w2]; [done|].
      by destruct (afterLoop _ l2 w2). }
    split; [split|]; [done| |done].
    intros [? | [? | [Hres Hnores]]]; [done..|].
    rewrite Hres in Hstart. by destruct Hstart as (_ & _ & _ & _ & _ & _ & _ & ? & _).
  - destruct Hstart as [Hres Hnores]. simpl.
    split; [split|]; [|by eexists|done].
    intros _. right. right. by split.
Qed.

(** A request to resume alice when nothing is stored. *)
Lemma handleFetch_refuses_witness :
  let key := cleanUsername (contextOf batchMode resumeAlice) in
  let r := handleFetch batchMode false resumeAlice 100 [answers 1000 lastBatch] idle in
  ((∃ toast, r.1 = Refused toast)
   ↔ false = true ∨ ¬ Accepted batchMode resumeAlice
     ∨ (arg_isResume resumeAlice = true ∧ ¬ Resumable key idle))
  ∧ ((∃ toast, r.1 = Refused toast) →
     fetchStates r.2 = fetchStates idle ∧ cursors r.2 = cursors idle
     ∧ trace r.2 = trace idle).
Proof.
  apply (handleFetch_refuses batchMode false resumeAlice 100
           [answers 1000 lastBatch] idle); reflexivity.
Defined.

(** X2. The items [handleFetch] returns are the items it started from (those
    of the resumed checkpoint, none for a fresh fetch) merged with the
    batches of the calls it made, in order; every one of these calls
    returned a batch; the result is marked completed exactly when the stop
    flag is not raised at the end. *)
Theorem handleFetch_returns_merged (settings : Settings) (loading : bool)
    (a : FetchArgs) (cleanupTook : Z) (script : list AdapterStep) (w : World)
    (fd : FinalData) :
  let key := cleanUsername (contextOf settings a) in
  let r := handleFetch settings loading a cleanupTook script w in
  r.1 = Fetched (Some fd) →
  ∃ consumed later,
    script = consumed ++ later
    ∧ Forall answered consumed
    ∧ fd_timeline fd = mergedThrough (startingItems (arg_isResume a) key w) consumed
    ∧ fd_completed fd = negb (stopFetchRef r.2).
Proof.
  intros key r Hfetched.
  destruct (handleFetch_worked settings a loading cleanupTook script w)
    as [-> Hok].
  { intros toast. fold r. by rewrite Hfetched. }
  pose proof (handleFetch_run settings a cleanupTook script w Hok) as Hrun.
  fold r in Hrun. destruct r as [[toast | finalData | e] w'];
    simpl in Hfetched; try done. injection Hfetched as ->.
  destruct Hrun as (consumed & later & Hscript & Hanswered & Hfd & _).
  exists consumed, later. destruct (Hfd fd eq_refl) as (? & ? & _). by repeat split.
Qed.

Lemma handleFetch_returns_merged_witness :
  ∃ consumed later,
    [stoppedDuring 1000 firstBatch; answers 1000 lastBatch] = consumed ++ later
    ∧ Forall answered consumed
    ∧ fd_timeline aliceStopped
      = mergedThrough
          (startingItems (arg_isResume fetchAlice)
             (cleanUsername (contextOf batchMode fetchAlice)) idle) consumed
    ∧ fd_completed aliceStopped = negb (stopFetchRef stoppedAfterFirst.2).
Proof.
  apply (handleFetch_returns_merged batchMode false fetchAlice 100
           [stoppedDuring 1000 firstBatch; answers 1000 lastBatch] idle aliceStopped).
  vm_compute. reflexivity.
Defined.

Section Kept.
Variable c : FetchCtx.

Lemma absorb_kept l data w :
  Kept (cleanUsername c) (absorb c l data w).1 (absorb c l data w).2.
Proof.
  unfold absorb, Kept.
  destruct (adoptAccountInfo c (accountInfo l) data) as [info|],
    (truthy (cursor data)) eqn:Hcursor; simpl;
    eexists; (split; [unfold getFetchState; simpl; by rewrite lookup_insert_eq|]);
    simpl; repeat split; unfold hasMoreOf; rewrite Hcursor; done.
Qed.

Lemma saveOnStop_kept l w :
  hasMore l = true →
  Kept (cleanUsername c) l w →
  Kept (cleanUsername c) l (saveOnStop c l (withStopFetch true w)).
Proof.
  intros Hmore (st & Hst & Hitems & Hcursor & Hdone & Hhas).
  unfold saveOnStop.
  destruct (accountInfo l) as [info|];
    [destruct (0 <? length (allTimeline l))|];
    try by exists st.
  eexists. split; [unfold getFetchState; simpl; by rewrite lookup_insert_eq|].
  simpl. repeat split; [by rewrite Hmore | done].
Qed.

(** When the loop ends without exception, the store holds the checkpoint of
    its final locals, provided it held that of the locals it started from
    or a batch arrived. *)
Lemma fetchLoop_kept script l w l' w' :
  fetchLoop c script l w = (None, l', w') →
  (l' = l ∧ (Kept (cleanUsername c) l w → Kept (cleanUsername c) l w'))
  ∨ Kept (cleanUsername c) l' w'.
Proof.
  revert l w. induction script as [|step script IH]; intros l w;
    rewrite fetchLoop_eq;
    (destruct (hasMore l && negb (stopFetchRef w)) eqn:Hgo;
     [destruct (timeoutReached c w)|]); cbv zeta; try done;
    try (intros [= <- <-]; left; split; [done|];
         apply andb_true_iff in Hgo as [Hmore _]; by apply saveOnStop_kept);
    try (intros [= <- <-]; left; by split).
  destruct (reply step) as [err | data]; [done|].
  pose proof (absorb_kept l data
                (awaitFetch step (emit (EvCall (requestOf c l)) w))) as Hkept.
  destruct (absorb c l data _) as [l1 w1]. simpl in Hkept.
  intros Hrun. right. destruct (IH _ _ Hrun) as [[-> Hsame] | ?]; auto.
Qed.
End Kept.

Section KeptRun.
Variable settings : Settings.
Variable a : FetchArgs.

Local Abbreviation c := (contextOf settings a).

Lemma Kept_same_store key l w w' :
  fetchStates w' = fetchStates w → Kept key l w → Kept key l w'.
Proof.
  intros Hsame (st & Hst & Hrest). exists st. split; [|done].
  unfold getFetchState in *. by rewrite Hsame.
Qed.

Lemma startOf_kept w0 l w1 :
  startOf c true w0 = Some (l, w1) → Kept (cleanUsername c) l w1.
Proof.
  unfold startOf.
  destruct (getFetchState (cleanUsername c) w0) as [st|] eqn:Hst; [|done].
  destruct (truthy (Some (fs_cursor st)) && negb (fs_completed st)) eqn:Hok;
    [|done].
  apply andb_true_iff in Hok as [Hcursor Hdone%negb_true_iff].
  intros [= <- <-]. exists st. simpl. repeat split; try done.
  unfold orElse. by rewrite Hcursor.
Qed.

(** A fetch that returns data with the stop flag raised leaves the
    checkpoint of the locals it ended with. *)
Lemma handleFetch_kept loading cleanupTook script w fd :
  let r := handleFetch settings loading a cleanupTook script w in
  r.1 = Fetched (Some fd) →
  stopFetchRef r.2 = true →
  ∃ l, Kept (cleanUsername c) l r.2
       ∧ fd_timeline fd = allTimeline l
       ∧ fd_cursor fd = cur l.
Proof.
  unfold handleFetch. cbv zeta.
  destruct loading; [done|].
  destruct (negb _ && _); [done|].
  destruct (String.eqb _ _); [done|].
  set (w0 := withNow _ _).
  destruct (startOf c (arg_isResume a) w0) as [[l w1]|] eqn:Hstart; [|done].
  destruct (fetchLoop c script l w1) as [[[e|] l2] w2] eqn:Hloop; [done|].
  pose proof (afterLoop_cases c l2 w2) as (Hstop3 & Hfd & Hstore & _).
  destruct (afterLoop c l2 w2) as [finalData w3]. simpl in *.
  intros [= ->] Hstopped. rewrite Hstop3 in Hstopped.
  rewrite Hstopped in Hstore. destruct Hstore as [Hstore _].
  destruct (Hfd fd eq_refl) as (Hitems & _ & Hcursor & Hinfo).
  exists l2. split; [|done].
  apply (Kept_same_store _ _ w2); [done|].
  destruct (fetchLoop_kept c _ _ _ _ _ Hloop) as [[-> Hsame] | Hkept]; [|done].
  destruct (arg_isResume a).
  - by apply Hsame, (startOf_kept w0).
  - unfold startOf in Hstart. injection Hstart as <- _. done.
Qed.

End KeptRun.

(** X3. When [handleFetch] returns data with the stop flag raised (by the
    user or by the timeout), the data is marked not completed and the
    checkpoint store holds a checkpoint with exactly the items and the
    cursor returned. That checkpoint can be resumed exactly when it is not
    marked completed; it is marked completed when the data carries no
    cursor, as after a stop raised during the last batch. *)
Theorem handleFetch_stop_keeps_checkpoint (settings : Settings) (loading : bool)
    (a : FetchArgs) (cleanupTook : Z) (script : list AdapterStep) (w : World)
    (fd : FinalData) :
  let key := cleanUsername (contextOf settings a) in
  let r := handleFetch settings loading a cleanupTook script w in
  r.1 = Fetched (Some fd) →
  stopFetchRef r.2 = true →
  fd_completed fd = false
  ∧ Holds key (fd_timeline fd) r.2
  ∧ ∃ st, getFetchState key r.2 = Some st
          ∧ fs_timeline st = fd_timeline fd
          ∧ fs_cursor st = orElse (fd_cursor fd) EmptyString
          ∧ (Resumable key r.2 ↔ fs_completed st = false)
          ∧ (truthy (fd_cursor fd) = false → fs_completed st = true).
Proof.
  intros key r Hfetched Hstopped.
  destruct (handleFetch_kept settings a loading cleanupTook script w fd
              Hfetched Hstopped)
    as (l & (st & Hst & Hitems & Hcursor & Hdone & Hhas) & Hfdt & Hfdc).
  fold r key in Hst.
  assert (fd_completed fd = false) as Hnot.
  { destruct (handleFetch_worked settings a loading cleanupTook script w)
      as [-> Hok].
    { intros toast. fold r. by rewrite Hfetched. }
    pose proof (handleFetch_run settings a cleanupTook script w Hok) as Hrun.
    fold r in Hrun. destruct r as [[toast | finalData | e] w'];
      simpl in Hfetched; try done. injection Hfetched as ->.
    destruct Hrun as (consumed & later & _ & _ & Hfd & _).
    destruct (Hfd fd eq_refl) as (_ & -> & _). simpl in Hstopped.
    by rewrite Hstopped. }
  split; [done|]. split; [exists st; by rewrite Hfdt|].
  exists st. rewrite Hfdt, Hfdc. repeat split; try done.
  - intros (st' & Hst' & _ & Hopen). by simplify_eq.
  - intros Hopen. exists st. split; [done|]. split; [|done].
    rewrite Hopen in Hdone. symmetry in Hdone.
    apply negb_false_iff, Hhas in Hdone.
    rewrite Hcursor. unfold orElse. rewrite Hdone.
    destruct (cur l) as [s|]; [|done]. simpl in *.
    apply negb_true_iff in Hdone. by apply String.eqb_neq.
  - intros Hnone. destruct (hasMore l) eqn:Hmore; [|by rewrite Hdone].
    rewrite Hhas in Hnone; done.
Qed.

Lemma handleFetch_stop_keeps_checkpoint_witness :
  fd_completed aliceStopped = false
  ∧ Holds (cleanUsername (contextOf batchMode fetchAlice))
      (fd_timeline aliceStopped) stoppedAfterFirst.2
  ∧ ∃ st, getFetchState (cleanUsername (contextOf batchMode fetchAlice))
            stoppedAfterFirst.2 = Some st
          ∧ fs_timeline st = fd_timeline aliceStopped
          ∧ fs_cursor st = orElse (fd_cursor aliceStopped) EmptyString
          ∧ (Resumable (cleanUsername (contextOf batchMode fetchAlice))
               stoppedAfterFirst.2 ↔ fs_completed st = false)
          ∧ (truthy (fd_cursor aliceStopped) = false → fs_completed st = true).
Proof.
  apply (handleFetch_stop_keeps_checkpoint batchMode false fetchAlice 100
           [stoppedDuring 1000 firstBatch; answers 1000 lastBatch] idle aliceStopped).
  - vm_compute. reflexivity.
  - vm_compute. reflexivity.
Defined.

(** A stop raised during the last batch: the data returned is marked not
    completed, the checkpoint is marked completed, and a resume is refused. *)
Example stop_during_last_batch :
  let r := handleFetch batchMode false fetchAlice 100
             [stoppedDuring 1000 lastBatch] idle in
  (∃ fd, r.1 = Fetched (Some fd) ∧ fd_completed fd = false)
  ∧ stopFetchRef r.2 = true
  ∧ (∃ st, getFetchState "alice" r.2 = Some st ∧ fs_completed st = true)
  ∧ (handleFetch batchMode false resumeAlice 100 [answers 1000 lastBatch] r.2).1
    = Refused "No resumable fetch found".
Proof. vm_compute. split; [|split; [|split]]; try done; by eexists. Qed.

(** X4. When [handleFetch] ends without exception and with the stop flag
    down, some call of it returned a batch that reports nothing more to
    fetch, the checkpoint and the cursor slot of the account are cleared,
    and the data returned, if any, is marked completed. *)
Theorem handleFetch_completion (settings : Settings) (loading : bool)
    (a : FetchArgs) (cleanupTook : Z) (script : list AdapterStep) (w : World)
    (finalData : option FinalData) :
  let key := cleanUsername (contextOf settings a) in
  let r := handleFetch settings loading a cleanupTook script w in
  r.1 = Fetched finalData →
  stopFetchRef r.2 = false →
  getFetchState key r.2 = None
  ∧ getCursor key r.2 = None
  ∧ (∀ fd, finalData = Some fd → fd_completed fd = true)
  ∧ ∃ front last data later,
      script = front ++ last :: later
      ∧ reply last = inr data
      ∧ hasMoreOf data = false.
Proof.
  intros key r Hfetched Hgo.
  destruct (handleFetch_worked settings a loading cleanupTook script w)
    as [-> Hok].
  { intros toast. fold r. by rewrite Hfetched. }
  pose proof (handleFetch_run settings a cleanupTook script w Hok) as Hrun.
  fold r in Hrun. destruct r as [[toast | finalData' | e] w'];
    simpl in Hfetched; try done. injection Hfetched as ->.
  destruct Hrun as (consumed & later & -> & _ & Hfd & _ & Hclear & _).
  simpl in *.
  destruct (Hclear Hgo) as (Hnostate & Hnocursor & front & last & data & -> & Hreply & Hmore).
  split; [done|]. split; [done|]. split.
  - intros fd Hsome. destruct (Hfd fd Hsome) as (_ & -> & _). by rewrite Hgo.
  - exists front, last, data, later. by rewrite <- app_assoc.
Qed.

Lemma handleFetch_completion_witness :
  getFetchState (cleanUsername (contextOf batchMode fetchAlice)) fetchedSingly.2 = None
  ∧ getCursor (cleanUsername (contextOf batchMode fetchAlice)) fetchedSingly.2 = None
  ∧ (∀ fd, Some aliceDone = Some fd → fd_completed fd = true)
  ∧ ∃ front last data later,
      twoBatches = front ++ last :: later
      ∧ reply last = inr data
      ∧ hasMoreOf data = false.
Proof.
  apply (handleFetch_completion batchMode false fetchAlice 100 twoBatches idle
           (Some aliceDone)).
  - vm_compute. reflexivity.
  - vm_compute. reflexivity.
Defined.

(** X5. When a call of [handleFetch] throws, the calls before it all
    returned batches, and the checkpoint store holds the items merged from
    them (on top of the resumed checkpoint), provided there was at least one
    batch or the fetch was a resume; a fresh fetch that fails at its first
    call leaves no checkpoint. *)
Theorem handleFetch_failure_keeps_items (settings : Settings) (loading : bool)
    (a : FetchArgs) (cleanupTook : Z) (script : list AdapterStep) (w : World)
    (e : string) :
  let key := cleanUsername (contextOf settings a) in
  let r := handleFetch settings loading a cleanupTook script w in
  r.1 = Threw e →
  ∃ consumed later,
    script = consumed ++ later
    ∧ Forall answered consumed
    ∧ failedAt e later
    ∧ (consumed ≠ [] ∨ arg_isResume a = true →
       Holds key (mergedThrough (startingItems (arg_isResume a) key w) consumed) r.2)
    ∧ (consumed = [] → arg_isResume a = false → getFetchState key r.2 = None).
Proof.
  intros key r Hthrew.
  destruct (handleFetch_worked settings a loading cleanupTook script w)
    as [-> Hok].
  { intros toast. fold r. by rewrite Hthrew. }
  pose proof (handleFetch_run settings a cleanupTook script w Hok) as Hrun.
  fold r in Hrun. destruct r as [[toast | finalData | e'] w'];
    simpl in Hthrew; try done. injection Hthrew as ->.
  destruct Hrun as (consumed & later & ? & ? & ? & ? & ? & _).
  by exists consumed, later.
Qed.

Lemma handleFetch_failure_keeps_items_witness :
  ∃ consumed later,
    [answers 1000 firstBatch; fails 500 "HTTP 429 Too Many Requests"]
    = consumed ++ later
    ∧ Forall answered consumed
    ∧ failedAt "HTTP 429 Too Many Requests" later
    ∧ (consumed ≠ [] ∨ arg_isResume fetchAlice = true →
       Holds (cleanUsername (contextOf batchMode fetchAlice))
         (mergedThrough
            (startingItems (arg_isResume fetchAlice)
               (cleanUsername (contextOf batchMode fetchAlice)) idle) consumed)
         failedAfterFirst.2)
    ∧ (consumed = [] → arg_isResume fetchAlice = false →
       getFetchState (cleanUsername (contextOf batchMode fetchAlice))
         failedAfterFirst.2 = None).
Proof.
  apply (handleFetch_failure_keeps_items batchMode false fetchAlice 100
           [answers 1000 firstBatch; fails 500 "HTTP 429 Too Many Requests"] idle
           "HTTP 429 Too Many Requests").
  vm_compute. reflexivity.
Defined.

(** X6. [handleFetch] changes the checkpoint store and the cursor slots
    under the key of the account it fetches at most. *)
Theorem handleFetch_isolated (settings : Settings) (loading : bool)
    (a : FetchArgs) (cleanupTook : Z) (script : list AdapterStep) (w : World) :
  sameElsewhere (cleanUsername (contextOf settings a)) w
    (handleFetch settings loading a cleanupTook script w).2.
Proof.
  destruct loading.
  { destruct (handleFetch_unaccepted settings a true cleanupTook script w)
      as [toast ->]; [by left|]. apply sameElsewhere_refl. }
  destruct (Accepted_dec settings a) as [Hok | Hno].
  2: { destruct (handleFetch_unaccepted settings a false cleanupTook script w)
         as [toast ->]; [by right|]. apply sameElsewhere_refl. }
  pose proof (handleFetch_run settings a cleanupTook script w Hok) as Hrun.
  destruct (handleFetch settings false a cleanupTook script w)
    as [[toast | finalData | e] w']; simpl in *.
  - destruct Hrun as (_ & _ & Hf & Hc & _). by apply sameElsewhere_same_store.
  - by destruct Hrun as (consumed & later & _ & _ & _ & _ & _ & ?).
  - by destruct Hrun as (consumed & later & _ & _ & _ & _ & _ & ?).
Qed.

(** X7. A fresh fetch that was stopped, followed by a resume of the same
    account on the store it left, returns the merge of the batches both
    consumed, in order: what one fetch would have returned from the same
    batches. *)
Theorem handleFetch_resume_continues (settings settings' : Settings)
    (a : FetchArgs) (cleanupTook cleanupTook' : Z)
    (script script' : list AdapterStep) (w w1 : World) (fd fd' : FinalData) :
  let first := handleFetch settings false a cleanupTook script w in
  let second := handleFetch settings' false (resumed a) cleanupTook' script' w1 in
  arg_isResume a = false →
  first.1 = Fetched (Some fd) →
  stopFetchRef first.2 = true →
  fetchStates w1 = fetchStates first.2 →
  second.1 = Fetched (Some fd') →
  ∃ consumed later consumed' later',
    script = consumed ++ later
    ∧ script' = consumed' ++ later'
    ∧ fd_timeline fd = mergedThrough [] consumed
    ∧ fd_timeline fd' = mergedThrough [] (consumed ++ consumed').
Proof.
  intros first second Hfresh Hfirst Hstopped Hstore Hsecond.
  destruct (handleFetch_worked settings a false cleanupTook script w) as [_ Hok].
  { intros toast. fold first. by rewrite Hfirst. }
  destruct (handleFetch_worked settings' (resumed a) false cleanupTook' script' w1)
    as [_ Hok'].
  { intros toast. fold second. by rewrite Hsecond. }
  pose proof (handleFetch_run settings a cleanupTook script w Hok) as Hrun.
  pose proof (handleFetch_run settings' (resumed a) cleanupTook' script' w1 Hok')
    as Hrun'.
  fold first in Hrun. fold second in Hrun'.
  destruct first as [[toast | finalData | e] w2]; simpl in Hfirst; try done.
  destruct second as [[toast' | finalData' | e'] w3]; simpl in Hsecond; try done.
  injection Hfirst as ->. injection Hsecond as ->. cbn [fst snd] in *.
  destruct Hrun as (consumed & later & Hscript & _ & Hfd & Hkept & _).
  destruct Hrun' as (consumed' & later' & Hscript' & _ & Hfd' & _).
  destruct (Hfd fd eq_refl) as (Hitems & _ & Hsome).
  destruct (Hfd' fd' eq_refl) as (Hitems' & _).
  destruct (Hkept Hstopped Hsome) as (st & Hst & Hst').
  rewrite Hfresh in Hitems, Hst'. cbn [startingItems] in Hitems, Hst'.
  exists consumed, later, consumed', later'.
  split; [done|]. split; [done|]. split; [done|].
  rewrite Hitems', mergedThrough_app. f_equal.
  change (startingItems (arg_isResume (resumed a))
            (cleanUsername (contextOf settings' (resumed a))) w1)
    with (match getFetchState (cleanUsername (contextOf settings a)) w1 with
          | Some st => fs_timeline st
          | None => []
          end).
  unfold getFetchState in *. by rewrite Hstore, Hst.
Qed.

Lemma handleFetch_resume_continues_witness :
  ∃ consumed later consumed' later',
    [stoppedDuring 1000 firstBatch; answers 1000 lastBatch] = consumed ++ later
    ∧ [answers 1000 lastBatch] = consumed' ++ later'
    ∧ fd_timeline aliceStopped = mergedThrough [] consumed
    ∧ fd_timeline aliceDone = mergedThrough [] (consumed ++ consumed').
Proof.
  apply (handleFetch_resume_continues batchMode batchMode fetchAlice 100 100
           [stoppedDuring 1000 firstBatch; answers 1000 lastBatch]
           [answers 1000 lastBatch] idle stoppedAfterFirst.2
           aliceStopped aliceDone).
  - reflexivity.
  - vm_compute. reflexivity.
  - vm_compute. reflexivity.
  - reflexivity.
  - vm_compute. reflexivity.
Defined.

(** ** The calls of a run *)

Section Chain.
Variable c : FetchCtx.

Lemma cursorDue_next start step data script j :
  reply step = inr data →
  cursorDue start (step :: script) (S j) = cursorDue (cursor data) script j.
Proof. intros Hreply. destruct j; simpl; by rewrite ?Hreply. Qed.

(** The calls of a run carry consecutive page numbers, and each the cursor
    of the batch before. *)
Lemma fetchLoop_calls script l w :
  ∃ more,
    trace (fetchLoop c script l w).2 = trace w ++ more
    ∧ ∀ i req,
        callsOf more !! i = Some req →
        req_page req = (page l + Z.of_nat i)%Z
        ∧ cursorDue (cur l) script i = Some (req_cursor req).
Proof.
  revert l w. induction script as [|step script IH]; intros l w;
    rewrite fetchLoop_eq;
    (destruct (hasMore l && negb (stopFetchRef w));
     [destruct (timeoutReached c w)|]).
  - destruct (saveOnStop_spec c l (withStopFetch true w)) as (more & Hmore & Hcalls & _).
    exists more. split; [done|]. intros i req. by rewrite Hcalls.
  - exists [EvCall (requestOf c l)]. split; [done|].
    intros [|i] req; [|done]. intros [= <-]. simpl. split; [lia | done].
  - exists []. split; [by rewrite app_nil_r | done].
  - destruct (saveOnStop_spec c l (withStopFetch true w)) as (more & Hmore & Hcalls & _).
    exists more. split; [done|]. intros i req. by rewrite Hcalls.
  - cbv zeta. destruct (reply step) as [e | data] eqn:Hreply.
    + exists [EvCall (requestOf c l)]. split; [done|].
      intros [|i] req; [|done]. intros [= <-]. simpl. split; [lia | done].
    + destruct (absorb c l data _) as [l1 w1] eqn:Habsorb.
      apply absorb_spec in Habsorb
        as (Hl1 & _ & _ & _ & _ & before & after & Htrace & Hbefore & Hafter).
      destruct (IH l1 w1) as (more & Hmore & Hcalls).
      exists (EvCall (requestOf c l) :: EvMerge (allTimeline l1) :: before
                ++ EvSaveState (snapshot c l1 (negb (hasMoreOf data))) :: after ++ more).
      split.
      * rewrite Hmore, Htrace. simpl. rewrite <- !app_assoc. simpl.
        by rewrite <- !app_assoc.
      * intros i req.
        replace (EvMerge (allTimeline l1) :: before
                   ++ EvSaveState (snapshot c l1 (negb (hasMoreOf data))) :: after ++ more)
          with ((EvMerge (allTimeline l1) :: before
                   ++ EvSaveState (snapshot c l1 (negb (hasMoreOf data))) :: after) ++ more).
        2: { simpl. by rewrite <- app_assoc. }
        rewrite callsOf_call, callsOf_app, callsOf_batch by done.
        destruct i as [|j].
        -- intros [= <-]. simpl. split; [lia | done].
        -- simpl. intros Hreq. destruct (Hcalls j req Hreq) as [Hpage Hcursor].
           rewrite Hl1 in Hpage, Hcursor. simpl in Hpage, Hcursor.
           split; [lia|].
           destruct j; simpl in *; by rewrite ?Hreply.
  - exists []. split; [by rewrite app_nil_r | done].
Qed.

End Chain.

(** X8. The calls of a [handleFetch] carry the page numbers 0, 1, 2, ...;
    the first call carries the cursor of the resumed checkpoint (none for a
    fresh fetch) and every later call the cursor of the batch the call
    before it returned. *)
Theorem handleFetch_chains_cursors (settings : Settings) (loading : bool)
    (a : FetchArgs) (cleanupTook : Z) (script : list AdapterStep) (w : World) :
  let key := cleanUsername (contextOf settings a) in
  let r := handleFetch settings loading a cleanupTook script w in
  ∃ more,
    trace r.2 = trace w ++ more
    ∧ ∀ i req,
        callsOf more !! i = Some req →
        req_page req = Z.of_nat i
        ∧ cursorDue (startingCursor (arg_isResume a) key w) script i
          = Some (req_cursor req).
Proof.
  intros key r. subst r. set (c := contextOf settings a). fold c in key.
  assert (loading = true ∨ ¬ Accepted settings a →
          ∃ more,
            trace (handleFetch settings loading a cleanupTook script w).2
            = trace w ++ more
            ∧ ∀ i req,
                callsOf more !! i = Some req →
                req_page req = Z.of_nat i
                ∧ cursorDue (startingCursor (arg_isResume a) key w) script i
                  = Some (req_cursor req)) as Hearly.
  { intros Hno.
    destruct (handleFetch_unaccepted settings a loading cleanupTook script w Hno)
      as [toast ->]. exists []. split; [by rewrite app_nil_r | done]. }
  destruct loading; [apply Hearly; by left|].
  destruct (Accepted_dec settings a) as [Hok | Hno]; [|apply Hearly; by right].
  clear Hearly. rewrite (handleFetch_accepted _ _ _ _ _ Hok). fold c.
  pose proof (startOf_cases settings a (arg_isResume a) (started cleanupTook w))
    as Hstart. fold c in Hstart.
  destruct (startOf c (arg_isResume a) (started cleanupTook w)) as [[l w1]|];
    [|exists []; split; [rewrite app_nil_r; reflexivity | done]].
  destruct Hstart as (_ & Hpage & _ & Hcur & _ & _ & _ & Hmode).
  assert (∃ prefix, trace w1 = trace w ++ prefix ∧ callsOf prefix = [])
    as (prefix & Hprefix & Hquiet).
  { destruct (arg_isResume a).
    - destruct Hmode as (_ & -> & _). exists []. by rewrite app_nil_r.
    - destruct Hmode as (_ & _ & ->). by eexists. }
  destruct (fetchLoop_calls c script l w1) as (more & Htrace & Hcalls).
  rewrite Hpage, Hcur in Hcalls.
  change (startingCursor (arg_isResume a) (cleanUsername c) (started cleanupTook w))
    with (startingCursor (arg_isResume a) key w) in Hcalls.
  destruct (fetchLoop c script l w1) as [[[errorMsg|] l2] w2]; simpl in Htrace.
  - exists (prefix ++ more). simpl. rewrite Htrace, Hprefix, <- app_assoc.
    split; [done|]. intros i req. rewrite callsOf_app, Hquiet. simpl.
    intros Hreq. destruct (Hcalls i req Hreq). split; [lia | done].
  - destruct (afterLoop_trace c l2 w2) as (tail & Htail & Hquiet').
    destruct (afterLoop c l2 w2) as [finalData w3]. simpl in *.
    exists (prefix ++ more ++ tail).
    rewrite Htail, Htrace, Hprefix, <- !app_assoc. split; [done|].
    intros i req. rewrite !callsOf_app, Hquiet, (callsOf_quiet tail Hquiet').
    rewrite app_nil_r. simpl.
    intros Hreq. destruct (Hcalls i req Hreq). split; [lia | done].
Qed.

(** ** Resume data *)

(** X28. After [handleClearResume] the checkpoint of the user name is gone
    and [handleResume] is turned down without a call; the cursor slot is
    kept, and a retry of an account of that user name that carries no
    cursor of its own still resumes from it. *)
Theorem handleClearResume_forgets (settings : Settings) (username authToken : string)
    (mediaType : option string) (retweets : option bool) (cleanupTook : Z)
    (script : list AdapterStep) (w : World) (account : MultipleAccount)
    (db : option (list DbAccount)) :
  let key := TrimSpace username in
  let w' := handleClearResume username w in
  let r := handleResume settings false username authToken mediaType retweets
             cleanupTook script w' in
  key ≠ EmptyString →
  TrimSpace authToken ≠ EmptyString →
  getFetchState key w' = None
  ∧ r.1 = Refused "No resumable fetch found"
  ∧ trace r.2 = trace w'
  ∧ getCursor key w' = getCursor key w
  ∧ (TrimSpace (acc_username account) = key →
     acc_cursor account = None →
     truthy (getCursor key w) = true →
     source (resumePoint account db w') = FromSavedCursor
     ∧ start_cursor (resumePoint account db w') = getCursor key w).
Proof.
  intros key w' r Hkey Htoken.
  assert (w' = clearFetchState key w) as Hw'.
  { unfold w', handleClearResume. fold key.
    by apply String.eqb_neq in Hkey as ->. }
  assert (getFetchState key w' = None) as Hgone.
  { rewrite Hw'. unfold getFetchState. simpl. by rewrite lookup_delete_eq. }
  assert (getCursor key w' = getCursor key w) as Hcursor by by rewrite Hw'.
  split; [done|]. split; [|split; [|split; [done|]]].
  - subst r. unfold handleResume, handleFetch. simpl.
    fold key. apply String.eqb_neq in Hkey as ->.
    apply String.eqb_neq in Htoken as ->. simpl.
    unfold startOf. simpl. fold key.
    change (getFetchState key _) with (getFetchState key w'). by rewrite Hgone.
  - subst r. unfold handleResume, handleFetch. simpl.
    fold key. apply String.eqb_neq in Hkey as ->.
    apply String.eqb_neq in Htoken as ->. simpl.
    unfold startOf. simpl. fold key.
    change (getFetchState key _) with (getFetchState key w'). by rewrite Hgone.
  - intros Hname Hnone Hsaved.
    unfold resumePoint. rewrite Hname, Hgone, Hnone, Hcursor, Hsaved. simpl.
    split; [done|]. by apply truthy_Some_default.
Qed.

Lemma handleClearResume_forgets_witness :
  getFetchState (TrimSpace "alice") (handleClearResume "alice" stoppedAfterFirst.2) = None
  ∧ (handleResume batchMode false "alice" "token" None None 100 twoBatches
       (handleClearResume "alice" stoppedAfterFirst.2)).1
    = Refused "No resumable fetch found"
  ∧ trace (handleResume batchMode false "alice" "token" None None 100 twoBatches
             (handleClearResume "alice" stoppedAfterFirst.2)).2
    = trace (handleClearResume "alice" stoppedAfterFirst.2)
  ∧ getCursor (TrimSpace "alice") (handleClearResume "alice" stoppedAfterFirst.2)
    = getCursor (TrimSpace "alice") stoppedAfterFirst.2
  ∧ (TrimSpace (acc_username aliceTask) = TrimSpace "alice" →
     acc_cursor aliceTask = None →
     truthy (getCursor (TrimSpace "alice") stoppedAfterFirst.2) = true →
     source (resumePoint aliceTask None (handleClearResume "alice" stoppedAfterFirst.2))
     = FromSavedCursor
     ∧ start_cursor
         (resumePoint aliceTask None (handleClearResume "alice" stoppedAfterFirst.2))
       = getCursor (TrimSpace "alice") stoppedAfterFirst.2).
Proof.
  apply (handleClearResume_forgets batchMode "alice" "token" None None 100
           twoBatches stoppedAfterFirst.2 aliceTask None); by vm_compute.
Defined.

(** ** The scope of the scheduler *)

Section Scope.

Lemma touchedOnly_refl i accs : touchedOnly i accs accs.
Proof. induction accs; [apply Forall2_nil_2 | apply Forall2_cons_2]; done. Qed.

Lemma touchedOnly_trans i accs1 accs2 accs3 :
  touchedOnly i accs1 accs2 → touchedOnly i accs2 accs3 → touchedOnly i accs1 accs3.
Proof.
  unfold touchedOnly. intros H12. revert accs3.
  induction H12 as [|x y accs1 accs2 (Hid & Hname & Hsame) _ IH]; intros accs3 H23.
  - by apply Forall2_nil_inv_l in H23 as ->.
  - apply Forall2_cons_inv_l in H23 as (z & accs3' & (Hid' & Hname' & Hsame') & H23 & ->).
    apply Forall2_cons_2; [|by apply IH].
    split; [congruence|]. split; [congruence|].
    intros Hx. rewrite Hsame', Hsame; [done..|]. by rewrite Hsame.
Qed.

Lemma setAccount_touches i (f : MultipleAccount → MultipleAccount) accs :
  (∀ acc, id (f acc) = id acc ∧ acc_username (f acc) = acc_username acc) →
  touchedOnly i accs (setAccount i f accs).
Proof.
  intros Hf. unfold touchedOnly, setAccount.
  induction accs as [|acc accs IH]; [apply Forall2_nil_2|].
  simpl. apply Forall2_cons_2; [|done].
  destruct (String.eqb (id acc) i) eqn:Hi.
  - destruct (Hf acc) as [? ?]. repeat split; try done.
    intros Hne. by apply String.eqb_neq in Hne; rewrite Hne in Hi.
  - done.
Qed.

Lemma touchedOnly_present i j accs accs' :
  touchedOnly i accs accs' →
  is_Some (statusOf j accs) → is_Some (statusOf j accs').
Proof.
  unfold statusOf. intros Htouched.
  induction Htouched as [|x y accs accs' (Hid & _) _ IH]; [done|].
  simpl. rewrite Hid. destruct (String.eqb (id x) j); [by eexists | done].
Qed.

Lemma touchedOnly_tasks i accs accs' :
  touchedOnly i accs accs' →
  id <$> accs' = id <$> accs ∧ acc_username <$> accs' = acc_username <$> accs.
Proof.
  intros Htouched.
  induction Htouched as [|x y accs accs' (Hid & Hname & _) _ [IH1 IH2]]; [done|].
  by rewrite !fmap_cons, Hid, Hname, IH1, IH2.
Qed.

(** The accounts the run of [i] did not touch stay settled, and those of
    [i] are what [f] makes of them. *)
Lemma setAccount_settles i (f : MultipleAccount → MultipleAccount) accs accs' :
  touchedOnly i accs accs' →
  Forall settled accs →
  (∀ acc, settled (f acc)) →
  Forall settled (setAccount i f accs').
Proof.
  intros Htouched Hsettled Hf. unfold setAccount.
  induction Htouched as [|x y accs accs' (Hid & _ & Hsame) _ IH];
    [apply List.Forall_nil|].
  apply Forall_cons in Hsettled as [Hx Hsettled].
  simpl. apply List.Forall_cons; [|by apply IH].
  rewrite Hid. destruct (String.eqb (id x) i) eqn:Hi; [by apply Hf|].
  apply String.eqb_neq in Hi. by rewrite (Hsame Hi).
Qed.

End Scope.

Section AccountScope.
Variable c : AccountCtx.

Lemma mergeBatch_scope l previous data accs w :
  let r := mergeBatch c l previous data accs w in
  touchedOnly (accountId c) accs r.1.2
  ∧ sameElsewhere (acc_cleanUsername c) w r.2
  ∧ fetchStates r.2 = fetchStates w
  ∧ r.1.1 = {| cur := cursor data;
               allTimeline := mergeTimelines (allTimeline l) (timeline data);
               accountInfo := firstAccountInfo (accountInfo l) data;
               hasMore := hasMoreOf data;
               page := (page l + 1)%Z |}.
Proof.
  unfold mergeBatch. simpl. split; [by apply setAccount_touches|].
  split; [|split; [|done]].
  - intros k Hk. destruct (truthy (cursor data)); simpl; by rewrite ?lookup_insert_ne.
  - by destruct (truthy (cursor data)).
Qed.

Lemma persistBatch_store l w :
  fetchStates (persistBatch l w) = fetchStates w
  ∧ cursors (persistBatch l w) = cursors w
  ∧ stopAllRef (persistBatch l w) = stopAllRef w
  ∧ accountStopFlagsRef (persistBatch l w) = accountStopFlagsRef w.
Proof. unfold persistBatch. by destruct (accountInfo l). Qed.

Lemma accountBatch_scope l previous data accs w l' accs' w' :
  accountBatch c l previous data accs w = (l', accs', w') →
  touchedOnly (accountId c) accs accs'
  ∧ sameElsewhere (acc_cleanUsername c) w w'
  ∧ (is_Some (accountInfo l') →
     getFetchState (acc_cleanUsername c) w'
     = Some (accountSnapshot c l' (negb (hasMore l')))).
Proof.
  unfold accountBatch.
  pose proof (mergeBatch_scope l previous data accs w) as (Htouched & Helse & _ & Hl).
  destruct (mergeBatch c l previous data accs w) as [[l1 accs1] w1]. simpl in *.
  intros [= <- <- <-].
  destruct (persistBatch_store l1
              (match accountInfo l1 with
               | Some _ => saveFetchState (accountSnapshot c l1 (negb (hasMore l1))) w1
               | None => w1
               end)) as (Hf & Hc & _).
  split; [done|]. split.
  - intros k Hk. rewrite Hf, Hc. destruct (Helse k Hk) as [<- <-].
    destruct (accountInfo l1); simpl; by rewrite ?lookup_insert_ne.
  - intros [info Hinfo]. unfold getFetchState. rewrite Hf, Hinfo. simpl.
    by rewrite lookup_insert_eq.
Qed.

Lemma saveOnAccountStop_store l w :
  sameElsewhere (acc_cleanUsername c) w (saveOnAccountStop c l w)
  ∧ stopAllRef (saveOnAccountStop c l w) = stopAllRef w
  ∧ accountStopFlagsRef (saveOnAccountStop c l w) = accountStopFlagsRef w.
Proof.
  unfold saveOnAccountStop.
  destruct (accountInfo l); [destruct (0 <? _)%nat|];
    (split; [|done]); intros k Hk; simpl; by rewrite ?lookup_insert_ne.
Qed.

Lemma awaitAccount_store i step w :
  fetchStates (awaitAccount i step w) = fetchStates w
  ∧ cursors (awaitAccount i step w) = cursors w.
Proof. unfold awaitAccount. by destruct (raisedStop step). Qed.

Lemma awaitAccount_elsewhere key i step e w :
  sameElsewhere key w (awaitAccount i step (emit e w)).
Proof.
  apply sameElsewhere_same_store.
  - by rewrite (proj1 (awaitAccount_store i step (emit e w))).
  - by rewrite (proj2 (awaitAccount_store i step (emit e w))).
Qed.

(** The scope of a run of the scheduler's loop: the accounts of other ids
    and the checkpoints of other keys stay as they are; a run that ends with
    nothing more to fetch and the account known leaves its checkpoint in
    the store, marked completed. *)
Lemma accountLoop_scope script l previous accs w :
  let r := accountLoop c script l previous accs w in
  touchedOnly (accountId c) accs (accounts r)
  ∧ sameElsewhere (acc_cleanUsername c) w (world r)
  ∧ (thrown r = None → hasMore l = true → hasMore (locals r) = false →
     is_Some (accountInfo (locals r)) →
     getFetchState (acc_cleanUsername c) (world r)
     = Some (accountSnapshot c (locals r) true)).
Proof.
  revert l previous accs w.
  induction script as [|step script IH]; intros l previous accs w;
    rewrite accountLoop_eq;
    (destruct (hasMore l && negb (stopAllRef w)) eqn:Hgo;
     [destruct (accountStopped _ w)|]); cbv zeta; cbn [accounts world locals thrown].
  - split; [apply touchedOnly_refl|]. split; [apply saveOnAccountStop_store|].
    intros _ Hmore Hnomore. by rewrite Hmore in Hnomore.
  - split; [apply touchedOnly_refl|].
    split; [by apply sameElsewhere_same_store | done].
  - split; [apply touchedOnly_refl|]. split; [apply sameElsewhere_refl|].
    intros _ Hmore Hnomore. by rewrite Hmore in Hnomore.
  - split; [apply touchedOnly_refl|]. split; [apply saveOnAccountStop_store|].
    intros _ Hmore Hnomore. by rewrite Hmore in Hnomore.
  - destruct (reply step) as [err | data] eqn:Hreply;
      cbn [accounts world locals thrown].
    + split; [apply touchedOnly_refl|]. split; [|done].
      apply awaitAccount_elsewhere.
    + destruct (accountBatch _ _ _ _ _ _) as [[l' accs'] w'] eqn:Hbatch.
      apply accountBatch_scope in Hbatch as (Htouched & Helse & Hsaved).
      destruct (IH l' (length (allTimeline l')) accs' w') as (Htouched' & Helse' & Hdone).
      split; [by eapply touchedOnly_trans|]. split.
      * eapply sameElsewhere_trans; [|exact Helse'].
        eapply sameElsewhere_trans; [|exact Helse].
        apply awaitAccount_elsewhere.
      * intros Hthrown _ Hnomore Hinfo.
        destruct (hasMore l') eqn:Hmore'; [by apply Hdone|].
        revert Hnomore Hinfo. rewrite accountLoop_eq, Hmore'.
        cbn [andb accounts world locals thrown].
        intros _ Hinfo. by rewrite (Hsaved Hinfo).
  - split; [apply touchedOnly_refl|]. split; [apply sameElsewhere_refl|].
    intros _ Hmore Hnomore. by rewrite Hmore in Hnomore.
Qed.

End AccountScope.

Section SchedulerScope.
Variable settings : Settings.
Variables authToken fetchedMediaType : string.

Lemma finalStatus_Completed wasTimeout stoppedAll more count :
  finalStatus wasTimeout stoppedAll more count = Completed →
  wasTimeout = false ∧ stoppedAll = false ∧ more = false.
Proof.
  unfold finalStatus, statusByCount.
  by destruct wasTimeout, stoppedAll, more, (count =? 0)%nat.
Qed.

Lemma finalStatus_settled wasTimeout stoppedAll more count :
  finalStatus wasTimeout stoppedAll more count ≠ Fetching.
Proof.
  unfold finalStatus, statusByCount.
  by destruct wasTimeout, stoppedAll, more, (count =? 0)%nat.
Qed.

Lemma errorStatus_settled errorMsg count : errorStatus errorMsg count ≠ Fetching.
Proof. unfold errorStatus. by destruct (_ || _). Qed.

Lemma statusByCount_settled count : statusByCount count ≠ Fetching.
Proof. unfold statusByCount. by destruct (count =? 0)%nat. Qed.

(** The scope of one turn of the queue. *)
Lemma fetchAccount_scope account script accs w :
  let r := fetchAccount settings authToken fetchedMediaType account script accs w in
  touchedOnly (id account) accs r.1.1.2
  ∧ sameElsewhere (TrimSpace (acc_username account)) w r.1.2
  ∧ (Forall settled accs → Forall settled r.1.1.2).
Proof.
  unfold fetchAccount.
  set (c := accountCtxOf settings authToken fetchedMediaType account).
  change (accountId c) with (id account).
  set (accs1 := setAccount (id account) (withStatus Fetching) accs).
  set (w1 := withAccountStopFlags _ w).
  assert (touchedOnly (id account) accs accs1) as Htouched1.
  { by apply setAccount_touches. }
  cbv zeta. destruct (stopAllRef w1).
  { cbn [fst snd]. split; [|split; [by apply sameElsewhere_same_store|]].
    - eapply touchedOnly_trans; [exact Htouched1|]. by apply setAccount_touches.
    - intros Hsettled. eapply setAccount_settles; [exact Htouched1 | done |].
      intros acc. apply statusByCount_settled. }
  pose proof (accountLoop_scope c script
                {| cur := None; allTimeline := []; accountInfo := None;
                   hasMore := true; page := 0 |}
                (mediaCount account) accs1 w1) as (Htouched & Helse & _).
  change (accountId c) with (id account) in Htouched.
  change (acc_cleanUsername c) with (TrimSpace (acc_username account)) in Helse.
  destruct (accountLoop c script _ (mediaCount account) accs1 w1)
    as [[e|] l accs2 w2 later]; cbn [thrown locals accounts world rest] in *.
  - unfold onAccountError. cbn [fst snd].
    change (accountId c) with (id account).
    split; [|split].
    + eapply touchedOnly_trans; [exact Htouched1|].
      eapply touchedOnly_trans; [exact Htouched|]. by apply setAccount_touches.
    + intros k Hk. by apply Helse.
    + intros Hsettled. eapply setAccount_settles; [|done|].
      * by eapply touchedOnly_trans.
      * intros acc. apply errorStatus_settled.
  - cbn [fst snd]. split; [|split].
    + eapply touchedOnly_trans; [exact Htouched1|].
      eapply touchedOnly_trans; [exact Htouched|]. by apply setAccount_touches.
    + intros k Hk. by apply Helse.
    + intros Hsettled. eapply setAccount_settles; [|done|].
      * by eapply touchedOnly_trans.
      * intros acc. apply finalStatus_settled.
Qed.

(** The scope of the queue. *)
Lemma fetchQueue_scope currentAccounts script accs w :
  let r := fetchQueue settings authToken fetchedMediaType currentAccounts script accs w in
  (id <$> r.1 = id <$> accs ∧ acc_username <$> r.1 = acc_username <$> accs)
  ∧ (Forall settled accs → Forall settled r.1)
  ∧ ∀ k, (∀ acc, acc ∈ currentAccounts → TrimSpace (acc_username acc) ≠ k) →
         fetchStates r.2 !! k = fetchStates w !! k
         ∧ cursors r.2 !! k = cursors w !! k.
Proof.
  revert script accs w.
  induction currentAccounts as [|account later IH]; intros script accs w; simpl.
  { by repeat split. }
  destruct (stopAllRef w); [by repeat split|].
  pose proof (fetchAccount_scope account script accs w) as (Htouched & Helse & Hsettled).
  destruct (fetchAccount settings authToken fetchedMediaType account script accs w)
    as [[[ending accs1] w1] script1]. cbn [fst snd] in *.
  destruct (IH script1 accs1 w1) as ((Hids & Hnames) & Hsettled' & Hstore).
  apply touchedOnly_tasks in Htouched as [Hids1 Hnames1].
  split; [split; congruence|]. split; [by auto|].
  intros k Hk.
  destruct (Hstore k) as [-> ->].
  { intros acc Hacc. apply Hk. by right. }
  apply Helse. intros ->. by apply (Hk account); [left|].
Qed.

End SchedulerScope.

(** X10. Given an auth token, [handleFetchAll] leaves no account in the
    status fetching, whatever the calls return or throw and whenever a stop
    is raised. *)
Theorem handleFetchAll_settles (settings : Settings) (authToken : option string)
    (fetchedMediaType : string) (multipleAccounts : list MultipleAccount)
    (script : list AdapterStep) (w : World) :
  TrimSpace (orElse authToken EmptyString) ≠ EmptyString →
  Forall settled
    (handleFetchAll settings authToken fetchedMediaType multipleAccounts script w).1.
Proof.
  intros Htoken. unfold handleFetchAll.
  destruct multipleAccounts as [|account later]; [apply List.Forall_nil|].
  apply String.eqb_neq in Htoken as ->.
  apply fetchQueue_scope. apply Forall_fmap, Forall_forall. by intros acc _.
Qed.

Lemma handleFetchAll_settles_witness : Forall settled fetchedInQueue.1.
Proof.
  apply (handleFetchAll_settles batchMode (Some "token") "all" [aliceTask] twoBatches idle).
  by vm_compute.
Defined.

(** X11. [handleFetchAll] keeps the ids and the user names of the account
    list, in order, and leaves the checkpoints and cursor slots of every
    key that is not the trimmed user name of a listed account as they
    were. *)
Theorem handleFetchAll_scope (settings : Settings) (authToken : option string)
    (fetchedMediaType : string) (multipleAccounts : list MultipleAccount)
    (script : list AdapterStep) (w : World) :
  let r := handleFetchAll settings authToken fetchedMediaType multipleAccounts script w in
  id <$> r.1 = id <$> multipleAccounts
  ∧ acc_username <$> r.1 = acc_username <$> multipleAccounts
  ∧ ∀ k, (∀ acc, acc ∈ multipleAccounts → TrimSpace (acc_username acc) ≠ k) →
         fetchStates r.2 !! k = fetchStates w !! k
         ∧ cursors r.2 !! k = cursors w !! k.
Proof.
  unfold handleFetchAll.
  destruct multipleAccounts as [|account later]; [done|].
  destruct (String.eqb _ _); [done|].
  set (accs := account :: later).
  pose proof (fetchQueue_scope settings (orElse authToken EmptyString)
                fetchedMediaType accs script (map resetAccount accs)
                (withStopAll false w)) as ((Hids & Hnames) & _ & Hstore).
  cbv zeta. split; [|split; [|done]].
  - rewrite Hids. change (map resetAccount accs) with (resetAccount <$> accs).
    rewrite <- list_fmap_compose. by apply list_fmap_ext.
  - rewrite Hnames. change (map resetAccount accs) with (resetAccount <$> accs).
    rewrite <- list_fmap_compose. by apply list_fmap_ext.
Qed.

(** X12. One turn of the queue of [handleFetchAll] changes the accounts of
    the id it fetches at most (their id and user name apart), and the
    checkpoint and cursor slot of its trimmed user name at most. *)
Theorem fetchAccount_isolated (settings : Settings)
    (authToken fetchedMediaType : string) (account : MultipleAccount)
    (script : list AdapterStep) (accs : list MultipleAccount) (w : World) :
  let r := fetchAccount settings authToken fetchedMediaType account script accs w in
  touchedOnly (id account) accs r.1.1.2
  ∧ sameElsewhere (TrimSpace (acc_username account)) w r.1.2.
Proof.
  intros r.
  destruct (fetchAccount_scope settings authToken fetchedMediaType account
              script accs w) as (? & ? & _).
  by split.
Qed.

(** ** Retries *)

Section RetryScope.
Variable c : AccountCtx.

Lemma retryBatch_scope l previous data accs w l' accs' w' :
  retryBatch c l previous data accs w = (l', accs', w') →
  touchedOnly (accountId c) accs accs'
  ∧ sameElsewhere (acc_cleanUsername c) w w'.
Proof.
  unfold retryBatch.
  pose proof (mergeBatch_scope c l previous data accs w) as (Htouched & Helse & _ & Hl).
  destruct (mergeBatch c l previous data accs w) as [[l1 accs1] w1]. simpl in *.
  intros [= <- <- <-].
  destruct (persistBatch_store l1
              (if retrySavesState c l1 w1
               then saveFetchState (accountSnapshot c l1 (negb (hasMore l1))) w1
               else w1)) as (Hf & Hc & _).
  split; [done|].
  intros k Hk. rewrite Hf, Hc. destruct (Helse k Hk) as [<- <-].
  destruct (retrySavesState c l1 w1); simpl; by rewrite ?lookup_insert_ne.
Qed.

Lemma retryLoop_scope script l previous accs w :
  let r := retryLoop c script l previous accs w in
  touchedOnly (accountId c) accs (accounts r)
  ∧ sameElsewhere (acc_cleanUsername c) w (world r).
Proof.
  revert l previous accs w.
  induction script as [|step script IH]; intros l previous accs w;
    rewrite retryLoop_eq;
    (destruct (hasMore l && negb (stopAllRef w)) eqn:Hgo;
     [destruct (accountStopped _ w)|]); cbv zeta; cbn [accounts world locals thrown];
    try (split; [apply touchedOnly_refl|];
         first [apply sameElsewhere_refl | by apply sameElsewhere_same_store]).
  destruct (reply step) as [err | data] eqn:Hreply;
    cbn [accounts world locals thrown].
  - split; [apply touchedOnly_refl|]. apply awaitAccount_elsewhere.
  - destruct (retryBatch _ _ _ _ _ _) as [[l' accs'] w'] eqn:Hbatch.
    apply retryBatch_scope in Hbatch as (Htouched & Helse).
    destruct (IH l' (length (allTimeline l')) accs' w') as (Htouched' & Helse').
    split; [by eapply touchedOnly_trans|].
    eapply sameElsewhere_trans; [|exact Helse'].
    eapply sameElsewhere_trans; [|exact Helse].
    apply awaitAccount_elsewhere.
Qed.

(** With stop-all raised the loop of a retry does not run. *)
Lemma retryLoop_stopped script l previous accs w :
  stopAllRef w = true →
  retryLoop c script l previous accs w
  = {| thrown := None; locals := l; accounts := accs; world := w; rest := script |}.
Proof.
  intros Hall. rewrite retryLoop_eq, Hall. by rewrite andb_false_r.
Qed.

End RetryScope.

Section ResumePointWorld.

Lemma resumePoint_world (account : MultipleAccount) (db : option (list DbAccount))
    (w : World) :
  let key := TrimSpace (acc_username account) in
  let s := resumePoint account db w in
  start_world s = w ∨ start_world s = clearCursor key (clearFetchState key w).
Proof.
  intros key s. subst s. unfold resumePoint. fold key.
  destruct (getFetchState key w) as [st|];
    [destruct (truthy (Some (fs_cursor st)) && negb (fs_completed st)); [by left|]|];
    (destruct (negb (truthy (acc_cursor account))); [|by left]);
    (destruct (truthy (getCursor key w)); [by left|]);
    (destruct db as [accounts|]; [|by right]);
    (destruct (findDbAccount key accounts) as [dbAccount|]; [|by right]);
    (destruct (truthy (Some (db_cursor dbAccount))); [by left | by right]).
Qed.

Lemma resumePoint_quiet (account : MultipleAccount) (db : option (list DbAccount))
    (w : World) :
  let key := TrimSpace (acc_username account) in
  let s := resumePoint account db w in
  stopAllRef (start_world s) = stopAllRef w
  ∧ sameElsewhere key w (start_world s)
  ∧ ∃ more, trace (start_world s) = trace w ++ more ∧ callsOf more = [].
Proof.
  intros key s. destruct (resumePoint_world account db w) as [Hw | Hw];
    fold key s in Hw; rewrite Hw.
  - split; [done|]. split; [apply sameElsewhere_refl|].
    exists []. by rewrite app_nil_r.
  - split; [done|]. split.
    + intros k Hk. simpl. by rewrite !lookup_delete_ne.
    + exists [EvClearState key; EvClearCursor key]. simpl.
      by rewrite <- app_assoc.
Qed.

End ResumePointWorld.

(** X13. When a turn of the queue of [handleFetchAll] ends with the account
    completed and known, nothing is left to fetch and the checkpoint of the
    account stays in the store, marked completed, with all the items. *)
Theorem fetchAccount_completed_keeps_checkpoint (settings : Settings)
    (authToken fetchedMediaType : string) (account : MultipleAccount)
    (script : list AdapterStep) (accs : list MultipleAccount) (w : World)
    (l : Locals) :
  let key := TrimSpace (acc_username account) in
  let r := fetchAccount settings authToken fetchedMediaType account script accs w in
  r.1.1.1 = Left l →
  statusOf (id account) r.1.1.2 = Some Completed →
  is_Some (accountInfo l) →
  hasMore l = false
  ∧ ∃ st, getFetchState key r.1.2 = Some st
          ∧ fs_completed st = true
          ∧ fs_timeline st = allTimeline l.
Proof.
  intros key r. subst r. unfold fetchAccount.
  set (c := accountCtxOf settings authToken fetchedMediaType account).
  change (accountId c) with (id account).
  set (accs1 := setAccount (id account) (withStatus Fetching) accs).
  set (w1 := withAccountStopFlags _ w).
  cbv zeta. destruct (stopAllRef w1); [done|].
  pose proof (accountLoop_scope c script
                {| cur := None; allTimeline := []; accountInfo := None;
                   hasMore := true; page := 0 |}
                (mediaCount account) accs1 w1) as (_ & _ & Hdone).
  change (acc_cleanUsername c) with key in Hdone.
  destruct (accountLoop c script _ (mediaCount account) accs1 w1)
    as [[e|] l2 accs2 w2 later]; cbn [thrown locals accounts world rest] in *.
  { unfold onAccountError. by cbn [fst snd]. }
  cbn [fst snd]. intros [= <-] Hstatus Hinfo.
  rewrite statusOf_setAccount in Hstatus by done.
  destruct (List.find _ accs2) as [acc|]; [|done]. simpl in Hstatus.
  injection Hstatus as Hstatus.
  apply finalStatus_Completed in Hstatus as (_ & _ & Hnomore).
  split; [done|]. eexists. split; [by apply Hdone|]. done.
Qed.

Lemma fetchAccount_completed_keeps_checkpoint_witness :
  hasMore finishedLocals = false
  ∧ ∃ st, getFetchState (TrimSpace (acc_username aliceTask))
            (fetchAccount batchMode "token" "all" aliceTask twoBatches
               [aliceTask] idle).1.2 = Some st
          ∧ fs_completed st = true
          ∧ fs_timeline st = allTimeline finishedLocals.
Proof.
  apply (fetchAccount_completed_keeps_checkpoint batchMode "token" "all"
           aliceTask twoBatches [aliceTask] idle finishedLocals).
  - vm_compute. reflexivity.
  - vm_compute. reflexivity.
  - by eexists.
Defined.

(** X14. When [handleRetryAccount] leaves the account completed, its loop
    ended with nothing more to fetch, and the checkpoint and the cursor slot
    of the account are cleared. *)
Theorem handleRetryAccount_completed (settings : Settings) (authToken : option string)
    (fetchedMediaType : string) (retryId : string) (db : option (list DbAccount))
    (script : list AdapterStep) (multipleAccounts : list MultipleAccount) (w : World)
    (out : Ending * list MultipleAccount * World) :
  handleRetryAccount settings authToken fetchedMediaType retryId db script
    multipleAccounts w = Some out →
  statusOf retryId out.1.2 = Some Completed →
  ∃ account l,
    List.find (λ acc, String.eqb (id acc) retryId) multipleAccounts = Some account
    ∧ out.1.1 = Left l
    ∧ hasMore l = false
    ∧ getFetchState (TrimSpace (acc_username account)) out.2 = None
    ∧ getCursor (TrimSpace (acc_username account)) out.2 = None.
Proof.
  unfold handleRetryAccount.
  destruct (List.find _ multipleAccounts) as [account|] eqn:Hfind; [|done].
  destruct (String.eqb _ _); [done|]. cbv zeta.
  set (c := accountCtxOf _ _ _ account).
  set (s := resumePoint account db w).
  destruct (retryLoop c script _ _ _ _) as [[e|] l accs2 w2 later];
    cbn [thrown locals accounts world rest].
  - unfold onAccountError. intros [= <-]. cbn [fst snd].
    change (accountId c) with (id account).
    assert (id account = retryId) as ->
      by (by apply find_some in Hfind as [_ ?%String.eqb_eq]).
    rewrite statusOf_setAccount by done.
    destruct (List.find _ accs2) as [acc|]; [|done]. simpl.
    intros [= Hstatus]. unfold errorStatus in Hstatus. by destruct (_ || _).
  - destruct (finalStatus _ _ _ _) eqn:Hfinal;
      intros [= <-]; cbn [fst snd];
      try (rewrite statusOf_setAccount by done;
           destruct (List.find _ accs2) as [acc|]; by simpl).
    intros _. apply finalStatus_Completed in Hfinal as (_ & _ & Hnomore).
    exists account, l. split; [done|]. split; [done|]. split; [done|].
    change (acc_cleanUsername c) with (TrimSpace (acc_username account)).
    split; [apply getFetchState_clear | apply getCursor_clear].
Qed.

Lemma handleRetryAccount_completed_witness :
  ∃ account l,
    List.find (λ acc, String.eqb (id acc) "task-1") [aliceTask] = Some account
    ∧ retriedOutcome.1.1 = Left l
    ∧ hasMore l = false
    ∧ getFetchState (TrimSpace (acc_username account)) retriedOutcome.2 = None
    ∧ getCursor (TrimSpace (acc_username account)) retriedOutcome.2 = None.
Proof.
  apply (handleRetryAccount_completed batchMode (Some "token") "all" "task-1" None
           twoBatches [aliceTask] idle retriedOutcome).
  - vm_compute. reflexivity.
  - vm_compute. reflexivity.
Defined.

(** X15. [handleRetryAccount] does not lower the stop-all flag: a retry made
    while it is raised makes no call, keeps the items of the checkpoint it
    resumed, and leaves the account failed when there are none, incomplete
    otherwise. *)
Theorem handleRetryAccount_after_stop_all (settings : Settings)
    (authToken : option string) (fetchedMediaType : string) (retryId : string)
    (db : option (list DbAccount)) (script : list AdapterStep)
    (multipleAccounts : list MultipleAccount) (w : World) (account : MultipleAccount) :
  List.find (λ acc, String.eqb (id acc) retryId) multipleAccounts = Some account →
  TrimSpace (orElse authToken EmptyString) ≠ EmptyString →
  stopAllRef w = true →
  ∃ l accs' w',
    handleRetryAccount settings authToken fetchedMediaType retryId db script
      multipleAccounts w = Some (Left l, accs', w')
    ∧ callsOf (trace w') = callsOf (trace w)
    ∧ allTimeline l = start_timeline (resumePoint account db w)
    ∧ statusOf retryId accs' = Some (statusByCount (length (allTimeline l)))
    ∧ stopAllRef w' = true.
Proof.
  intros Hfind Htoken Hall.
  assert (id account = retryId) as Hid
    by (by apply find_some in Hfind as [_ ?%String.eqb_eq]).
  unfold handleRetryAccount. rewrite Hfind.
  apply String.eqb_neq in Htoken as ->. cbv zeta.
  destruct (resumePoint_quiet account db w) as (Hall' & _ & more & Htrace & Hquiet).
  set (s := resumePoint account db w) in *.
  set (c := accountCtxOf _ _ _ account).
  set (w1 := withAccountStopFlags _ (start_world s)).
  rewrite retryLoop_stopped by (unfold w1; simpl; by rewrite Hall', Hall).
  cbn [thrown locals accounts world rest allTimeline hasMore].
  assert (accountStopped retryId
            (withAccountMediaCount
               (<[retryId := length (start_timeline s)]> (accountMediaCountRef w1)) w1)
          = false) as ->.
  { unfold accountStopped, w1. simpl. by rewrite lookup_insert_eq. }
  assert (stopAllRef
            (withAccountMediaCount
               (<[retryId := length (start_timeline s)]> (accountMediaCountRef w1)) w1)
          = true) as ->.
  { unfold w1. simpl. by rewrite Hall', Hall. }
  assert (finalStatus false true true (length (start_timeline s))
          = statusByCount (length (start_timeline s))) as Hfinal by done.
  assert (is_Some (statusOf retryId
                     (setAccount retryId
                        (withRetryStart (start_previousMediaCount s)) multipleAccounts)))
    as Hpresent.
  { apply statusOf_present; [done|]. unfold statusOf. rewrite Hfind. by eexists. }
  rewrite Hfinal.
  destruct (statusByCount (length (start_timeline s))) eqn:Hs;
    try (by unfold statusByCount in Hs; destruct (_ =? _)%nat);
    eexists _, _, _; (split; [done|]); simpl;
    rewrite Htrace, callsOf_app, Hquiet, app_nil_r, Hall', Hall, Hs;
    (split; [done|]); (split; [done|]);
    (split; [by apply statusOf_withStatus | done]).
Qed.

Lemma handleRetryAccount_after_stop_all_witness :
  ∃ l accs' w',
    handleRetryAccount batchMode (Some "token") "all" "task-1" None twoBatches
      [aliceTask] (handleStopAll [aliceTask] idle).2 = Some (Left l, accs', w')
    ∧ callsOf (trace w') = callsOf (trace (handleStopAll [aliceTask] idle).2)
    ∧ allTimeline l
      = start_timeline (resumePoint aliceTask None (handleStopAll [aliceTask] idle).2)
    ∧ statusOf "task-1" accs' = Some (statusByCount (length (allTimeline l)))
    ∧ stopAllRef w' = true.
Proof.
  apply (handleRetryAccount_after_stop_all batchMode (Some "token") "all" "task-1"
           None twoBatches [aliceTask] (handleStopAll [aliceTask] idle).2 aliceTask).
  - reflexivity.
  - by vm_compute.
  - reflexivity.
Defined.

(** X16. [handleRetryAccount] changes the accounts of the retried id at most
    (their id and user name apart), and the checkpoint and cursor slot of
    its trimmed user name at most. *)
Theorem handleRetryAccount_isolated (settings : Settings) (authToken : option string)
    (fetchedMediaType : string) (retryId : string) (db : option (list DbAccount))
    (script : list AdapterStep) (multipleAccounts : list MultipleAccount) (w : World)
    (account : MultipleAccount) (out : Ending * list MultipleAccount * World) :
  List.find (λ acc, String.eqb (id acc) retryId) multipleAccounts = Some account →
  handleRetryAccount settings authToken fetchedMediaType retryId db script
    multipleAccounts w = Some out →
  touchedOnly retryId multipleAccounts out.1.2
  ∧ sameElsewhere (TrimSpace (acc_username account)) w out.2.
Proof.
  intros Hfind.
  assert (id account = retryId) as Hid
    by (by apply find_some in Hfind as [_ ?%String.eqb_eq]).
  unfold handleRetryAccount. rewrite Hfind.
  destruct (String.eqb _ _); [done|]. cbv zeta.
  destruct (resumePoint_quiet account db w) as (_ & Helse0 & _).
  set (s := resumePoint account db w) in *.
  set (c := accountCtxOf _ _ _ account).
  set (accs1 := setAccount retryId _ multipleAccounts).
  set (w1 := withAccountStopFlags _ (start_world s)).
  assert (touchedOnly retryId multipleAccounts accs1) as Htouched1.
  { by apply setAccount_touches. }
  pose proof (retryLoop_scope c script
                {| cur := start_cursor s; allTimeline := start_timeline s;
                   accountInfo := start_accountInfo s; hasMore := true; page := 0 |}
                (start_previousMediaCount s) accs1 w1) as (Htouched & Helse).
  change (accountId c) with (id account) in Htouched. rewrite Hid in Htouched.
  change (acc_cleanUsername c) with (TrimSpace (acc_username account)) in *.
  assert (sameElsewhere (TrimSpace (acc_username account)) w w1) as Helse1.
  { intros k Hk. by apply Helse0. }
  destruct (retryLoop c script _ _ accs1 w1) as [[e|] l accs2 w2 later];
    cbn [thrown locals accounts world rest] in *.
  - unfold onAccountError. intros [= <-]. cbn [fst snd].
    change (accountId c) with (id account). rewrite Hid. split.
    + eapply touchedOnly_trans; [exact Htouched1|].
      eapply touchedOnly_trans; [exact Htouched|]. by apply setAccount_touches.
    + eapply sameElsewhere_trans; [exact Helse1|]. intros k Hk. by apply Helse.
  - assert (∀ f : MultipleAccount → MultipleAccount,
              (∀ acc, id (f acc) = id acc ∧ acc_username (f acc) = acc_username acc) →
              touchedOnly retryId multipleAccounts (setAccount retryId f accs2))
      as Hset.
    { intros f Hf. eapply touchedOnly_trans; [exact Htouched1|].
      eapply touchedOnly_trans; [exact Htouched|]. by apply setAccount_touches. }
    assert (sameElsewhere (TrimSpace (acc_username account)) w
              (withAccountMediaCount
                 (<[retryId := length (allTimeline l)]> (accountMediaCountRef w2)) w2))
      as Helse2.
    { eapply sameElsewhere_trans; [exact Helse1|]. intros k Hk. by apply Helse. }
    destruct (finalStatus _ _ _ _); intros [= <-]; cbn [fst snd];
      (split; [by apply Hset|]); try done.
    eapply sameElsewhere_trans; [exact Helse2|].
    intros k Hk. simpl. by rewrite !lookup_delete_ne.
Qed.

Lemma handleRetryAccount_isolated_witness :
  touchedOnly "task-1" [aliceTask] retriedOutcome.1.2
  ∧ sameElsewhere (TrimSpace (acc_username aliceTask)) idle retriedOutcome.2.
Proof.
  apply (handleRetryAccount_isolated batchMode (Some "token") "all" "task-1" None
           twoBatches [aliceTask] idle aliceTask retriedOutcome).
  - reflexivity.
  - vm_compute. reflexivity.
Defined.

(** X17. [handleStopAll] leaves no account fetching, and with the flag it
    raises the loops of [handleFetchAll] and [handleRetryAccount] end before
    their next call, their state untouched. After [handleStopAccount] the
    loop of [handleFetchAll] for that account makes no further call either,
    and saves a checkpoint that is not completed with the items fetched so
    far when there are some and the account is known. *)
Theorem stop_handlers_end_runs (c : AccountCtx) (multipleAccounts : list MultipleAccount)
    (script : list AdapterStep) (l : Locals) (previous : nat)
    (accs : list MultipleAccount) (w : World) :
  let all := handleStopAll multipleAccounts w in
  let one := handleStopAccount (accountId c) multipleAccounts w in
  (Forall settled all.1
   ∧ accountLoop c script l previous accs all.2
     = {| thrown := None; locals := l; accounts := accs; world := all.2;
          rest := script |}
   ∧ retryLoop c script l previous accs all.2
     = {| thrown := None; locals := l; accounts := accs; world := all.2;
          rest := script |})
  ∧ (let r := accountLoop c script l previous accs one.2 in
     thrown r = None ∧ locals r = l ∧ rest r = script
     ∧ callsOf (trace (world r)) = callsOf (trace w)
     ∧ (hasMore l = true → stopAllRef w = false →
        is_Some (accountInfo l) → allTimeline l ≠ [] →
        Checkpointed (acc_cleanUsername c) (allTimeline l) (world r))).
Proof.
  intros all one. split; [split; [|split]|].
  - unfold all, handleStopAll. simpl. apply Forall_fmap, Forall_forall.
    intros acc _. unfold settled, stopFetching.
    destruct (status acc) eqn:Hstatus; simpl; rewrite ?Hstatus; try done.
    apply statusByCount_settled.
  - rewrite accountLoop_eq. simpl. by rewrite andb_false_r.
  - by apply retryLoop_stopped.
  - cbv zeta. rewrite accountLoop_eq.
    assert (accountStopped (accountId c) one.2 = true) as ->.
    { unfold accountStopped, one. simpl. by rewrite lookup_insert_eq. }
    change (stopAllRef one.2) with (stopAllRef w).
    destruct (hasMore l && negb (stopAllRef w)) eqn:Hgo;
      cbn [thrown locals accounts world rest].
    + destruct (saveOnAccountStop_spec c l one.2) as (more & Htrace & Hquiet).
      split; [done|]. split; [done|]. split; [done|]. split.
      * rewrite Htrace, callsOf_app, Hquiet. by rewrite app_nil_r.
      * intros _ _ [info Hinfo] Hitems. unfold saveOnAccountStop.
        rewrite Hinfo. destruct (allTimeline l) as [|e items] eqn:Hl; [done|].
        simpl. eexists. split; [unfold getFetchState; simpl; by rewrite lookup_insert_eq|].
        simpl. by rewrite Hl.
    + split; [done|]. split; [done|]. split; [done|]. split; [done|].
      intros Hmore Hall. by rewrite Hmore, Hall in Hgo.
Qed.

(** X9. The tick of the timer raises the stop flag exactly when the loop of
    [handleFetch] would find the timeout reached; the remaining time it
    shows is never negative and is zero exactly then; after such a tick the
    loop makes no further call. *)
Theorem tick_agrees_with_loop (settings : Settings) (a : FetchArgs) (w : World) :
  let c := contextOf settings a in
  let r := tick settings w in
  stopFetchRef r.2 = stopFetchRef w || timeoutReached c w
  ∧ (∀ elapsed remaining,
       r.1 = Some (elapsed, remaining) →
       (0 ≤ remaining)%Z
       ∧ (remaining = 0%Z ↔ timeoutReached c w = true))
  ∧ (timeoutReached c w = true →
     ∀ script l, fetchLoop c script l r.2 = (None, l, r.2)).
Proof.
  intros c r. subst r. unfold tick, timeoutReached.
  change (ctx_timeout c) with (timeoutSeconds settings).
  destruct (fetchStartTimeRef w) as [start|] eqn:Hstart; simpl.
  2: { rewrite orb_false_r. by repeat split. }
  set (T := timeoutSeconds settings). set (elapsed := elapsedSince start w).
  destruct (Z.max 0 (T - elapsed) <=? 0)%Z eqn:Hleft;
    destruct (T <=? elapsed)%Z eqn:Hreached; try lia; simpl.
  - rewrite orb_true_r. split; [done|]. split.
    + intros ? ? [= <- <-]. split; [lia|]. split; [done | lia].
    + intros _ script l. rewrite fetchLoop_eq. simpl. by rewrite andb_false_r.
  - rewrite orb_false_r. split; [done|]. split; [|done].
    intros ? ? [= <- <-]. split; [lia|]. split; [lia | done].
Qed.

(** ** The history and the account list *)

(** X18. [addToHistory] puts the new item first, keeps at most [MAX_HISTORY]
    items, drops the older items of the same user name (compared without
    case) and keeps the history free of duplicate user names when it was;
    [removeFromHistory] removes exactly the items of the given id. *)
Theorem history_stays_tidy (data : FinalData) (uuid removed : string)
    (timestamp : Z) (prev : list HistoryItem) :
  let added := addToHistory data uuid timestamp prev in
  let pruned := removeFromHistory removed prev in
  (length added ≤ MAX_HISTORY
   ∧ (∃ newItem older,
        added = newItem :: older
        ∧ h_id newItem = uuid
        ∧ h_username newItem = Backend.name (fd_account_info data)
        ∧ h_mediaCount newItem = length (fd_timeline data)
        ∧ (ToLower (Backend.name (fd_account_info data)) ∉ historyNames older)
        ∧ (older `sublist_of` prev))
   ∧ (NoDup (historyNames prev) → NoDup (historyNames added)))
  ∧ (pruned `sublist_of` prev
     ∧ Forall (λ h, h_id h ≠ removed) pruned
     ∧ (∀ h, h ∈ prev → h_id h ≠ removed → h ∈ pruned)
     ∧ (NoDup (historyNames prev) → NoDup (historyNames pruned))).
Proof.
  intros added pruned. split.
  - subst added. unfold addToHistory.
    set (apiUsername := Backend.name (fd_account_info data)).
    set (filtered := filter _ prev).
    set (newItem := {| h_id := uuid |}).
    assert (take 9 filtered `sublist_of` prev) as Hsub.
    { etrans; [apply sublist_take | apply sublist_filter]. }
    assert (ToLower apiUsername ∉ historyNames (take 9 filtered)) as Hnew.
    { unfold historyNames. intros (h & Heq & Hin)%list_elem_of_fmap.
      apply (λ H, elem_of_sublist _ _ _ H (sublist_take _ _)) in Hin.
      unfold filtered in Hin.
      apply list_elem_of_filter in Hin as [Hne _]. by destruct Hne. }
    split; [apply firstn_le_length|]. split.
    + by exists newItem, (take 9 filtered).
    + intros Hnodup. change (take MAX_HISTORY (newItem :: filtered))
        with (newItem :: take 9 filtered).
      unfold historyNames. rewrite fmap_cons. apply NoDup_cons. split; [done|].
      eapply sublist_NoDup; [exact Hnodup|]. by apply fmap_sublist.
  - subst pruned. unfold removeFromHistory. split; [apply sublist_filter|].
    split; [|split].
    + apply Forall_forall. by intros h [? _]%list_elem_of_filter.
    + intros h Hin Hne. by apply list_elem_of_filter.
    + intros Hnodup. eapply sublist_NoDup; [exact Hnodup|].
      apply fmap_sublist, sublist_filter.
Qed.

Section ParseUsername.

Lemma handleRun_plain s : plainHandle (handleRun s).
Proof.
  unfold plainHandle. induction s as [|ch s IH]; simpl; [apply List.Forall_nil|].
  destruct (isHandleChar ch) eqn:Hch; [|apply List.Forall_nil].
  simpl. by apply List.Forall_cons.
Qed.

Lemma handleRun_append handle rest :
  plainHandle handle → endsHandle rest → handleRun (handle +:+ rest) = handle.
Proof.
  unfold plainHandle. induction handle as [|ch handle IH]; simpl.
  - intros _. destruct rest as [|ch rest]; [done|]. simpl. by intros ->.
  - intros [Hch Hplain]%Forall_cons Hrest. by rewrite Hch, IH.
Qed.

Lemma matchAfter_plain host s run :
  matchAfter host s = Some run → run ≠ EmptyString ∧ plainHandle run.
Proof.
  unfold matchAfter. destruct (HasPrefix s host); [|done].
  pose proof (handleRun_plain (from (String.length host) s)) as Hplain.
  destruct (handleRun _); [done|]. by intros [= <-].
Qed.

Lemma matchHere_plain s run :
  matchHere s = Some run → run ≠ EmptyString ∧ plainHandle run.
Proof.
  unfold matchHere. destruct (matchAfter "x.com/" s) as [r|] eqn:Hx.
  - intros [= <-]. by eapply matchAfter_plain.
  - by apply matchAfter_plain.
Qed.

Lemma matchHandle_eq s :
  matchHandle s
  = match matchHere s with
    | Some run => Some run
    | None =>
        match s with
        | EmptyString => None
        | String _ s' => matchHandle s'
        end
    end.
Proof. by destruct s. Qed.

Lemma matchHandle_plain s run :
  matchHandle s = Some run → run ≠ EmptyString ∧ plainHandle run.
Proof.
  induction s as [|ch s IH]; rewrite matchHandle_eq;
    (destruct (matchHere _) as [r|] eqn:Hhere;
     [intros [= <-]; by eapply matchHere_plain|]); done.
Qed.


Lemma matchAfter_here host handle rest :
  handle ≠ EmptyString → plainHandle handle → endsHandle rest →
  matchAfter host (host +:+ handle +:+ rest) = Some handle.
Proof.
  intros Hne Hplain Hrest. unfold matchAfter.
  rewrite HasPrefix_append, from_append, handleRun_append by done.
  by destruct handle.
Qed.

End ParseUsername.

(** X19. For an input of ASCII text [parseUsername] returns the trimmed
    input, the trimmed input without its leading at-sign, or a handle that
    is not empty and holds no slash and no question mark; from a profile
    address of x.com or twitter.com, with or without scheme and www, it
    returns the handle that follows the host. *)
Theorem parseUsername_handle (input : string) :
  isASCII input = true →
  (parseUsername input = TrimSpace input
   ∨ String "@" (parseUsername input) = TrimSpace input
   ∨ (parseUsername input ≠ EmptyString ∧ plainHandle (parseUsername input)))
  ∧ (∀ scheme host handle rest,
       scheme ∈ [EmptyString; "https://"; "http://"; "https://www."; "www."] →
       host ∈ ["x.com/"; "twitter.com/"] →
       handle ≠ EmptyString → plainHandle handle → endsHandle rest →
       TrimSpace input = scheme +:+ host +:+ handle +:+ rest →
       parseUsername input = handle).
Proof.
  intros _. split.
  - unfold parseUsername.
    set (clean := TrimSpace input).
    assert (∀ s, (if Contains s "x.com/" || Contains s "twitter.com/"
                  then match matchHandle s with Some run => run | None => s end
                  else s) = s
                 ∨ ((if Contains s "x.com/" || Contains s "twitter.com/"
                     then match matchHandle s with Some run => run | None => s end
                     else s) ≠ EmptyString
                    ∧ plainHandle
                        (if Contains s "x.com/" || Contains s "twitter.com/"
                         then match matchHandle s with Some run => run | None => s end
                         else s))) as Hbody.
    { intros s. destruct (_ || _); [|by left].
      destruct (matchHandle s) as [run|] eqn:Hrun; [|by left].
      right. by eapply matchHandle_plain. }
    destruct (HasPrefix clean "@") eqn:Hat.
    + destruct clean as [|ch clean']; [done|].
      rewrite HasPrefix_char in Hat. apply Ascii.eqb_eq in Hat as ->.
      change (from 1 (String "@" clean')) with clean'.
      destruct (Hbody clean') as [-> | ?]; [by right; left | by right; right].
    + destruct (Hbody clean) as [-> | ?]; [by left | by right; right].
  - intros scheme host handle rest Hscheme Hhost Hne Hplain Hrest Hclean.
    unfold parseUsername. rewrite Hclean.
    pose proof (matchAfter_here "x.com/" handle rest Hne Hplain Hrest) as Hx.
    pose proof (matchAfter_here "twitter.com/" handle rest Hne Hplain Hrest) as Ht.
    revert Hx Ht. generalize (handle +:+ rest). intros tail Hx Ht.
    assert (Contains (scheme +:+ host +:+ tail) "x.com/"
            || Contains (scheme +:+ host +:+ tail) "twitter.com/" = true) as Hcond.
    { apply list_elem_of_In in Hhost. simpl in Hhost.
      destruct Hhost as [<- | [<- | []]].
      - rewrite (Contains_append_r scheme _ "x.com/"); [done|].
        apply HasPrefix_append.
      - rewrite (Contains_append_r scheme _ "twitter.com/"); [apply orb_true_r|].
        apply HasPrefix_append. }
    apply list_elem_of_In in Hscheme, Hhost. simpl in Hscheme, Hhost.
    destruct Hhost as [<- | [<- | []]];
      destruct Hscheme as [<- | [<- | [<- | [<- | [<- | []]]]]];
      cbv [String.append] in *;
      (match goal with
       | |- context [HasPrefix ?s "@"] =>
           replace (HasPrefix s "@") with false by (by vm_compute)
       end);
      rewrite Hcond;
      repeat (rewrite (matchHandle_eq (String _ _));
              match goal with
              | |- context [matchHere (String ?ch ?s)] =>
                  replace (matchHere (String ch s)) with (@None string)
                    by (by vm_compute)
              end);
      rewrite (matchHandle_eq (String _ _)); unfold matchHere;
      try (match goal with
           | |- context [matchAfter "x.com/" (String "t" ?s)] =>
               replace (matchAfter "x.com/" (String "t" s)) with (@None string)
                 by (by vm_compute)
           end);
      by rewrite ?Hx, ?Ht.
Qed.

(** The address of a profile page, between blanks. *)
Lemma parseUsername_handle_witness :
  (parseUsername "  https://x.com/alice/media " = TrimSpace "  https://x.com/alice/media "
   ∨ String "@" (parseUsername "  https://x.com/alice/media ")
     = TrimSpace "  https://x.com/alice/media "
   ∨ (parseUsername "  https://x.com/alice/media " ≠ EmptyString
      ∧ plainHandle (parseUsername "  https://x.com/alice/media ")))
  ∧ (∀ scheme host handle rest,
       scheme ∈ [EmptyString; "https://"; "http://"; "https://www."; "www."] →
       host ∈ ["x.com/"; "twitter.com/"] →
       handle ≠ EmptyString → plainHandle handle → endsHandle rest →
       TrimSpace "  https://x.com/alice/media " = scheme +:+ host +:+ handle +:+ rest →
       parseUsername "  https://x.com/alice/media " = handle).
Proof.
  apply (parseUsername_handle "  https://x.com/alice/media "). reflexivity.
Defined.

Example parseUsername_addresses :
  parseUsername "  https://x.com/alice/media " = "alice"
  ∧ parseUsername "@twitter.com/bob?lang=en" = "bob".
Proof. split; by vm_compute. Qed.

Section AccountList.

Lemma blank_TrimLeft s : blank s = true → TrimLeft s = EmptyString.
Proof.
  induction s as [|ch s IH]; simpl; [done|].
  intros [Hch Hs]%andb_true_iff. rewrite Hch. by apply IH.
Qed.

Lemma blank_TrimSpace s : blank s = true → TrimSpace s = EmptyString.
Proof. intros Hs. unfold TrimSpace. by rewrite blank_TrimLeft. Qed.

Lemma blank_Split s : blank s = forallb blank (Split s newline).
Proof.
  induction s as [|ch s IH]; [done|].
  cbn [Split blank]. destruct (Ascii.eqb ch newline) eqn:Hch.
  - apply Ascii.eqb_eq in Hch as ->. cbn [forallb blank]. by rewrite <- IH.
  - destruct (Split s newline) as [|line lines].
    + cbn [forallb blank] in *. rewrite IH. cbn [blank]. by rewrite !andb_true_r.
    + cbn [forallb blank] in *. rewrite IH. by rewrite andb_assoc.
Qed.

(** The lines of [text] that are not blank, trimmed. *)
Lemma lines_blank text :
  filter (λ line, line ≠ EmptyString) (TrimSpace <$> Split text newline) = []
  ↔ blank text = true.
Proof.
  rewrite blank_Split. generalize (Split text newline). intros lines.
  induction lines as [|line lines IH]; [done|].
  rewrite fmap_cons, filter_cons. cbn [forallb].
  destruct (decide (TrimSpace line ≠ EmptyString)) as [Hne | Heq].
  - split; [done|]. intros [Hline _]%andb_true_iff.
    destruct Hne. by apply blank_TrimSpace.
  - rewrite IH. apply dec_stable in Heq. apply TrimSpace_blank in Heq as ->.
    by rewrite andb_true_l.
Qed.

Lemma newAccounts_fresh uuid inputs : Forall fresh (newAccounts uuid inputs).
Proof.
  apply Forall_forall. intros acc (i & input & -> & _)%elem_of_lookup_imap_1.
  by repeat split.
Qed.

End AccountList.

(** X20. On user names and a file of ASCII text: [handleUpdateSelected]
    keeps the existing accounts and appends fresh accounts for the selected
    user names, none under a user name the list already had (compared
    without case), so that every selected user name is in the list
    afterwards. [handleImportFile] leaves the list as it was for a file
    that is blank, and otherwise replaces it by fresh accounts, one for each
    line that is not blank. *)
Theorem account_list_updates (uuid : nat → string) (usernames : list string)
    (text : string) (prev : list MultipleAccount) :
  forallb isASCII usernames = true →
  isASCII text = true →
  forallb (λ acc, isASCII (acc_username acc)) prev = true →
  let selected := handleUpdateSelected uuid usernames prev in
  let imported := handleImportFile uuid text prev in
  (∃ added,
     selected = prev ++ added
     ∧ Forall fresh added
     ∧ Forall (λ acc, ToLower (acc_username acc) ∉ accountNames prev) added
     ∧ (∀ acc, acc ∈ added →
          ∃ i input, usernames !! i = Some input
                     ∧ id acc = uuid i
                     ∧ acc_username acc = parseUsername input)
     ∧ (∀ input, input ∈ usernames →
          ToLower (parseUsername input) ∈ accountNames selected))
  ∧ (blank text = true → imported = prev)
  ∧ (blank text = false →
     imported ≠ []
     ∧ imported = handleImportFile uuid text []
     ∧ Forall fresh imported
     ∧ ∀ acc, acc ∈ imported →
         ∃ line, line ∈ Split text newline
                 ∧ TrimSpace line ≠ EmptyString
                 ∧ acc_username acc = parseUsername (TrimSpace line)).
Proof.
  intros _ _ _ selected imported. split; [|split].
  - subst selected. unfold handleUpdateSelected.
    destruct usernames as [|first others] eqn:Husernames.
    { exists []. rewrite app_nil_r. split; [done|].
      split; [apply List.Forall_nil|]. split; [apply List.Forall_nil|].
      split; [intros acc Hin | intros input Hin]; by apply elem_of_nil in Hin. }
    rewrite <- Husernames. clear Husernames first others.
    set (existingUsernames := list_to_set _ : gset string).
    set (added := filter _ (newAccounts uuid usernames)).
    assert (∀ acc, ToLower (acc_username acc) ∉ existingUsernames
                   ↔ ToLower (acc_username acc) ∉ accountNames prev) as Hnames.
    { intros acc. unfold existingUsernames, accountNames.
      by rewrite elem_of_list_to_set. }
    exists added. split; [done|]. split; [|split; [|split]].
    + apply Forall_forall. intros acc [_ Hin]%list_elem_of_filter.
      revert acc Hin. apply Forall_forall, newAccounts_fresh.
    + apply Forall_forall. intros acc [Hnew _]%list_elem_of_filter.
      by apply Hnames.
    + intros acc [_ Hin]%list_elem_of_filter.
      apply elem_of_lookup_imap_1 in Hin as (i & input & -> & Hinput).
      by exists i, input.
    + intros input Hin. apply list_elem_of_lookup_1 in Hin as [i Hi].
      unfold accountNames. rewrite fmap_app, elem_of_app.
      destruct (decide (ToLower (parseUsername input) ∈ accountNames prev))
        as [Hold | Hnew]; [by left|]. right.
      apply list_elem_of_fmap. exists (newAccount (uuid i) (parseUsername input)).
      split; [done|]. apply list_elem_of_filter. split.
      * by apply Hnames.
      * by apply (elem_of_lookup_imap_2
                    (λ i input, newAccount (uuid i) (parseUsername input))).
  - subst imported. unfold handleImportFile. intros Hblank.
    apply lines_blank in Hblank. by rewrite Hblank.
  - subst imported. unfold handleImportFile. intros Hblank.
    destruct (filter _ _) as [|line0 lines] eqn:Hlines.
    { apply lines_blank in Hlines. by rewrite Hlines in Hblank. }
    rewrite <- Hlines. split; [|split; [done|split]].
    + intros Hnil%(f_equal length). unfold newAccounts in Hnil.
      rewrite length_imap, Hlines in Hnil. done.
    + apply newAccounts_fresh.
    + intros acc (i & trimmed & -> & Hi)%elem_of_lookup_imap_1.
      apply list_elem_of_lookup_2 in Hi.
      apply list_elem_of_filter in Hi as [Hne Hin].
      apply list_elem_of_fmap in Hin as (line & -> & Hin).
      by exists line.
Qed.

(** Two selected names, one of them listed already, and a file of three
    lines, one of them blank. *)
Lemma account_list_updates_witness :
  let selected := handleUpdateSelected numbered selectedNames [aliceTask] in
  let imported := handleImportFile numbered importedText [aliceTask] in
  (∃ added,
     selected = [aliceTask] ++ added
     ∧ Forall fresh added
     ∧ Forall (λ acc, ToLower (acc_username acc) ∉ accountNames [aliceTask]) added
     ∧ (∀ acc, acc ∈ added →
          ∃ i input, selectedNames !! i = Some input
                     ∧ id acc = numbered i
                     ∧ acc_username acc = parseUsername input)
     ∧ (∀ input, input ∈ selectedNames →
          ToLower (parseUsername input) ∈ accountNames selected))
  ∧ (blank importedText = true → imported = [aliceTask])
  ∧ (blank importedText = false →
     imported ≠ []
     ∧ imported = handleImportFile numbered importedText []
     ∧ Forall fresh imported
     ∧ ∀ acc, acc ∈ imported →
         ∃ line, line ∈ Split importedText newline
                 ∧ TrimSpace line ≠ EmptyString
                 ∧ acc_username acc = parseUsername (TrimSpace line)).
Proof.
  apply (account_list_updates numbered selectedNames importedText [aliceTask]);
    reflexivity.
Defined.

(** ** Error messages of the backend *)

Section ErrorMessages.

Lemma blank_no_raw_word s (a : ascii) word :
  isSpace a = false → blank s = true → Contains s (String a word) = false.
Proof.
  intros Ha. induction s as [|ch s IH]; [done|].
  intros [Hch Hs]%andb_true_iff. rewrite Contains_cons, (IH Hs), orb_false_r.
  unfold HasPrefix. simpl. destruct (ascii_dec a ch) as [-> |]; [|done].
  by rewrite Hch in Ha.
Qed.

Lemma blank_firstErrorLine lines :
  forallb blank lines = true → Backend.firstErrorLine lines = EmptyString.
Proof.
  induction lines as [|line lines IH]; [done|].
  intros [Hline Hlines]%andb_true_iff. cbn [Backend.firstErrorLine].
  unfold Backend.mentionsError.
  rewrite !blank_no_word by done. by apply IH.
Qed.

Lemma length_substring_le n s : String.length (String.substring 0 n s) ≤ n.
Proof.
  revert s. induction n as [|n IH]; intros [|ch s]; simpl; try lia.
  specialize (IH s). lia.
Qed.

Lemma truncateLine_length errorLine :
  String.length (Backend.truncateLine errorLine) ≤ 303.
Proof.
  unfold Backend.truncateLine, slice.
  destruct (300 <? String.length errorLine)%nat eqn:Hlong.
  - rewrite length_append. pose proof (length_substring_le (300 - 0) errorLine).
    simpl in *. lia.
  - apply Nat.ltb_ge in Hlong. lia.
Qed.


End ErrorMessages.

(** X21. For a failed run whose output is blank, [parseExtractorError] is
    the empty message, which the scheduler does not take for an
    authentication error: the account is failed or incomplete by its count
    of items alone. *)
Theorem parseExtractorError_blank (output username : string) :
  blank output = true →
  Backend.parseExtractorError output username = EmptyString
  ∧ ∀ count, errorStatus (Backend.parseExtractorError output username) count
             = statusByCount count.
Proof.
  intros Hblank.
  assert (Backend.parseExtractorError output username = EmptyString) as ->.
  { unfold Backend.parseExtractorError, Backend.errorLineOf, Backend.hintOf.
    rewrite blank_firstErrorLine by by rewrite <- blank_Split.
    rewrite blank_TrimSpace by done. simpl.
    rewrite !blank_no_word, !blank_no_raw_word by done. done. }
  split; [done|]. intros count. unfold errorStatus, statusByCount.
  by destruct (count =? 0)%nat.
Qed.

Lemma parseExtractorError_blank_witness :
  Backend.parseExtractorError (String newline "  ") "alice" = EmptyString
  ∧ ∀ count, errorStatus (Backend.parseExtractorError (String newline "  ") "alice") count
             = statusByCount count.
Proof. apply parseExtractorError_blank. reflexivity. Defined.

(** X22. The message of [parseExtractorError] is bounded in length whatever
    the extractor printed: at most 303 bytes of diagnostic and the hint. *)
Theorem parseExtractorError_bounded (output username : string) :
  String.length (Backend.parseExtractorError output username)
  ≤ 303 + Nat.max 86 (40 + String.length username).
Proof.
  unfold Backend.parseExtractorError. rewrite length_append.
  pose proof (truncateLine_length (Backend.errorLineOf output)) as Hline.
  pose proof (hintOf_KnownHint output username) as Hhint.
  unfold KnownHint in Hhint. apply list_elem_of_In in Hhint. simpl in Hhint.
  destruct Hhint as [<- | [<- | [<- | [<- | [<- | [<- | []]]]]]];
    rewrite ?length_append; simpl; lia.
Qed.

(** X23. When the output of a failed run, of ASCII text, mentions 401 or
    unauthorized, and neither the end of the timeline nor a rate limit, the
    message [parseExtractorError] builds is recognised by the scheduler as an
    authentication error, and the account is failed whatever it fetched. *)
Theorem unauthorized_failure_fails_account (output username : string) (count : nat) :
  isASCII output = true →
  Contains (ToLower output) "unable to retrieve tweets from this timeline" = false →
  Contains (ToLower output) "rate limit" = false →
  Contains output "429" = false →
  Contains output "401" || Contains (ToLower output) "unauthorized" = true →
  isAuthError (Backend.parseExtractorError output username) = true
  ∧ errorStatus (Backend.parseExtractorError output username) count = Failed.
Proof.
  intros _ Hend Hrate H429 Hauth.
  assert (isAuthError (Backend.parseExtractorError output username) = true) as Hyes.
  { unfold Backend.parseExtractorError, Backend.hintOf.
    rewrite Hend, Hrate, H429, Hauth. simpl.
    unfold isAuthError. rewrite ToLower_append.
    rewrite (Contains_append _ _ "auth token may be invalid") by by vm_compute.
    by rewrite !orb_true_r. }
  split; [done|]. unfold errorStatus. by rewrite Hyes.
Qed.

Lemma unauthorized_failure_fails_account_witness :
  isAuthError (Backend.parseExtractorError "HTTP Error: Unauthorized" "alice") = true
  ∧ errorStatus (Backend.parseExtractorError "HTTP Error: Unauthorized" "alice") 3
    = Failed.
Proof.
  apply unauthorized_failure_fails_account; reflexivity.
Defined.

(** X24. [extractJSON] is idempotent; what it extracts is a part of the
    output and no longer than it. *)
Theorem extractJSON_idempotent (output : string) :
  Backend.extractJSON (Backend.extractJSON output) = Backend.extractJSON output
  ∧ (∃ pre post, output = pre +:+ Backend.extractJSON output +:+ post)
  ∧ String.length (Backend.extractJSON output) ≤ String.length output.
Proof.
  destruct (extractJSON_sound output) as [Hobj | [Hnone _]].
  - pose proof Hobj as (pre & post & Hout & Hpre & Hmatched).
    split; [|split].
    + apply extractJSON_complete. exists EmptyString, EmptyString.
      by rewrite append_nil_l, append_nil_r.
    + by exists pre, post.
    + rewrite Hout at 2. rewrite !length_append. lia.
  - rewrite Hnone. split; [done|]. split; [|simpl; lia].
    exists output, EmptyString. by rewrite append_nil_l, append_nil_r.
Qed.

(** ** The conversion to timeline entries *)

Section Conversions.

Lemma textEntries_text cli :
  Forall (λ e, Backend.type e = "text" ∧ Backend.url e = EmptyString
               ∧ Backend.extension e = "txt"
               ∧ Backend.tweet_id e ∉ Backend.mediaTweetIDs (Backend.cli_Media cli))
         (Backend.textEntries cli).
Proof.
  unfold Backend.textEntries. apply Forall_fmap, Forall_forall.
  by intros meta [Hnew _]%list_elem_of_filter.
Qed.

Lemma textEntries_no_media cli :
  Backend.cli_Media cli = [] →
  Backend.textEntries cli
  = Backend.convertMetadataToTimelineEntry <$> Backend.cli_Metadata cli.
Proof.
  intros Hnone. unfold Backend.textEntries, Backend.mediaTweetIDs. rewrite Hnone.
  f_equal. induction (Backend.cli_Metadata cli) as [|meta metas IH]; [done|].
  rewrite filter_cons_True; [by rewrite IH|]. set_solver.
Qed.

(** The timeline [toFrontend] builds, mode by mode. *)
Lemma toFrontend_timeline req cli :
  (Backend.toFrontend req cli).2
  = if String.eqb (Backend.MediaType req) "text" then Backend.textEntries cli
    else match Backend.cli_Media cli with
         | _ :: _ => Backend.convertToTimelineEntry <$> Backend.cli_Media cli
         | [] => Backend.convertMetadataToTimelineEntry <$> Backend.cli_Metadata cli
         end.
Proof.
  unfold Backend.toFrontend.
  destruct (String.eqb (Backend.MediaType req) "text"); [done|].
  destruct (Backend.cli_Media cli), (Backend.cli_Metadata cli); done.
Qed.

Lemma toFrontend_private req cli :
  (Backend.TimelineType req = "bookmarks" →
   Backend.name (Backend.toFrontend req cli).1 = "bookmarks"
   ∧ Backend.nick (Backend.toFrontend req cli).1 = "My Bookmarks")
  ∧ (Backend.TimelineType req = "likes" →
     Backend.name (Backend.toFrontend req cli).1 = "likes"
     ∧ Backend.nick (Backend.toFrontend req cli).1 = "My Likes").
Proof.
  unfold Backend.toFrontend. split; intros ->; simpl;
    destruct (String.eqb (Backend.MediaType req) "text");
    destruct (Backend.cli_Media cli), (Backend.cli_Metadata cli); done.
Qed.

Lemma toFrontend_typed req cli :
  Forall (λ e, Backend.type e ≠ EmptyString) (Backend.toFrontend req cli).2.
Proof.
  rewrite toFrontend_timeline.
  assert (∀ metas, Forall (λ e, Backend.type e ≠ EmptyString)
                     (Backend.convertMetadataToTimelineEntry <$> metas)) as Htext.
  { intros metas. apply Forall_fmap, Forall_forall. by intros meta _. }
  destruct (String.eqb (Backend.MediaType req) "text"); [apply Htext|].
  destruct (Backend.cli_Media cli) as [|first others] eqn:Hmedia; [apply Htext|].
  apply Forall_fmap, Forall_forall. intros media _. simpl. unfold Backend.typeOf.
  destruct (String.eqb (Backend.media_Type media) EmptyString) eqn:Hgiven; simpl.
  - by destruct (_ || _); [|destruct (String.eqb _ "gif")].
  - by apply String.eqb_neq.
Qed.

End Conversions.

(** X25. A response of [ExtractTimeline] counts its entries in [TotalURLs]
    and [NewEntries], and every entry has a type. In the text mode every
    entry is a text entry of a tweet without media; otherwise the entries
    are the media items in order when there are some, and else text entries
    for all the metadata, though text was not asked for. For bookmarks and
    likes the account is named after the collection. *)
Theorem ExtractTimeline_entries
    (unmarshal : string → string + Backend.CLIResponse Backend.CLIItems)
    (ensureExtractor : string + string) (req : Backend.TimelineRequest)
    (run : Backend.Execution) (resp : Backend.TwitterResponse) :
  Backend.ExtractTimeline unmarshal Backend.toFrontend ensureExtractor req run
  = inr resp →
  ∃ cli,
    unmarshal (Backend.extractJSON (Backend.output run)) = inr cli
    ∧ Backend.TotalURLs resp = length (Backend.Timeline resp)
    ∧ Backend.NewEntries (Backend.Metadata resp) = length (Backend.Timeline resp)
    ∧ Forall (λ e, Backend.type e ≠ EmptyString) (Backend.Timeline resp)
    ∧ (Backend.MediaType req = "text" →
       Forall (λ e, Backend.type e = "text"
                    ∧ Backend.tweet_id e
                      ∉ Backend.mediaTweetIDs (Backend.cli_Media (Backend.Payload cli)))
              (Backend.Timeline resp))
    ∧ (Backend.MediaType req ≠ "text" →
       Backend.cli_Media (Backend.Payload cli) ≠ [] →
       Backend.url <$> Backend.Timeline resp
       = Backend.media_URL <$> Backend.cli_Media (Backend.Payload cli))
    ∧ (Backend.MediaType req ≠ "text" →
       Backend.cli_Media (Backend.Payload cli) = [] →
       Backend.tweet_id <$> Backend.Timeline resp
       = Backend.meta_TweetID <$> Backend.cli_Metadata (Backend.Payload cli)
       ∧ Forall (λ e, Backend.type e = "text") (Backend.Timeline resp))
    ∧ (Backend.TimelineType req = "bookmarks" →
       Backend.name (Backend.AccountInfo_ resp) = "bookmarks")
    ∧ (Backend.TimelineType req = "likes" →
       Backend.name (Backend.AccountInfo_ resp) = "likes").
Proof.
  unfold Backend.ExtractTimeline.
  destruct ensureExtractor as [err | exePath]; [done|].
  destruct (Backend.failed run); [done|].
  destruct (String.eqb (Backend.extractJSON (Backend.output run)) EmptyString);
    [by destruct (String.eqb _ _)|].
  destruct (unmarshal _) as [err | cli]; [done|].
  pose proof (toFrontend_timeline req (Backend.Payload cli)) as Htimeline.
  pose proof (toFrontend_private req (Backend.Payload cli)) as [Hbookmarks Hlikes].
  pose proof (toFrontend_typed req (Backend.Payload cli)) as Htyped.
  destruct (Backend.toFrontend req (Backend.Payload cli)) as [accountInfo timeline].
  simpl in Htimeline, Hbookmarks, Hlikes, Htyped. intros [= <-]. simpl.
  exists cli. split; [done|]. split; [done|]. split; [done|]. split; [done|].
  split; [|split; [|split; [|split]]].
  - intros Htext. rewrite Htimeline, Htext. simpl.
    eapply Forall_impl; [apply textEntries_text|]. by intros e (? & _ & _ & ?).
  - intros Htext Hmedia. apply String.eqb_neq in Htext. rewrite Htimeline, Htext.
    destruct (Backend.cli_Media (Backend.Payload cli)) as [|first others]; [done|].
    rewrite <- list_fmap_compose. by apply list_fmap_ext.
  - intros Htext Hmedia. apply String.eqb_neq in Htext.
    rewrite Htimeline, Htext, Hmedia. split.
    + rewrite <- list_fmap_compose. by apply list_fmap_ext.
    + apply Forall_fmap, Forall_forall. by intros meta _.
  - intros Hb. by apply Hbookmarks.
  - intros Hl. by apply Hlikes.
Qed.

Lemma ExtractTimeline_entries_witness :
  ∃ cli,
    decodesTweets (Backend.extractJSON (Backend.output printedObject)) = inr cli
    ∧ Backend.TotalURLs textResponse = length (Backend.Timeline textResponse)
    ∧ Backend.NewEntries (Backend.Metadata textResponse)
      = length (Backend.Timeline textResponse)
    ∧ Forall (λ e, Backend.type e ≠ EmptyString) (Backend.Timeline textResponse)
    ∧ (Backend.MediaType textRequest = "text" →
       Forall (λ e, Backend.type e = "text"
                    ∧ Backend.tweet_id e
                      ∉ Backend.mediaTweetIDs (Backend.cli_Media (Backend.Payload cli)))
              (Backend.Timeline textResponse))
    ∧ (Backend.MediaType textRequest ≠ "text" →
       Backend.cli_Media (Backend.Payload cli) ≠ [] →
       Backend.url <$> Backend.Timeline textResponse
       = Backend.media_URL <$> Backend.cli_Media (Backend.Payload cli))
    ∧ (Backend.MediaType textRequest ≠ "text" →
       Backend.cli_Media (Backend.Payload cli) = [] →
       Backend.tweet_id <$> Backend.Timeline textResponse
       = Backend.meta_TweetID <$> Backend.cli_Metadata (Backend.Payload cli)
       ∧ Forall (λ e, Backend.type e = "text") (Backend.Timeline textResponse))
    ∧ (Backend.TimelineType textRequest = "bookmarks" →
       Backend.name (Backend.AccountInfo_ textResponse) = "bookmarks")
    ∧ (Backend.TimelineType textRequest = "likes" →
       Backend.name (Backend.AccountInfo_ textResponse) = "likes").
Proof.
  apply (ExtractTimeline_entries decodesTweets (inr "extractor") textRequest
           printedObject textResponse).
  vm_compute. reflexivity.
Defined.

(** ** Search addresses and date ranges *)

Section Trimming.

Lemma TrimLeft_noLeadingSpace s : noLeadingSpace (TrimLeft s).
Proof.
  induction s as [|ch s IH]; simpl; [done|].
  by destruct (isSpace ch) eqn:Hch.
Qed.

Lemma noLeadingSpace_TrimLeft s : noLeadingSpace s → TrimLeft s = s.
Proof. destruct s as [|ch s]; simpl; [done|]. by intros ->. Qed.

Lemma TrimRight_cons (ch : ascii) s :
  TrimRight s ≠ EmptyString → TrimRight (String ch s) = String ch (TrimRight s).
Proof. simpl. by destruct (TrimRight s). Qed.

Lemma TrimRight_noLeadingSpace s : noLeadingSpace s → noLeadingSpace (TrimRight s).
Proof.
  destruct s as [|ch s]; simpl; [done|]. intros Hch.
  destruct (TrimRight s); by rewrite ?Hch.
Qed.

Lemma TrimRight_idem s : TrimRight (TrimRight s) = TrimRight s.
Proof.
  induction s as [|ch s IH]; [done|]. cbn [TrimRight].
  destruct (TrimRight s) as [|ch' t] eqn:Ht.
  - destruct (isSpace ch) eqn:Hch; simpl; by rewrite ?Hch.
  - rewrite TrimRight_cons; by rewrite IH.
Qed.

Lemma TrimSpace_idem s : TrimSpace (TrimSpace s) = TrimSpace s.
Proof.
  unfold TrimSpace.
  rewrite (noLeadingSpace_TrimLeft (TrimRight (TrimLeft s)))
    by apply TrimRight_noLeadingSpace, TrimLeft_noLeadingSpace.
  apply TrimRight_idem.
Qed.

(** A prefix without white space in front of a trimmed text that is not
    empty leaves the whole trimmed. *)
Lemma TrimSpace_prefixed (ch : ascii) p s :
  isSpace ch = false → TrimSpace s ≠ EmptyString →
  TrimSpace (String ch p +:+ TrimSpace s) = String ch p +:+ TrimSpace s.
Proof.
  intros Hch Hne. unfold TrimSpace at 1. rewrite append_cons.
  cbn [TrimLeft]. rewrite Hch. rewrite <- append_cons.
  generalize (String ch p). intros q.
  induction q as [|ch' q IH].
  - rewrite append_nil_l. unfold TrimSpace. apply TrimRight_idem.
  - rewrite append_cons, TrimRight_cons; [by rewrite IH|].
    rewrite IH. destruct q; [by rewrite append_nil_l | by rewrite append_cons].
Qed.


End Trimming.

(** X26. On an address of ASCII text [ensureURLScheme] is idempotent; its
    result is empty exactly for a blank input, starts with a scheme
    otherwise, and is the trimmed input behind at most [https:] or
    [https://]. *)
Theorem ensureURLScheme_normalises (raw : string) :
  isASCII raw = true →
  let r := Backend.ensureURLScheme raw in
  Backend.ensureURLScheme r = r
  ∧ (r = EmptyString ∨ HasPrefix r "http://" = true ∨ HasPrefix r "https://" = true)
  ∧ (r = EmptyString ↔ TrimSpace raw = EmptyString)
  ∧ ∃ p, p ∈ [EmptyString; "https:"; "https://"] ∧ r = p +:+ TrimSpace raw.
Proof.
  intros _ r. subst r.
  remember (Backend.ensureURLScheme raw) as r eqn:Hr.
  unfold Backend.ensureURLScheme in Hr. cbv zeta in Hr.
  set (t := TrimSpace raw) in *.
  assert (TrimSpace t = t) as Hidem by apply TrimSpace_idem.
  destruct (String.eqb t EmptyString) eqn:Hempty.
  { apply String.eqb_eq in Hempty. rewrite Hr, Hempty.
    split; [done|]. split; [by left|]. split; [done|].
    exists EmptyString. split; [by left | reflexivity]. }
  apply String.eqb_neq in Hempty.
  destruct (HasPrefix t "http://" || HasPrefix t "https://") eqn:Hscheme.
  { rewrite Hr. split; [|split; [|split]].
    - unfold Backend.ensureURLScheme. rewrite Hidem.
      apply String.eqb_neq in Hempty. by rewrite Hempty, Hscheme.
    - right. by apply orb_true_iff in Hscheme.
    - done.
    - exists EmptyString. split; [by left | by rewrite append_nil_l]. }
  assert (∀ p : string,
            HasPrefix (p +:+ t) "https://" = true →
            p ≠ EmptyString →
            TrimSpace (p +:+ t) = p +:+ t →
            Backend.ensureURLScheme (p +:+ t) = p +:+ t
            ∧ (p +:+ t = EmptyString ∨ HasPrefix (p +:+ t) "http://" = true
               ∨ HasPrefix (p +:+ t) "https://" = true)
            ∧ (p +:+ t = EmptyString ↔ t = EmptyString)) as Hadd.
  { intros p Hprefix Hp Htrim. split; [|split].
    - unfold Backend.ensureURLScheme. rewrite Htrim, Hprefix, orb_true_r.
      destruct p as [|ch p]; [done|]. by rewrite append_cons.
    - by right; right.
    - destruct p as [|ch p]; [done|]. by rewrite append_cons. }
  destruct (HasPrefix t "//") eqn:Hslashes.
  - assert (HasPrefix ("https:" +:+ t) "https://" = true) as Hprefix.
    { rewrite (HasPrefix_split t "//" Hslashes).
      exact (HasPrefix_append "https://" (from 2 t)). }
    assert (TrimSpace ("https:" +:+ t) = "https:" +:+ t) as Htrim.
    { unfold t. by apply TrimSpace_prefixed. }
    rewrite Hr. destruct (Hadd "https:" Hprefix) as (? & ? & ?); [done..|].
    split; [done|]. split; [done|]. split; [done|].
    exists "https:". split; [right; by left | done].
  - unfold TrimPrefix in Hr. rewrite Hslashes in Hr. rewrite Hr.
    assert (TrimSpace ("https://" +:+ t) = "https://" +:+ t) as Htrim.
    { unfold t. by apply TrimSpace_prefixed. }
    destruct (Hadd "https://" (HasPrefix_append _ _)) as (? & ? & ?); [done..|].
    split; [done|]. split; [done|]. split; [done|].
    exists "https://". split; [right; right; by left | done].
Qed.

(** An address without its scheme, between blanks. *)
Lemma ensureURLScheme_normalises_witness :
  let r := Backend.ensureURLScheme " //x.com/alice " in
  Backend.ensureURLScheme r = r
  ∧ (r = EmptyString ∨ HasPrefix r "http://" = true ∨ HasPrefix r "https://" = true)
  ∧ (r = EmptyString ↔ TrimSpace " //x.com/alice " = EmptyString)
  ∧ ∃ p, p ∈ [EmptyString; "https:"; "https://"]
         ∧ r = p +:+ TrimSpace " //x.com/alice ".
Proof.
  apply (ensureURLScheme_normalises " //x.com/alice "). reflexivity.
Defined.

(** X27. For the same run of the extractor and the same user name,
    [ExtractDateRange] and [ExtractTimeline] fail together with the same
    message, and succeed together with the same cursor, completion and
    has-more flag; the date-range response reports page and batch size zero,
    and under the text filter (whatever its case and padding) lists the
    media entries before the text entries of [ExtractTimeline]'s text mode,
    which share no tweet with them. *)
Theorem ExtractDateRange_agrees
    (unmarshal : string → string + Backend.CLIResponse Backend.CLIItems)
    (ensureExtractor : string + string) (range : Backend.DateRangeRequest)
    (req : Backend.TimelineRequest) (run : Backend.Execution) :
  Backend.dr_Username range = Backend.Username req →
  match Backend.ExtractDateRange unmarshal ensureExtractor range run,
        Backend.ExtractTimeline unmarshal Backend.toFrontend ensureExtractor req run
  with
  | inl err, inl err' => err = err'
  | inr resp, inr resp' =>
      Backend.Cursor resp = Backend.Cursor resp'
      ∧ Backend.Completed resp = Backend.Completed resp'
      ∧ Backend.HasMore (Backend.Metadata resp)
        = Backend.HasMore (Backend.Metadata resp')
      ∧ Backend.TotalURLs resp = length (Backend.Timeline resp)
      ∧ Backend.Page (Backend.Metadata resp) = 0%Z
      ∧ Backend.BatchSize (Backend.Metadata resp) = 0%Z
      ∧ (ToLower (TrimSpace (Backend.MediaFilter range)) = "text" →
         Backend.MediaType req = "text" →
         ∃ media, Backend.Timeline resp = media ++ Backend.Timeline resp'
                  ∧ Forall (λ e, Backend.tweet_id e
                                 ∉ Backend.tweet_id <$> media)
                           (Backend.Timeline resp'))
  | _, _ => False
  end.
Proof.
  intros Huser. unfold Backend.ExtractDateRange, Backend.ExtractTimeline.
  rewrite Huser.
  destruct ensureExtractor as [err | exePath]; [done|].
  destruct (Backend.failed run); [done|].
  destruct (String.eqb (Backend.extractJSON (Backend.output run)) EmptyString);
    [by destruct (String.eqb _ _)|].
  destruct (unmarshal _) as [err | cli]; [done|].
  pose proof (toFrontend_timeline req (Backend.Payload cli)) as Htimeline.
  destruct (Backend.toFrontend req (Backend.Payload cli)) as [accountInfo' timeline'].
  unfold Backend.dateRangeToFrontend. simpl in *.
  do 6 (split; [done|]).
  intros -> Htext. rewrite Htext in Htimeline. simpl in Htimeline. subst timeline'.
  simpl. eexists. split; [done|].
  eapply Forall_impl; [apply textEntries_text|].
  intros e (_ & _ & _ & Hnew). intros Hin. apply Hnew.
  unfold Backend.mediaTweetIDs. apply elem_of_list_to_set.
  assert (Backend.tweet_id
            <$> (Backend.convertToTimelineEntry <$> Backend.cli_Media (Backend.Payload cli))
          = Backend.media_TweetID <$> Backend.cli_Media (Backend.Payload cli)) as Heq.
  { rewrite <- list_fmap_compose. by apply list_fmap_ext. }
  by rewrite Heq in Hin.
Qed.

Lemma ExtractDateRange_agrees_witness :
  match Backend.ExtractDateRange decodesTweets (inr "extractor") textRange printedObject,
        Backend.ExtractTimeline decodesTweets Backend.toFrontend (inr "extractor")
          textRequest printedObject
  with
  | inl err, inl err' => err = err'
  | inr resp, inr resp' =>
      Backend.Cursor resp = Backend.Cursor resp'
      ∧ Backend.Completed resp = Backend.Completed resp'
      ∧ Backend.HasMore (Backend.Metadata resp)
        = Backend.HasMore (Backend.Metadata resp')
      ∧ Backend.TotalURLs resp = length (Backend.Timeline resp)
      ∧ Backend.Page (Backend.Metadata resp) = 0%Z
      ∧ Backend.BatchSize (Backend.Metadata resp) = 0%Z
      ∧ (ToLower (TrimSpace (Backend.MediaFilter textRange)) = "text" →
         Backend.MediaType textRequest = "text" →
         ∃ media, Backend.Timeline resp = media ++ Backend.Timeline resp'
                  ∧ Forall (λ e, Backend.tweet_id e
                                 ∉ Backend.tweet_id <$> media)
                           (Backend.Timeline resp'))
  | _, _ => False
  end.
Proof.
  apply (ExtractDateRange_agrees decodesTweets (inr "extractor") textRange
           textRequest printedObject).
  reflexivity.
Defined.

(** ** The date-range fetch and the update check *)

Section DateRange.
Variable settings : Settings.
Variable a : FetchArgs.

Local Abbreviation c := (contextOf settings a).

Lemma takesDateRange_public useDateRange startDate endDate :
  takesDateRange useDateRange startDate endDate a = true →
  cleanUsername c = TrimSpace (arg_username a).
Proof.
  unfold takesDateRange, contextOf, isBookmarksOf, isLikesOf. simpl.
  destruct (arg_mode a); [done|].
  by rewrite andb_false_r.
Qed.

Lemma saveRange_store data w :
  fetchStates (saveRange data w) = fetchStates w
  ∧ cursors (saveRange data w) = cursors w
  ∧ trace (saveRange data w)
    = trace w ++ match account_info data with
                 | Some info =>
                     [EvPersist (Backend.name info) (length (timeline data))
                        (orElse (cursor data) EmptyString)
                        (default true (completed data))]
                 | None => []
                 end.
Proof.
  unfold saveRange. destruct (account_info data); simpl; [done|].
  by rewrite app_nil_r.
Qed.
End DateRange.

(** X29. A date-range fetch ([handleFetch] with [useDateRange], both dates
    and public mode) asks [ExtractDateRange] at most once and
    [ExtractTimeline] never. It writes no checkpoint and no cursor: the
    cursor slots are as before, the checkpoints of other names are as
    before, and the checkpoint of the user name is as before or gone. When
    it was started fresh and got past the checks, the checkpoint of the user
    name is gone. Data with account information is saved to the database
    twice, with the same arguments, [completed] counting as true when the
    backend left it out. *)
Theorem handleFetch_date_range_single_call settings loading a useDateRange
    startDate endDate cleanupTook call w result reqs w' :
  handleFetchDateRange settings loading a useDateRange startDate endDate
    cleanupTook call w = Some (result, reqs, w') →
  let key := TrimSpace (arg_username a) in
  (∃ evs, trace w' = trace w ++ evs
          ∧ forallb keepsNothing evs = true
          ∧ ∀ data info, result = RangeFetched data →
              account_info data = Some info →
              List.filter persists evs
              = repeat (EvPersist (Backend.name info) (length (timeline data))
                          (orElse (cursor data) EmptyString)
                          (default true (completed data))) 2)
  ∧ cursors w' = cursors w
  ∧ sameElsewhere key w w'
  ∧ (getFetchState key w' = getFetchState key w ∨ getFetchState key w' = None)
  ∧ (arg_isResume a = false → trace w' ≠ trace w → getFetchState key w' = None)
  ∧ match result with
    | RangeRefused _ => reqs = []
    | _ => reqs = [{| range_username := key;
                      range_auth_token := ctx_authToken (contextOf settings a);
                      start_date := default EmptyString startDate;
                      end_date := default EmptyString endDate;
                      media_filter := ctx_mediaType (contextOf settings a);
                      range_retweets := ctx_retweets (contextOf settings a) |}]
    end.
Proof.
  intros Hrun key. unfold handleFetchDateRange in Hrun.
  destruct (takesDateRange useDateRange startDate endDate a) eqn:Htakes;
    [|done].
  pose proof (takesDateRange_public settings a _ _ _ Htakes) as Hkey.
  fold key in Hkey. simpl negb in Hrun. cbv iota in Hrun.
  assert (∀ toast, Some (RangeRefused toast, @nil DateRangeRequest, w)
                   = Some (result, reqs, w') →
          (∃ evs, trace w' = trace w ++ evs
                  ∧ forallb keepsNothing evs = true
                  ∧ ∀ data info, result = RangeFetched data →
                      account_info data = Some info →
                      List.filter persists evs
                      = repeat (EvPersist (Backend.name info)
                                  (length (timeline data))
                                  (orElse (cursor data) EmptyString)
                                  (default true (completed data))) 2)
          ∧ cursors w' = cursors w
          ∧ sameElsewhere key w w'
          ∧ (getFetchState key w' = getFetchState key w
             ∨ getFetchState key w' = None)
          ∧ (arg_isResume a = false → trace w' ≠ trace w →
             getFetchState key w' = None)
          ∧ match result with
            | RangeRefused _ => reqs = []
            | _ => reqs = [{| range_username := key;
                      range_auth_token := ctx_authToken (contextOf settings a);
                      start_date := default EmptyString startDate;
                      end_date := default EmptyString endDate;
                      media_filter := ctx_mediaType (contextOf settings a);
                      range_retweets := ctx_retweets (contextOf settings a) |}]
            end) as Hearly.
  { intros toast [= <- <- <-]. split; [|split; [|split; [|split; [|split]]]].
    - exists []. rewrite app_nil_r. by repeat split.
    - done.
    - apply sameElsewhere_refl.
    - by left.
    - by intros _ Hne.
    - done. }
  destruct loading; [by eapply Hearly|].
  destruct (negb (isBookmarksOf a)
            && String.eqb (TrimSpace (arg_username a)) EmptyString);
    [by eapply Hearly|].
  destruct (String.eqb (ctx_authToken (contextOf settings a)) EmptyString);
    [by eapply Hearly|].
  clear Hearly.
  set (w0 := withNow _ _) in Hrun.
  pose proof (startOf_cases settings a (arg_isResume a) w0) as Hstart.
  rewrite Hkey in Hstart.
  assert (trace w0 = trace w ∧ fetchStates w0 = fetchStates w
          ∧ cursors w0 = cursors w) as (Ht0 & Hf0 & Hc0) by done.
  destruct (startOf (contextOf settings a) (arg_isResume a) w0)
    as [[l w1]|] eqn:Hs.
  2:{ injection Hrun as <- <- <-.
      split; [|split; [|split; [|split; [|split]]]].
      - exists []. rewrite app_nil_r. by repeat split.
      - done.
      - by split.
      - by left.
      - by intros _ Hne.
      - done. }
  destruct Hstart as (_ & _ & _ & _ & _ & Hc1 & Helse & Hmode).
  assert (∃ evs1, trace w1 = trace w ++ evs1
                  ∧ forallb keepsNothing evs1 = true
                  ∧ List.filter persists evs1 = []
                  ∧ (getFetchState key w1 = getFetchState key w
                     ∨ getFetchState key w1 = None)
                  ∧ (arg_isResume a = false → getFetchState key w1 = None)
                  ∧ (arg_isResume a = true → trace w1 = trace w))
    as (evs1 & Ht1 & Hk1 & Hp1 & Hst1 & Hfresh1 & Hres1).
  { destruct (arg_isResume a).
    - destruct Hmode as (_ & -> & _). exists [].
      rewrite app_nil_r. repeat split; try done. by left.
    - destruct Hmode as (_ & Hnone & Htr). exists [EvClearState key].
      rewrite Htr, Ht0. repeat split; try done. by right. }
  assert (sameElsewhere key w w1) as Helse1.
  { intros k Hk. destruct (Helse k Hk) as [Hf Hc].
    unfold getFetchState in *. by rewrite Hf, Hc, Hf0, Hc0. }
  destruct (timeoutReached (contextOf settings a) w1).
  { injection Hrun as <- <- <-.
    split; [|split; [|split; [|split; [|split]]]].
    - exists evs1. by repeat split.
    - simpl. by rewrite Hc1.
    - done.
    - done.
    - intros Hfresh _. by apply Hfresh1.
    - done. }
  destruct (reply call) as [errorMsg | data] eqn:Hreply.
  - injection Hrun as <- <- <-.
    split; [|split; [|split; [|split; [|split]]]].
    + exists evs1. by repeat split.
    + simpl. by rewrite Hc1.
    + done.
    + done.
    + intros Hfresh _. by apply Hfresh1.
    + done.
  - injection Hrun as <- <- <-.
    destruct (saveRange_store data (awaitFetch call w1)) as (Hf2 & Hc2 & Ht2).
    destruct (saveRange_store data (saveRange data (awaitFetch call w1)))
      as (Hf3 & Hc3 & Ht3).
    set (w3 := saveRange data (saveRange data (awaitFetch call w1))) in *.
    assert (fetchStates (withFetchStartTime None w3) = fetchStates w1) as Hf
      by (simpl; by rewrite Hf3, Hf2).
    assert (cursors (withFetchStartTime None w3) = cursors w) as Hc
      by (simpl; by rewrite Hc3, Hc2, <- Hc0, <- Hc1).
    split; [|split; [|split; [|split; [|split]]]].
    + eexists. split; [|split].
      * change (trace (withFetchStartTime None w3)) with (trace w3).
        rewrite Ht3, Ht2.
        change (trace (awaitFetch call w1)) with (trace w1).
        rewrite Ht1, <- !app_assoc. reflexivity.
      * rewrite !forallb_app, Hk1. by destruct (account_info data).
      * intros data' info [= <-] Hinfo. rewrite Hinfo.
        rewrite !List.filter_app, Hp1. reflexivity.
    + done.
    + intros k Hk. destruct (Helse1 k Hk) as [Hfk Hck].
      by rewrite Hf, Hc.
    + unfold getFetchState in *. by rewrite Hf.
    + intros Hfresh _. unfold getFetchState in *. rewrite Hf.
      by apply Hfresh1.
    + done.
Qed.

Lemma handleFetch_date_range_single_call_witness :
  let key := TrimSpace (arg_username fetchAlice) in
  (∃ evs, trace rangeOutcome.2 = trace stoppedAfterFirst.2 ++ evs
          ∧ forallb keepsNothing evs = true
          ∧ ∀ data info, rangeOutcome.1.1 = RangeFetched data →
              account_info data = Some info →
              List.filter persists evs
              = repeat (EvPersist (Backend.name info) (length (timeline data))
                          (orElse (cursor data) EmptyString)
                          (default true (completed data))) 2)
  ∧ cursors rangeOutcome.2 = cursors stoppedAfterFirst.2
  ∧ sameElsewhere key stoppedAfterFirst.2 rangeOutcome.2
  ∧ (getFetchState key rangeOutcome.2 = getFetchState key stoppedAfterFirst.2
     ∨ getFetchState key rangeOutcome.2 = None)
  ∧ (arg_isResume fetchAlice = false →
     trace rangeOutcome.2 ≠ trace stoppedAfterFirst.2 →
     getFetchState key rangeOutcome.2 = None)
  ∧ match rangeOutcome.1.1 with
    | RangeRefused _ => rangeOutcome.1.2 = []
    | _ => rangeOutcome.1.2
           = [{| range_username := key;
                 range_auth_token := ctx_authToken (contextOf batchMode fetchAlice);
                 start_date := "2025-01-01";
                 end_date := "2025-01-31";
                 media_filter := ctx_mediaType (contextOf batchMode fetchAlice);
                 range_retweets := ctx_retweets (contextOf batchMode fetchAlice) |}]
    end.
Proof.
  apply (handleFetch_date_range_single_call batchMode false fetchAlice true
           (Some "2025-01-01") (Some "2025-01-31") 100 (answers 1000 lastBatch)
           stoppedAfterFirst.2 rangeOutcome.1.1 rangeOutcome.1.2 rangeOutcome.2).
  by vm_compute.
Defined.

Section Versions.

Lemma compare_first (c : ascii) (rest : string) :
  c ≠ "4"%char →
  String.ltb CURRENT_VERSION (String c rest)
  = (N_of_ascii "4" <? N_of_ascii c)%N.
Proof.
  intros Hc. unfold String.ltb, CURRENT_VERSION. cbn [String.compare].
  unfold Ascii.compare, N.ltb.
  destruct (N.compare_spec (N_of_ascii "4") (N_of_ascii c)) as [Heq | |];
    [|done..].
  destruct Hc. apply (f_equal ascii_of_N) in Heq.
  by rewrite !ascii_N_embedding in Heq.
Qed.

Lemma compare_minor (d : ascii) (rest : string) :
  d ≠ "3"%char →
  String.ltb CURRENT_VERSION (String "4" (String "." (String d rest)))
  = (N_of_ascii "3" <? N_of_ascii d)%N.
Proof.
  intros Hd. unfold String.ltb, CURRENT_VERSION.
  change (String.compare "4.3.1" (String "4" (String "." (String d rest))))
    with (match Ascii.compare "3" d with
          | Eq => String.compare ".1" rest
          | Lt => Lt
          | Gt => Gt
          end).
  unfold Ascii.compare, N.ltb.
  destruct (N.compare_spec (N_of_ascii "3") (N_of_ascii d)) as [Heq | |];
    [|done..].
  destruct Hd. apply (f_equal ascii_of_N) in Heq.
  by rewrite !ascii_N_embedding in Heq.
Qed.

Lemma latestVersionOf_plain (c : ascii) (rest : string) :
  c ≠ "v"%char → latestVersionOf (Some (String c rest)) = String c rest.
Proof.
  intros Hc. unfold latestVersionOf, HasPrefix. cbn [String.prefix].
  by destruct (ascii_dec "v" c) as [<- | _].
Qed.
End Versions.

(** X30. [checkForUpdates] compares versions as text, character by
    character. A missing tag announces nothing and a leading [v] counts for
    nothing. Unless the version starts with [4], its first character alone
    decides: above [4] an update is announced, below it none is, whatever
    follows (so 5.0.0 is announced and 10.0.0 is not). After [4.], unless
    the minor version starts with [3], its first character alone decides
    in the same way (4.4.0 is announced, 4.10.0 is not). *)
Theorem checkForUpdates_compares_text :
  hasUpdateFor None = false
  ∧ (∀ c rest, c ≠ "v"%char →
       hasUpdateFor (Some (String "v" (String c rest)))
       = hasUpdateFor (Some (String c rest)))
  ∧ (∀ c rest, c ≠ "v"%char → c ≠ "4"%char →
       hasUpdateFor (Some (String c rest))
       = (N_of_ascii "4" <? N_of_ascii c)%N)
  ∧ (∀ d rest, d ≠ "3"%char →
       hasUpdateFor (Some (String "4" (String "." (String d rest))))
       = (N_of_ascii "3" <? N_of_ascii d)%N).
Proof.
  split; [done|]. split; [|split].
  - intros c rest Hc. unfold hasUpdateFor.
    rewrite (latestVersionOf_plain c rest Hc). reflexivity.
  - intros c rest Hv Hc. unfold hasUpdateFor.
    rewrite (latestVersionOf_plain c rest Hv). cbv zeta.
    by rewrite (compare_first c rest Hc).
  - intros d rest Hd. unfold hasUpdateFor.
    rewrite (latestVersionOf_plain "4" _ ltac:(done)). cbv zeta.
    by rewrite (compare_minor d rest Hd).
Qed.
